(** * AutoPostGPT: the publisher and generator modules, embedded and verified

    The development follows [src/publisher.py] and [src/generator.py].
    Python values are embedded shallowly:
    - a [str] is the list of its Unicode code points ([pystr]);
    - a call that may raise is a value of [res], and [try]/[except] is the
      combinator [try_except];
    - the network, the LLM and the random number generator are oracles passed
      in as arguments, so that every function below is a total, executable
      Rocq function. *)

From Stdlib Require Import ZArith List String Ascii Lia DecimalString DecimalZ.
From stdpp Require Import base option list gmap strings.

Open Scope Z_scope.

(** ** The Python runtime fragment the two modules use *)

Module Py.

(** A Python [str]: the sequence of its code points. *)
Abbreviation pystr := (list Z).

(** An ASCII literal as a [pystr]. *)
Definition lit (s : string) : pystr :=
  List.map (fun a => Z.of_nat (nat_of_ascii a)) (list_ascii_of_string s).

Arguments lit : simpl never.

(** [len(s)] *)
Definition len {A} (s : list A) : Z := Z.of_nat (length s).

(** [s.startswith(p)] *)
Fixpoint startswith (s p : pystr) {struct p} : bool :=
  match p, s with
  | [], _ => true
  | _ :: _, [] => false
  | c :: p', d :: s' => if decide (c = d) then startswith s' p' else false
  end.

(** [s.endswith(p)] *)
Definition endswith (s p : pystr) : bool := startswith (reverse s) (reverse p).

(** [s[:k]], for any integer [k]: a negative [k] counts from the end and
    the bound is clamped to [0 .. len(s)]. *)
Definition slice_to {A} (s : list A) (k : Z) : list A :=
  let stop := if k <? 0 then Z.max (len s + k) 0 else Z.min k (len s) in
  take (Z.to_nat stop) s.

(** [c in chars] for a single character. *)
Definition char_in (chars : pystr) (c : Z) : bool := bool_decide (c ∈ chars).

(** [s.lstrip(chars)]: drops the longest leading run of characters of
    [chars]. *)
Fixpoint lstrip (chars s : pystr) : pystr :=
  match s with
  | [] => []
  | c :: s' => if char_in chars c then lstrip chars s' else s
  end.

(** [s.rstrip(chars)] *)
Definition rstrip (chars s : pystr) : pystr := reverse (lstrip chars (reverse s)).

(** The code points [str.isspace] accepts; [str.strip()] without an
    argument removes exactly these. *)
Definition isspace (c : Z) : bool :=
  ((9 <=? c) && (c <=? 13)) || ((28 <=? c) && (c <=? 32))
  || (c =? 133) || (c =? 160) || (c =? 5760)
  || ((8192 <=? c) && (c <=? 8202))
  || (c =? 8232) || (c =? 8233) || (c =? 8239) || (c =? 8287)
  || (c =? 12288).

Fixpoint lstrip_ws (s : pystr) : pystr :=
  match s with
  | [] => []
  | c :: s' => if isspace c then lstrip_ws s' else s
  end.

(** [s.strip()] *)
Definition strip (s : pystr) : pystr := reverse (lstrip_ws (reverse (lstrip_ws s))).

(** [s.split(sep)] for a one-character separator: always at least one
    piece. *)
Fixpoint split (sep : Z) (s : pystr) : list pystr :=
  match s with
  | [] => [[]]
  | c :: s' =>
      if decide (c = sep) then [] :: split sep s'
      else match split sep s' with
           | [] => [[c]]
           | p :: ps => (c :: p) :: ps
           end
  end.

(** [needle in hay] on strings: substring search. *)
Fixpoint contains (hay needle : pystr) : bool :=
  startswith hay needle
  || match hay with
     | [] => false
     | _ :: hay' => contains hay' needle
     end.

(** [str(i)] for an integer. *)
Definition str_of_int (i : Z) : pystr :=
  lit (NilZero.string_of_int (Z.to_int i)).

(** Exceptions, all of them subclasses of [Exception].  The first four are
    the subclasses of [requests.exceptions.RequestException] that
    [requests] raises; [Fault] and [ProtocolError] come from the XML-RPC
    client. *)
Inductive exn : Type :=
  | ConnectionError | Timeout | TooManyRedirects | InvalidJSONError
  | Fault | ProtocolError
  | ValueError | KeyError | AttributeError | TypeError | IndexError
  | ImportError | NameError | OSError | OverflowError.

(** [isinstance(e, requests.exceptions.RequestException)] *)
Definition is_RequestException (e : exn) : bool :=
  match e with
  | ConnectionError | Timeout | TooManyRedirects | InvalidJSONError => true
  | _ => false
  end.

(** The outcome of evaluating an expression: a value, or a raised
    exception. *)
Inductive res (A : Type) : Type :=
  | Ret (a : A)
  | Raise (e : exn).
Arguments Ret {A} a.
Arguments Raise {A} e.

Definition bind {A B} (m : res A) (k : A -> res B) : res B :=
  match m with
  | Ret a => k a
  | Raise e => Raise e
  end.

(** [try: body  except C as e: handler], where [catches] decides
    [isinstance(e, C)]. *)
Definition try_except {A} (body : res A) (catches : exn -> bool)
    (handler : exn -> res A) : res A :=
  match body with
  | Ret a => Ret a
  | Raise e => if catches e then handler e else Raise e
  end.

(** [except Exception] *)
Definition any_Exception (e : exn) : bool := true.

(** The values a configuration dictionary holds. *)
Inductive value : Type :=
  | VNone
  | VBool (b : bool)
  | VInt (i : Z)
  | VStr (s : pystr).

(** Truth value testing ([if v:], [not v], [a or b]). *)
Definition truthy (v : value) : bool :=
  match v with
  | VNone => false
  | VBool b => b
  | VInt i => negb (i =? 0)
  | VStr s => match s with [] => false | _ => true end
  end.

(** [v == 'text'] *)
Definition eq_str (v : value) (s : pystr) : bool :=
  match v with
  | VStr t => bool_decide (t = s)
  | _ => false
  end.

(** [random.randint(a, b)] driven by one draw [r] of the generator. *)
Definition randint (a b : Z) (r : nat) : Z := a + Z.of_nat r mod (b - a + 1).

(** [random.choice(seq)] driven by one draw [r] of the generator. *)
Definition choice {A} (r : nat) (seq : list A) : res A :=
  match seq !! (r mod length seq)%nat with
  | Some x => Ret x
  | None => Raise IndexError
  end.

End Py.

Import Py.

#[global] Instance res_ret : MRet res := @Ret.
#[global] Instance res_bind : MBind res := fun A B k m => bind m k.
#[global] Instance res_fmap : FMap res :=
  fun A B f m => bind m (fun a => Ret (f a)).

(** [d.get(key, default)] and [d[key]] on a configuration dictionary. *)
Definition dict_get (d : gmap string value) (key : string) (dflt : value)
    : value :=
  default dflt (d !! key).

Definition dict_index (d : gmap string value) (key : string) : res value :=
  match d !! key with
  | Some v => Ret v
  | None => Raise KeyError
  end.

(** [a or b] *)
Definition py_or (a b : value) : value := if truthy a then a else b.

(** ** [src/publisher.py] *)

Module Publisher.

(** *** The remote site

    A [requests] call either raises or returns a response with a status
    code and a body; [json] is the outcome of [response.json()].  The
    payloads are the WordPress objects the code indexes: a category and a
    tag carry an integer [id] and a [name]. *)
Record response (A : Type) : Type :=
  { status_code : Z; json : res A }.
Arguments status_code {A} _.
Arguments json {A} _.

Record user : Type := { user_name : option pystr }.
Record category : Type := { cat_id : Z; cat_name : pystr }.
Record tag : Type := { tag_id : Z; tag_name : pystr }.
Record post : Type := { post_id : Z; post_link : option pystr }.

(** The JSON body of [POST /posts]; optional keys are [None] when the code
    does not set them. *)
Record post_data : Type :=
  { pd_title : pystr;
    pd_content : pystr;
    pd_status : value;
    pd_excerpt : option value;
    pd_categories : option (list Z);
    pd_tags : option (list Z) }.

(** The REST endpoints under one API root. *)
Record rest_site : Type :=
  { users_me : res (response user);
    categories_page : res (response (list category));
    categories_search : value -> res (response (list category));
    tags_create : pystr -> res (response tag);
    tags_search : pystr -> res (response (list tag));
    posts_create : post_data -> res (response post) }.

(** A taxonomy term as [wordpress_xmlrpc] returns it; [term_id] is
    [int(term.id)]. *)
Record term : Type := { term_id : Z; term_name : pystr }.

(** The [WordPressPost] object handed to [NewPost]. *)
Record wp_post : Type :=
  { wp_title : pystr;
    wp_content : pystr;
    wp_post_status : value;
    wp_excerpt : option value;
    wp_terms_category : option (list value);
    wp_terms_post_tag : option (list pystr) }.

(** The XML-RPC endpoint at one URL. *)
Record xmlrpc_site : Type :=
  { new_client : res unit;
    get_terms_category : res (list term);
    new_post : wp_post -> res Z }.

(** Everything outside the process: the sites, whether
    [python-wordpress-xmlrpc] is installed, and the next draw of the random
    number generator. *)
Record world : Type :=
  { rest_at : pystr -> rest_site;
    xmlrpc_installed : bool;
    xmlrpc_at : pystr -> xmlrpc_site;
    draw : nat }.

(** *** [WordPressRESTPublisher] *)

Record rest_publisher : Type :=
  { r_url : value;
    r_username : value;
    r_password : value;
    r_default_category : value;
    r_default_status : value;
    base_url : pystr;
    api_url : pystr }.

(** [url.startswith(('http://', 'https://'))] *)
Definition has_scheme (url : pystr) : bool :=
  startswith url (lit "http://") || startswith url (lit "https://").

(** The URL handling of [WordPressRESTPublisher.__init__] (lines 74-83). *)
Definition rest_base_url (url : pystr) : pystr :=
  let url := if endswith url (lit "/xmlrpc.php") then slice_to url (-12)
             else url in
  let url := if negb (has_scheme url) then lit "https://" ++ url else url in
  rstrip (lit "/") url.

(** [WordPressRESTPublisher.__init__] (lines 54-94): a [url] that is not a
    string has no [endswith].  The [Authorization] header built from the
    credentials is part of every request; the answers of [rest_site] are the
    answers to those requests. *)
Definition WordPressRESTPublisher
    (url username password default_category default_status : value)
    : res rest_publisher :=
  match url with
  | VStr u =>
      let b := rest_base_url u in
      Ret {| r_url := url; r_username := username; r_password := password;
             r_default_category := default_category;
             r_default_status := default_status;
             base_url := b;
             api_url := b ++ lit "/wp-json/wp/v2" |}
  | _ => Raise AttributeError
  end.

Section Rest.
Variable w : world.
Variable self : rest_publisher.

Let site : rest_site := rest_at w (api_url self).

(** [test_connection] (lines 96-119) *)
Definition rest_test_connection : res bool :=
  try_except
    (response ← users_me site;
     if status_code response =? 200 then
       user_data ← json response;
       Ret true
     else if status_code response =? 401 then Ret false
     else Ret false)
    is_RequestException (fun _ => Ret false).

(** [get_all_categories] (lines 121-141) *)
Definition rest_get_all_categories : res (list category) :=
  try_except
    (response ← categories_page site;
     if status_code response =? 200 then json response
     else Ret [])
    any_Exception (fun _ => Ret []).

(** [get_random_category_id] (lines 143-166) *)
Definition get_random_category_id : res (option Z) :=
  try_except
    (categories ← rest_get_all_categories;
     match categories with
     | [] => Ret None
     | _ =>
         let valid_categories :=
           filter (fun cat => cat_id cat ≠ 1) categories in
         let valid_categories :=
           match valid_categories with
           | [] => categories
           | _ => valid_categories
           end in
         random_cat ← choice (draw w) valid_categories;
         Ret (Some (cat_id random_cat))
     end)
    any_Exception (fun _ => Ret None).

(** [get_category_id] (lines 168-190) *)
Definition rest_get_category_id (category_name : value) : res (option Z) :=
  try_except
    (response ← categories_search site category_name;
     if status_code response =? 200 then
       categories ← json response;
       Ret (cat_id <$>
              List.find (fun cat => eq_str category_name (cat_name cat))
                categories)
     else Ret None)
    any_Exception (fun _ => Ret None).

(** [create_tag] (lines 192-223) *)
Definition create_tag (name : pystr) : res (option Z) :=
  try_except
    (response ← tags_create site name;
     if status_code response =? 201 then
       tag_data ← json response;
       Ret (Some (tag_id tag_data))
     else if status_code response =? 400 then
       response ← tags_search site name;
       if status_code response =? 200 then
         tags ← json response;
         Ret (tag_id <$>
                List.find (fun t => bool_decide (tag_name t = name)) tags)
       else Ret None
     else Ret None)
    any_Exception (fun _ => Ret None).

(** [if tag_id:] / [if category_id:] on an [Optional[int]] *)
Definition truthy_id (i : option Z) : bool :=
  match i with
  | Some z => negb (z =? 0)
  | None => false
  end.

(** The loop of lines 267-271. *)
Fixpoint collect_tag_ids (tags : list pystr) (tag_ids : list Z)
    : res (list Z) :=
  match tags with
  | [] => Ret tag_ids
  | name :: rest =>
      tid ← create_tag name;
      collect_tag_ids rest
        (match tid with
         | Some z => if truthy_id tid then tag_ids ++ [z] else tag_ids
         | None => tag_ids
         end)
  end.

(** Lines 238-273 of [publish_post]: the body that is sent. *)
Definition rest_post_data (title content : pystr)
    (category status : value) (tags : option (list pystr))
    (excerpt : value) : res post_data :=
  let status := py_or status (r_default_status self) in
  let excerpt := if truthy excerpt then Some excerpt else None in
  let category_name := py_or category (r_default_category self) in
  category_id ←
    (if truthy category_name then rest_get_category_id category_name
     else Ret None);
  category_id ←
    (if negb (truthy_id category_id) then get_random_category_id
     else Ret category_id);
  let categories :=
    match category_id with
    | Some z => if truthy_id category_id then Some [z] else None
    | None => None
    end in
  tag_ids ←
    match tags with
    | Some ((_ :: _) as tags) =>
        tag_ids ← collect_tag_ids tags [];
        Ret (match tag_ids with [] => None | _ => Some tag_ids end)
    | _ => Ret None
    end;
  Ret {| pd_title := title; pd_content := content; pd_status := status;
         pd_excerpt := excerpt; pd_categories := categories;
         pd_tags := tag_ids |}.

(** [publish_post] (lines 225-296) *)
Definition rest_publish_post (title content : pystr)
    (category status : value) (tags : option (list pystr))
    (excerpt : value) : res (option pystr) :=
  try_except
    (data ← rest_post_data title content category status tags excerpt;
     response ← posts_create site data;
     if status_code response =? 201 then
       post ← json response;
       Ret (Some (str_of_int (post_id post)))
     else Ret None)
    any_Exception (fun _ => Ret None).

End Rest.

(** *** [WordPressXMLRPCPublisher] *)

Record xmlrpc_publisher : Type :=
  { x_url : pystr;
    x_username : value;
    x_password : value;
    x_default_category : value;
    x_default_status : value }.

(** [WordPressXMLRPCPublisher.__init__] (lines 320-346): the import, the
    scheme check of lines 335-339, and the client construction, whose
    exception is logged and raised again. *)
Definition WordPressXMLRPCPublisher (w : world)
    (url username password default_category default_status : value)
    : res xmlrpc_publisher :=
  _ ← (if xmlrpc_installed w then Ret () else Raise ImportError);
  url ← match url with
        | VStr u => Ret (if negb (has_scheme u) then lit "https://" ++ u
                         else u)
        | _ => Raise AttributeError
        end;
  _ ← try_except (new_client (xmlrpc_at w url)) any_Exception
        (fun e => Raise e);
  Ret {| x_url := url; x_username := username; x_password := password;
         x_default_category := default_category;
         x_default_status := default_status |}.

Section Xmlrpc.
Variable w : world.
Variable self : xmlrpc_publisher.

Let client : xmlrpc_site := xmlrpc_at w (x_url self).

(** [test_connection] (lines 348-356) *)
Definition xmlrpc_test_connection : res bool :=
  try_except
    (_ ← get_terms_category client; Ret true)
    any_Exception (fun _ => Ret false).

(** [get_all_categories] (lines 358-366) *)
Definition xmlrpc_get_all_categories : res (list term) :=
  try_except (get_terms_category client) any_Exception (fun _ => Ret []).

(** [get_random_category] (lines 368-391): returns [(name, id)]. *)
Definition get_random_category : res (option (pystr * Z)) :=
  try_except
    (categories ← xmlrpc_get_all_categories;
     match categories with
     | [] => Ret None
     | _ =>
         let valid_categories :=
           filter (fun cat => term_id cat ≠ 1) categories in
         let valid_categories :=
           match valid_categories with
           | [] => categories
           | _ => valid_categories
           end in
         random_cat ← choice (draw w) valid_categories;
         Ret (Some (term_name random_cat, term_id random_cat))
     end)
    any_Exception (fun _ => Ret None).

(** [get_category_id] (lines 393-407) *)
Definition xmlrpc_get_category_id (category_name : value) : res (option Z) :=
  try_except
    (categories ← get_terms_category client;
     Ret (term_id <$>
            List.find (fun cat => eq_str category_name (term_name cat))
              categories))
    any_Exception (fun _ => Ret None).

(** Lines 422-455 of [publish_post]: the post object that is sent. *)
Definition xmlrpc_post_object (title content : pystr)
    (category status : value) (tags : option (list pystr))
    (excerpt : value) : res wp_post :=
  let post_status := py_or status (x_default_status self) in
  let excerpt := if truthy excerpt then Some excerpt else None in
  let category_name := py_or category (x_default_category self) in
  selected_category_name ←
    (if truthy category_name then
       category_id ← xmlrpc_get_category_id category_name;
       Ret (if truthy_id category_id then category_name else VNone)
     else Ret VNone);
  selected_category_name ←
    (if negb (truthy selected_category_name) then
       random_cat ← get_random_category;
       Ret (match random_cat with
            | Some (name, _) => VStr name
            | None => selected_category_name
            end)
     else Ret selected_category_name);
  Ret {| wp_title := title; wp_content := content;
         wp_post_status := post_status; wp_excerpt := excerpt;
         wp_terms_category :=
           if truthy selected_category_name
           then Some [selected_category_name] else None;
         wp_terms_post_tag :=
           match tags with
           | Some ((_ :: _) as tags) => Some tags
           | _ => None
           end |}.

(** [publish_post] (lines 409-469) *)
Definition xmlrpc_publish_post (title content : pystr)
    (category status : value) (tags : option (list pystr))
    (excerpt : value) : res (option pystr) :=
  try_except
    (post ← xmlrpc_post_object title content category status tags excerpt;
     post_id ← new_post client post;
     Ret (Some (str_of_int post_id)))
    any_Exception (fun _ => Ret None).

End Xmlrpc.

(** *** [create_publisher] *)

Inductive publisher : Type :=
  | REST (p : rest_publisher)
  | XMLRPC (p : xmlrpc_publisher).

(** The default of [config.get('category', ...)]: U+672A U+5206 U+7C7B. *)
Definition uncategorized : pystr := [0x672A; 0x5206; 0x7C7B].

(** The first [try] of the [auto] branch (lines 499-507): [Some] when the
    function returns from inside it, [None] when control falls through to
    the XML-RPC attempt. *)
Definition auto_try_rest (w : world)
    (url username password category status : value) : res (option publisher) :=
  try_except
    (p ← WordPressRESTPublisher url username password category status;
     ok ← rest_test_connection w p;
     Ret (if ok : bool then Some (REST p) else None))
    any_Exception (fun _ => Ret None).

(** The second [try] of the [auto] branch (lines 509-519); both of its
    exits return. *)
Definition auto_try_xmlrpc (w : world)
    (url username password category status : value) : res (option publisher) :=
  try_except
    (p ← WordPressXMLRPCPublisher w url username password category status;
     ok ← xmlrpc_test_connection w p;
     Ret (if ok : bool then Some (XMLRPC p) else None))
    any_Exception (fun _ => Ret None).

(** [create_publisher] (lines 472-537) *)
Definition create_publisher (w : world) (config : gmap string value)
    : res (option publisher) :=
  try_except
    (if negb (truthy (dict_get config "enabled" (VBool false))) then Ret None
     else
       let api_method := dict_get config "api_method" (VStr (lit "auto")) in
       url ← dict_index config "url";
       username ← dict_index config "username";
       password ← dict_index config "password";
       let category := dict_get config "category" (VStr uncategorized) in
       let status := dict_get config "status" (VStr (lit "draft")) in
       if eq_str api_method (lit "auto") then
         first ← auto_try_rest w url username password category status;
         match first with
         | Some p => Ret (Some p)
         | None => auto_try_xmlrpc w url username password category status
         end
       else if eq_str api_method (lit "rest") then
         p ← WordPressRESTPublisher url username password category status;
         Ret (Some (REST p))
       else if eq_str api_method (lit "xmlrpc") then
         p ← WordPressXMLRPCPublisher w url username password category status;
         Ret (Some (XMLRPC p))
       else Ret None)
    any_Exception (fun _ => Ret None).

End Publisher.

(** ** [src/generator.py] *)

Module Generator.

Section ArticleGenerator.
(** [str.lower]: the Unicode lower-case mapping of the runtime. *)
Variable lower : pystr -> pystr.
(** [self.forbidden_words] *)
Variable forbidden_words : list pystr.
(** The chat-completion endpoint: [llm keyword n attempt] is the outcome of
    evaluating [response.choices[0].message.content] in the given attempt
    of one [generate_titles] call. *)
Variable llm : pystr -> Z -> nat -> res pystr.

(** [_check_forbidden_words] (lines 58-76) *)
Definition _check_forbidden_words (text : pystr) : bool :=
  match forbidden_words with
  | [] => false
  | _ =>
      let text_lower := lower text in
      existsb (fun word => contains text_lower (lower word)) forbidden_words
  end.

(** The argument of [lstrip] on line 150: the digits, the full stop,
    U+3001 and the space. *)
Definition numbering_chars : pystr :=
  lit "0123456789." ++ [0x3001] ++ lit " ".

(** Line 144: the stripped, non-empty lines of the answer. *)
Definition title_lines (content : pystr) : list pystr :=
  List.filter (fun line => match line with [] => false | _ => true end)
    (List.map strip (split 10 content)).

(** The loop of lines 147-154. *)
Fixpoint clean_titles (titles cleaned_titles : list pystr) : list pystr :=
  match titles with
  | [] => cleaned_titles
  | title :: rest =>
      let title := lstrip numbering_chars title in
      match title with
      | [] => clean_titles rest cleaned_titles
      | _ =>
          if negb (_check_forbidden_words title)
          then clean_titles rest (cleaned_titles ++ [title])
          else clean_titles rest cleaned_titles
      end
  end.

(** The retry loop of lines 130-168.  [cleaned_titles] is the local
    variable of that name: unbound ([None]) until the first pass through the
    loop body assigns it, and assigned afresh by every pass. *)
Fixpoint retry_titles (keyword : pystr) (n : Z) (attempt remaining : nat)
    (cleaned_titles : option (list pystr)) : res (list pystr) :=
  match remaining with
  | O =>
      match cleaned_titles with
      | Some titles => Ret titles
      | None => Raise NameError
      end
  | S remaining =>
      content ← llm keyword n attempt;
      let content := strip content in
      let titles := title_lines content in
      let cleaned_titles := clean_titles titles [] in
      if len cleaned_titles >=? n then Ret (slice_to cleaned_titles n)
      else retry_titles keyword n (S attempt) remaining (Some cleaned_titles)
  end.

(** [generate_titles] (lines 78-172) *)
Definition generate_titles (keyword : pystr) (n max_retries : Z)
    : res (list pystr) :=
  try_except
    (retry_titles keyword n 0 (Z.to_nat max_retries) None)
    any_Exception (fun _ => Ret []).

End ArticleGenerator.

(** Line 516: the URL of the placeholder image with a given identifier. *)
Definition picsum_url (img_id : Z) : pystr :=
  lit "https://picsum.photos/id/" ++ str_of_int img_id ++ lit "/800/600".

(** Line 510 followed by the [while] loop of lines 511-512: draw until the
    identifier is not in [used_ids].  The random number generator is the
    stream [rnd] of its future draws, read from position [pos]; [fuel]
    bounds the number of draws made for this one image, and [None] means
    that the loop is still running after [fuel] draws. *)
Fixpoint draw_unused (rnd : nat -> nat) (used_ids : gset Z) (pos fuel : nat)
    : option (Z * nat) :=
  match fuel with
  | O => None
  | S fuel =>
      let img_id := randint 1 1000 (rnd pos) in
      if decide (img_id ∈ used_ids) then draw_unused rnd used_ids (S pos) fuel
      else Some (img_id, S pos)
  end.

(** The [for] loop of lines 508-517, with [count] iterations left. *)
Fixpoint picsum_loop (rnd : nat -> nat) (count : nat) (used_ids : gset Z)
    (images : list pystr) (pos fuel : nat) : option (list pystr) :=
  match count with
  | O => Some images
  | S count =>
      match draw_unused rnd used_ids pos fuel with
      | None => None
      | Some (img_id, pos) =>
          picsum_loop rnd count ({[img_id]} ∪ used_ids)
            (images ++ [picsum_url img_id]) pos fuel
      end
  end.

(** [_search_picsum] (lines 497-520); [range(count)] is empty for a
    negative [count]. *)
Definition _search_picsum (rnd : nat -> nat) (query : pystr) (count : Z)
    (fuel : nat) : option (list pystr) :=
  picsum_loop rnd (Z.to_nat count) ∅ [] 0 fuel.

(** Image acquisition in [generate_article] (lines 660-705): the requests it
    makes, in order, with the count each one asks for. *)
Inductive image_request : Type :=
  | SearchImages (count : Z)
  | GenerateImages (count : Z).

(** Lines 685-686. *)
Definition mixed_counts (image_count : Z) : Z * Z :=
  let search_count := image_count / 2 in
  let generate_count := image_count - search_count in
  (search_count, generate_count).

Definition image_requests (fetch_real_images : bool) (image_count : Z)
    (image_mode : pystr) : list image_request :=
  if fetch_real_images && (image_count >? 0) then
    if bool_decide (image_mode = lit "search") then
      [SearchImages image_count]
    else if bool_decide (image_mode = lit "generate") then
      [GenerateImages image_count]
    else if bool_decide (image_mode = lit "mixed") then
      let '(search_count, generate_count) := mixed_counts image_count in
      (if search_count >? 0 then [SearchImages search_count] else [])
      ++ (if generate_count >? 0 then [GenerateImages generate_count] else [])
    else []
  else [].

End Generator.

Import Publisher Generator.

(** ** Vocabulary of the statements *)

Module Vocabulary.

(** The REST attempt of the factory fails: the constructor raises, or
    [test_connection] does anything but return [True]. *)
Definition rest_attempt_fails (w : world)
    (url username password category status : value) : Prop :=
  match WordPressRESTPublisher url username password category status with
  | Ret p => rest_test_connection w p ≠ Ret true
  | Raise _ => True
  end.

Definition xmlrpc_attempt_fails (w : world)
    (url username password category status : value) : Prop :=
  match WordPressXMLRPCPublisher w url username password category status with
  | Ret p => xmlrpc_test_connection w p ≠ Ret true
  | Raise _ => True
  end.

(** The clean titles one attempt of [generate_titles] yields: lines
    143-154 applied to the answer of attempt [a]. *)
Definition attempt_titles (lower : pystr → pystr)
    (forbidden_words : list pystr) (llm : pystr → Z → nat → res pystr)
    (keyword : pystr) (n : Z) (a : nat) : res (list pystr) :=
  content ← llm keyword n a;
  Ret (clean_titles lower forbidden_words (title_lines (strip content)) []).

(** [t] has no case-insensitive substring match with a word of [L]. *)
Definition free_of (lower : pystr → pystr) (L : list pystr) (t : pystr)
    : Prop :=
  Forall (fun word => contains (lower t) (lower word) = false) L.

(** What the cleaning loop of lines 147-154 lets through: [t] is [line]
    without its leading numbering characters, is not empty and passes the
    forbidden-word check. *)
Definition passes (lower : pystr → pystr) (L : list pystr) (line t : pystr)
    : Prop :=
  t = lstrip numbering_chars line ∧ t ≠ []
  ∧ _check_forbidden_words lower L t = false.

(** The same world with another draw of the random number generator. *)
Definition with_draw (r : nat) (w : world) : world :=
  {| rest_at := rest_at w; xmlrpc_installed := xmlrpc_installed w;
     xmlrpc_at := xmlrpc_at w; draw := r |}.

(** The identifier a tag contributes to the post: the one [create_tag]
    returns, when it returns one that is not zero. *)
Definition attached_tag_id (w : world) (self : rest_publisher) (name : pystr)
    : option Z :=
  match create_tag w self name with
  | Ret (Some z) => if z =? 0 then None else Some z
  | _ => None
  end.

(** Neither the creation of the tag nor the lookup succeeds: the creation
    call raises or is answered with a status other than 201 and 400, or it
    is answered with 400 and the search raises, is not answered with 200,
    has no readable body or lists no tag of that name. *)
Definition tag_unresolved (w : world) (self : rest_publisher) (name : pystr)
    : Prop :=
  let site := rest_at w (api_url self) in
  (∃ e, tags_create site name = Raise e)
  ∨ (∃ response, tags_create site name = Ret response
                 ∧ status_code response ≠ 201 ∧ status_code response ≠ 400)
  ∨ (∃ response, tags_create site name = Ret response
                 ∧ status_code response = 400
                 ∧ ((∃ e, tags_search site name = Raise e)
                    ∨ (∃ found, tags_search site name = Ret found
                         ∧ (status_code found ≠ 200
                            ∨ (∃ e, json found = Raise e)
                            ∨ (∃ tags, json found = Ret tags
                                 ∧ ∀ t, t ∈ tags → tag_name t ≠ name))))).

(** The [tags] key of the request body for a given [tags] argument. *)
Definition tags_field (w : world) (self : rest_publisher)
    (tags : option (list pystr)) : option (list Z) :=
  match tags with
  | Some tags =>
      let tag_ids := omap (attached_tag_id w self) tags in
      match tag_ids with
      | [] => None
      | _ => Some tag_ids
      end
  | None => None
  end.

(** The category identifier [publish_post] settles on (lines 250-260). *)
Definition rest_category_id (w : world) (self : rest_publisher)
    (category : value) : res (option Z) :=
  let category_name := py_or category (r_default_category self) in
  category_id ←
    (if truthy category_name then rest_get_category_id w self category_name
     else Ret None);
  if negb (truthy_id category_id) then get_random_category_id w self
  else Ret category_id.

(** The category lookup of [publish_post] yields nothing: no name is
    requested or configured, or [get_category_id] does not find it. *)
Definition rest_lookup_fails (w : world) (self : rest_publisher)
    (category : value) : Prop :=
  let category_name := py_or category (r_default_category self) in
  truthy category_name = false
  ∨ rest_get_category_id w self category_name = Ret None.

Definition xmlrpc_lookup_fails (w : world) (self : xmlrpc_publisher)
    (category : value) : Prop :=
  let category_name := py_or category (x_default_category self) in
  truthy category_name = false
  ∨ xmlrpc_get_category_id w self category_name = Ret None.

(** The identifiers Picsum serves. *)
Definition placeholder_id (img_id : Z) : Prop := 1 ≤ img_id ≤ 1000.

(** A generator that never withholds an identifier for good: whatever has
    been drawn so far, each identifier is drawn again later. *)
Definition fair (rnd : nat → nat) : Prop :=
  ∀ pos img_id, placeholder_id img_id →
    ∃ m, (pos ≤ m)%nat ∧ randint 1 1000 (rnd m) = img_id.

End Vocabulary.

Import Vocabulary.

(** ** Concrete inputs used by the examples below *)

Module Fixtures.

(** Lower-casing restricted to the ASCII letters. *)
Definition ascii_lower (s : pystr) : pystr :=
  List.map (fun c => if (65 <=? c) && (c <=? 90) then c + 32 else c) s.

(** A site where nothing answers. *)
Definition dead_rest_site : rest_site :=
  {| users_me := Raise ConnectionError;
     categories_page := Raise ConnectionError;
     categories_search := fun _ => Raise ConnectionError;
     tags_create := fun _ => Raise ConnectionError;
     tags_search := fun _ => Raise ConnectionError;
     posts_create := fun _ => Raise ConnectionError |}.

Definition dead_xmlrpc_site : xmlrpc_site :=
  {| new_client := Ret ();
     get_terms_category := Raise ProtocolError;
     new_post := fun _ => Raise ProtocolError |}.

Definition dead_world : world :=
  {| rest_at := fun _ => dead_rest_site;
     xmlrpc_installed := true;
     xmlrpc_at := fun _ => dead_xmlrpc_site;
     draw := 0 |}.

Definition blog_endpoint : pystr := lit "https://yourblog.com/xmlrpc.php".

(** A site whose REST API accepts the credentials. *)
Definition live_rest_site : rest_site :=
  {| users_me :=
       Ret {| status_code := 200;
              json := Ret {| user_name := Some (lit "admin") |} |};
     categories_page := Raise ConnectionError;
     categories_search := fun _ => Raise ConnectionError;
     tags_create := fun _ => Raise ConnectionError;
     tags_search := fun _ => Raise ConnectionError;
     posts_create := fun _ => Raise ConnectionError |}.

Definition live_xmlrpc_site : xmlrpc_site :=
  {| new_client := Ret ();
     get_terms_category := Ret [];
     new_post := fun _ => Raise ProtocolError |}.

Definition rest_world : world :=
  {| rest_at := fun _ => live_rest_site;
     xmlrpc_installed := true;
     xmlrpc_at := fun _ => dead_xmlrpc_site;
     draw := 0 |}.

(** REST rejects the credentials with 401, XML-RPC answers. *)
Definition unauthorized_rest_site : rest_site :=
  {| users_me := Ret {| status_code := 401; json := Raise InvalidJSONError |};
     categories_page := Raise ConnectionError;
     categories_search := fun _ => Raise ConnectionError;
     tags_create := fun _ => Raise ConnectionError;
     tags_search := fun _ => Raise ConnectionError;
     posts_create := fun _ => Raise ConnectionError |}.

Definition xmlrpc_world : world :=
  {| rest_at := fun _ => unauthorized_rest_site;
     xmlrpc_installed := true;
     xmlrpc_at := fun _ => live_xmlrpc_site;
     draw := 0 |}.

(** A site with three categories, the reserved one among them, where the
    tag [python] exists already, the tag [rust] can be created and the tag
    [broken] cannot; no category is found by name. *)
Definition shop_categories : list category :=
  [ {| cat_id := 1; cat_name := lit "Uncategorized" |};
    {| cat_id := 5; cat_name := lit "News" |};
    {| cat_id := 7; cat_name := lit "Tips" |} ].

Definition shop_rest_site : rest_site :=
  {| users_me :=
       Ret {| status_code := 200;
              json := Ret {| user_name := Some (lit "admin") |} |};
     categories_page :=
       Ret {| status_code := 200; json := Ret shop_categories |};
     categories_search :=
       fun _ => Ret {| status_code := 200; json := Ret [] |};
     tags_create :=
       fun name =>
         if bool_decide (name = lit "python") then
           Ret {| status_code := 400; json := Raise InvalidJSONError |}
         else if bool_decide (name = lit "rust") then
           Ret {| status_code := 201;
                  json := Ret {| tag_id := 30; tag_name := name |} |}
         else Ret {| status_code := 500; json := Raise InvalidJSONError |};
     tags_search :=
       fun name =>
         Ret {| status_code := 200;
                json := Ret [ {| tag_id := 11; tag_name := lit "python3" |};
                              {| tag_id := 12; tag_name := lit "python" |} ]
             |};
     posts_create :=
       fun _ => Ret {| status_code := 201;
                       json := Ret {| post_id := 77; post_link := None |} |}
  |}.

Definition shop_terms : list term :=
  [ {| term_id := 1; term_name := lit "Uncategorized" |};
    {| term_id := 5; term_name := lit "News" |};
    {| term_id := 7; term_name := lit "Tips" |} ].

Definition shop_xmlrpc_site : xmlrpc_site :=
  {| new_client := Ret ();
     get_terms_category := Ret shop_terms;
     new_post := fun _ => Ret 78 |}.

Definition shop_world : world :=
  {| rest_at := fun _ => shop_rest_site;
     xmlrpc_installed := true;
     xmlrpc_at := fun _ => shop_xmlrpc_site;
     draw := 1 |}.

(** The two adapters for [https://yourblog.com]. *)
Definition blog_rest : rest_publisher :=
  {| r_url := VStr (lit "https://yourblog.com");
     r_username := VStr (lit "admin");
     r_password := VStr (lit "secret");
     r_default_category := VStr uncategorized;
     r_default_status := VStr (lit "draft");
     base_url := lit "https://yourblog.com";
     api_url := lit "https://yourblog.com/wp-json/wp/v2" |}.

Definition blog_xmlrpc : xmlrpc_publisher :=
  {| x_url := lit "https://yourblog.com";
     x_username := VStr (lit "admin");
     x_password := VStr (lit "secret");
     x_default_category := VStr uncategorized;
     x_default_status := VStr (lit "draft") |}.

(** An LLM that answers the first attempt with one forbidden and one clean
    title, and every later attempt with a forbidden title only. *)
Definition stubborn_llm (keyword : pystr) (n : Z) (attempt : nat)
    : res pystr :=
  match attempt with
  | O => Ret (lit "1. The SECRET of indoor plants"
              ++ [10] ++ lit "2. 2025 indoor plants for small rooms")
  | _ => Ret (lit "Another secret of indoor plants")
  end.

(** An LLM that answers every attempt with the same two clean titles. *)
Definition steady_llm (keyword : pystr) (n : Z) (attempt : nat) : res pystr :=
  Ret (lit "1. Watering indoor plants"
       ++ [10] ++ lit "2. 2025 indoor plants for small rooms").

(** A generator whose draws run through the identifiers in order. *)
Definition counting_rnd (i : nat) : nat := i.

Definition credentials : gmap string value :=
  <["url" := VStr (lit "https://yourblog.com")]>
    (<["username" := VStr (lit "admin")]>
       (<["password" := VStr (lit "secret")]> ∅)).

(** [api_method: auto] with publishing switched on, and switched off. *)
Definition enabled_config : gmap string value :=
  <["enabled" := VBool true]>
    (<["api_method" := VStr (lit "auto")]> credentials).

Definition disabled_config : gmap string value :=
  <["enabled" := VBool false]>
    (<["api_method" := VStr (lit "auto")]> credentials).

End Fixtures.

Import Fixtures.

(** ** More of the runtime fragment *)

Module PyMore.

(** [s[k:]], for any integer [k], with the bounds of [slice_to]. *)
Definition slice_from {A} (s : list A) (k : Z) : list A :=
  let start := if k <? 0 then Z.max (len s + k) 0 else Z.min k (len s) in
  drop (Z.to_nat start) s.

(** [s.replace(old, new)] for one-character [old] and [new]. *)
Definition replace_char (old new : Z) (s : pystr) : pystr :=
  List.map (fun c => if decide (c = old) then new else c) s.

(** [s.replace(old, new, 1)]: the first occurrence only. *)
Fixpoint replace_first (old new s : pystr) : pystr :=
  if startswith s old then new ++ drop (length old) s
  else match s with
       | [] => []
       | c :: s' => c :: replace_first old new s'
       end.

(** Truth value of a string or list, and of the [Optional[str]] of
    [os.getenv]. *)
Definition nonempty {A} (s : list A) : bool :=
  match s with [] => false | _ => true end.

Definition truthy_str (s : option pystr) : bool :=
  match s with Some s => nonempty s | None => false end.

End PyMore.

Import PyMore.

(** ** [src/generator.py]: images and articles *)

Module Articles.

(** The arguments of [client.images.generate]; [quality] and [style] are
    only passed for [dall-e-3]. *)
Record dalle_params : Type :=
  { dp_model : pystr; dp_prompt : pystr; dp_size : pystr; dp_n : Z;
    dp_quality : option pystr; dp_style : option pystr }.

(** [self.client]: for each call site, the outcome of the request and of
    reading [response.choices[0].message.content] (for images: the URLs of
    [response.data]). *)
Record api_client : Type :=
  { chat_image_keywords : pystr -> Z -> res pystr;
    chat_image_prompts : pystr -> Z -> res pystr;
    images_generate : dalle_params -> res (list pystr);
    chat_article : pystr -> nat -> res pystr;
    chat_seo : pystr -> Z -> res pystr }.

(** One image provider: its key in the environment ([os.getenv]) and its
    search endpoint, called with a query and [per_page]; the body is the list
    of the image URLs of the hits, in order. *)
Record provider : Type :=
  { api_key : option pystr;
    photo_search : pystr -> Z -> res (response (list pystr)) }.

Record providers : Type :=
  { unsplash : provider; pexels : provider; pixabay : provider }.

(** The argument of [lstrip] on lines 223 and 339: as for titles, and the
    hyphen. *)
Definition bullet_chars : pystr :=
  lit "0123456789." ++ [0x3001] ++ lit " -".

(** The loops of lines 221-225 and 337-341. *)
Fixpoint clean_lines (lines cleaned : list pystr) : list pystr :=
  match lines with
  | [] => cleaned
  | kw :: rest =>
      let kw := lstrip bullet_chars kw in
      match kw with
      | [] => clean_lines rest cleaned
      | _ => clean_lines rest (cleaned ++ [kw])
      end
  end.

Section Images.
Variable client : api_client.
Variable env : providers.
(** The stream of draws of the random number generator. *)
Variable rnd : nat -> nat.

(** [generate_image_keywords] (lines 174-236) *)
Definition generate_image_keywords (title : pystr) (count : Z)
    : res (list pystr) :=
  try_except
    (content ← chat_image_keywords client title count;
     let content := strip content in
     let keywords := title_lines content in
     let cleaned_keywords := clean_lines keywords [] in
     Ret (slice_to cleaned_keywords count))
    any_Exception (fun _ => Ret [slice_to title 50]).

(** [generate_image_with_dalle] (lines 238-288) *)
Definition generate_image_with_dalle (prompt model size quality style : pystr)
    : res (option pystr) :=
  try_except
    (let dalle3 := bool_decide (model = lit "dall-e-3") in
     let params :=
       {| dp_model := model; dp_prompt := prompt; dp_size := size; dp_n := 1;
          dp_quality := if dalle3 then Some quality else None;
          dp_style := if dalle3 then Some style else None |} in
     data ← images_generate client params;
     match data with
     | image_url :: _ => Ret (Some image_url)
     | [] => Ret None
     end)
    any_Exception (fun _ => Ret None).

(** [generate_image_prompts] (lines 290-350) *)
Definition generate_image_prompts (title : pystr) (count : Z)
    : res (list pystr) :=
  try_except
    (content ← chat_image_prompts client title count;
     let content := strip content in
     let prompts := title_lines content in
     let cleaned_prompts := clean_lines prompts [] in
     Ret (slice_to cleaned_prompts count))
    any_Exception
    (fun _ => Ret [slice_to (lit "Illustration related to: " ++ title) 100]).

(** The body of the [for] loops of [_search_unsplash_smart],
    [_search_pexels_smart] and [_search_pixabay_smart] (lines 530-546,
    563-579, 596-610): one request per keyword, with [per_page=1]; its first
    hit, if any, is appended, and an exception is logged and dropped. *)
Fixpoint smart_loop (p : provider) (keywords images : list pystr)
    : res (list pystr) :=
  match keywords with
  | [] => Ret images
  | keyword :: rest =>
      images ←
        try_except
          (response ← photo_search p keyword 1;
           if status_code response =? 200 then
             data ← json response;
             match data with
             | url :: _ => Ret (images ++ [url])
             | [] => Ret images
             end
           else Ret images)
          any_Exception (fun _ => Ret images);
      smart_loop p rest images
  end.

(** The three [_search_*_smart] functions (lines 522-617) differ in the
    environment variable, the endpoint and the path of the URL in the
    answer, which [provider] holds.  [None]: the placeholder fallback is
    still drawing after [fuel] draws for one image. *)
Definition search_smart (p : provider) (keywords : list pystr) (count : Z)
    (fuel : nat) : option (res (list pystr)) :=
  if negb (truthy_str (api_key p)) then
    Ret <$> _search_picsum rnd [] count fuel
  else
    match smart_loop p (slice_to keywords count) [] with
    | Ret [] => Ret <$> _search_picsum rnd [] count fuel
    | other => Some other
    end.

Definition _search_unsplash_smart := search_smart (unsplash env).
Definition _search_pexels_smart := search_smart (pexels env).
Definition _search_pixabay_smart := search_smart (pixabay env).

(** The three plain searches [_search_unsplash], [_search_pexels] and
    [_search_pixabay] (lines 398-495): one request with [per_page=count],
    at most [count] of its hits, and the placeholders when there is no key,
    no hit, another status than 200 or an exception. *)
Definition search_plain (p : provider) (query : pystr) (count : Z)
    (fuel : nat) : option (res (list pystr)) :=
  if negb (truthy_str (api_key p)) then
    Ret <$> _search_picsum rnd query count fuel
  else
    match
      (response ← photo_search p query count;
       if status_code response =? 200 then
         data ← json response;
         Ret (Some (slice_to data count))
       else Ret None)
    with
    | Ret (Some ((_ :: _) as images)) => Some (Ret images)
    | _ => Ret <$> _search_picsum rnd query count fuel
    end.

Definition _search_unsplash := search_plain (unsplash env).
Definition _search_pexels := search_plain (pexels env).
Definition _search_pixabay := search_plain (pixabay env).

(** [search_images] (lines 352-396) *)
Definition search_images (query : pystr) (count : Z) (search_engine : pystr)
    (use_smart_keywords : bool) (fuel : nat) : option (res (list pystr)) :=
  let body :=
    match
      (if use_smart_keywords
          && negb (bool_decide (search_engine = lit "picsum"))
       then
         smart_keywords ← generate_image_keywords query count;
         Ret (match smart_keywords with
              | [] => [query]
              | _ => smart_keywords
              end)
       else Ret [query])
    with
    | Raise e => Some (Raise e)
    | Ret search_queries =>
        if bool_decide (search_engine = lit "picsum") then
          Ret <$> _search_picsum rnd query count fuel
        else if bool_decide (search_engine = lit "unsplash") then
          _search_unsplash_smart search_queries count fuel
        else if bool_decide (search_engine = lit "pexels") then
          _search_pexels_smart search_queries count fuel
        else if bool_decide (search_engine = lit "pixabay") then
          _search_pixabay_smart search_queries count fuel
        else Ret <$> _search_picsum rnd query count fuel
    end in
  match body with
  | Some (Raise _) => Ret <$> _search_picsum rnd query count fuel
  | other => other
  end.

(** The loops of lines 671-680 and 696-705: one generated image per prompt,
    kept when a URL comes back. *)
Fixpoint generated_images (prompts : list pystr)
    (model size quality style : pystr) (image_urls : list pystr)
    : res (list pystr) :=
  match prompts with
  | [] => Ret image_urls
  | prompt :: rest =>
      img_url ← generate_image_with_dalle prompt model size quality style;
      generated_images rest model size quality style
        (if truthy_str img_url
         then image_urls ++ [default [] img_url] else image_urls)
  end.

(** Lines 660-705 of [generate_article]: the image URLs of the article. *)
Definition acquire_images (title : pystr) (image_count : Z)
    (fetch_real_images : bool) (image_search_engine image_mode : pystr)
    (model size quality style : pystr) (fuel : nat)
    : option (res (list pystr)) :=
  if fetch_real_images && (image_count >? 0) then
    if bool_decide (image_mode = lit "search") then
      search_images title image_count image_search_engine true fuel
    else if bool_decide (image_mode = lit "generate") then
      Some (prompts ← generate_image_prompts title image_count;
            generated_images prompts model size quality style [])
    else if bool_decide (image_mode = lit "mixed") then
      let search_count := image_count / 2 in
      let generate_count := image_count - search_count in
      match
        (if search_count >? 0 then
           search_images title search_count image_search_engine true fuel
         else Some (Ret []))
      with
      | None => None
      | Some found =>
          Some (image_urls ← found;
                if generate_count >? 0 then
                  prompts ← generate_image_prompts title generate_count;
                  generated_images prompts model size quality style image_urls
                else Ret image_urls)
      end
    else Some (Ret [])
  else Some (Ret []).

End Images.

Section Article.
Variable lower : pystr -> pystr.
Variable forbidden_words : list pystr.
Variable client : api_client.
(** The [re] module, with the flags [DOTALL | IGNORECASE] where the code
    passes them: [re_search_group pattern s] is [group(1)] of
    [re.search(pattern, s)], [re_sub pattern repl s] is
    [re.sub(pattern, repl, s)], and [re_finditer pattern s] lists
    [(group(0), group(1))] of the matches. *)
Variable re_search_group : pystr -> pystr -> option pystr.
Variable re_sub : pystr -> pystr -> pystr -> pystr.
Variable re_finditer : pystr -> pystr -> list (pystr * pystr).

(** Lines 776-785: the patterns removed from a complete document. *)
Definition tags_to_remove : list pystr :=
  [ lit "<!DOCTYPE[^>]*>"; lit "<html[^>]*>"; lit "</html>";
    lit "<head[^>]*>.*?</head>"; lit "<body[^>]*>"; lit "</body>";
    lit "<meta[^>]*>"; lit "<title[^>]*>.*?</title>" ].

(** [_clean_html_structure] (lines 756-806) *)
Definition _clean_html_structure (content : pystr) : pystr :=
  let content :=
    if contains content (lit "<!DOCTYPE") || contains content (lit "<html")
    then
      let content :=
        match re_search_group (lit "<body[^>]*>(.*)</body>") content with
        | Some body => strip body
        | None => content
        end in
      let content :=
        fold_left (fun c tag_pattern => re_sub tag_pattern [] c)
          tags_to_remove content in
      let content := re_sub (lit "\n\s*\n\s*\n") [10; 10] content in
      strip content
    else content in
  let content :=
    if startswith content (lit "```html") then slice_from content 7
    else content in
  let content :=
    if endswith content (lit "```") then slice_to content (-3) else content in
  strip content.

(** Line 823: the pattern of an image placeholder. *)
Definition placeholder_pattern : pystr :=
  lit "<img\s+src=" ++ [34] ++ lit "?\[IMAGE_PLACEHOLDER[^\]]*\]" ++ [34]
  ++ lit "?\s+alt=" ++ [34] ++ lit "([^" ++ [34] ++ lit "]*)" ++ [34].

(** The loop of lines 824-830, at match number [i]. *)
Fixpoint replace_matches (matches : list (pystr * pystr)) (i : nat)
    (image_urls : list pystr) (content : pystr) : pystr :=
  match matches with
  | [] => content
  | (old_tag, alt_text) :: rest =>
      replace_matches rest (S i) image_urls
        (match image_urls !! i with
         | Some url =>
             let new_tag :=
               lit "<img src=" ++ [34] ++ url ++ [34] ++ lit " alt=" ++ [34]
               ++ alt_text ++ [34] in
             replace_first old_tag new_tag content
         | None => content
         end)
  end.

(** [_replace_image_placeholders] (lines 808-832) *)
Definition _replace_image_placeholders (content : pystr)
    (image_urls : list pystr) : pystr :=
  let matches := re_finditer placeholder_pattern content in
  replace_matches matches 0 image_urls content.

(** The retry loop of lines 707-750. *)
Fixpoint retry_article (title : pystr) (fetch_real_images : bool)
    (image_urls : list pystr) (attempt remaining : nat) : res pystr :=
  match remaining with
  | O => Ret []
  | S remaining =>
      content ← chat_article client title attempt;
      let article_content := strip content in
      let article_content := _clean_html_structure article_content in
      if _check_forbidden_words lower forbidden_words article_content then
        retry_article title fetch_real_images image_urls (S attempt) remaining
      else
        Ret (if fetch_real_images && nonempty image_urls
             then _replace_image_placeholders article_content image_urls
             else article_content)
  end.

(** [generate_article] (lines 619-754), given the outcome [images] of the
    image acquisition of lines 660-705. *)
Definition generate_article_with (images : res (list pystr))
    (title : pystr) (fetch_real_images : bool) (max_retries : Z)
    : res pystr :=
  try_except
    (image_urls ← images;
     retry_article title fetch_real_images image_urls 0
       (Z.to_nat max_retries))
    any_Exception (fun _ => Ret []).

(** [generate_article] (lines 619-754); the template and the word count
    only enter the prompt. *)
Definition generate_article (env : providers) (rnd : nat -> nat)
    (title : pystr) (image_count : Z) (fetch_real_images : bool)
    (image_search_engine image_mode : pystr)
    (model size quality style : pystr) (max_retries : Z) (fuel : nat)
    : option (res pystr) :=
  match acquire_images client env rnd title image_count fetch_real_images
          image_search_engine image_mode model size quality style fuel with
  | None => None
  | Some images =>
      Some (generate_article_with images title fetch_real_images max_retries)
  end.

(** [generate_seo_description] (lines 920-970) *)
Definition generate_seo_description (title article : pystr) (max_length : Z)
    : res pystr :=
  try_except
    (content ← chat_seo client title max_length;
     let description := strip content in
     if _check_forbidden_words lower forbidden_words description then Ret []
     else Ret description)
    any_Exception (fun _ => Ret []).

End Article.

End Articles.

Import Articles.

(** ** [src/autopost.py] *)

Module AutoPost.

(** The part of [self.config] the functions below read, as
    [validate_config] guarantees it, and the [wordpress] section. *)
Record config : Type :=
  { save_path : pystr;
    save_mode : pystr;
    title_per_keyword : Z;
    delay_between_posts : Z;
    wordpress : gmap string value }.

(** The file system and the clock: [mkdir(parents=True, exist_ok=True)],
    writing a file, the [/] of [pathlib], [datetime.now()] formatted with
    [%Y-%m-%d] and with [%Y%m%d_%H%M%S], and [time.sleep], which refuses
    some lengths (a negative one, one too large for the platform's time
    type). *)
Record filesystem : Type :=
  { mkdir : pystr -> res unit;
    write_file : pystr -> pystr -> res unit;
    path_join : pystr -> pystr -> pystr;
    today : pystr;
    now : pystr;
    sleep : Z -> res unit }.

(** [publisher.publish_post], called with [title], [content], [category],
    [status] and [tags]. *)
Definition publish_fn : Type :=
  pystr -> pystr -> value -> value -> option (list pystr) -> res (option pystr).

(** [publish_post] of the adapter [create_publisher] returned. *)
Definition publish_post (w : world) (p : publisher) : publish_fn :=
  fun title content category status tags =>
    match p with
    | REST p => rest_publish_post w p title content category status tags VNone
    | XMLRPC p =>
        xmlrpc_publish_post w p title content category status tags VNone
    end.

(** Line 105 of [load_keywords], for one line of the file. *)
Definition keywords_in_line (line : pystr) : list pystr :=
  List.filter nonempty (List.map strip (split 124 line)).

(** The loop of lines 101-106. *)
Fixpoint read_keywords (lines all_keywords : list pystr) : list pystr :=
  match lines with
  | [] => all_keywords
  | line :: rest =>
      let line := strip line in
      match line with
      | [] => read_keywords rest all_keywords
      | _ => read_keywords rest (all_keywords ++ keywords_in_line line)
      end
  end.

(** [load_keywords] (lines 83-113); [keywords_file] is [None] when the file
    does not exist, and otherwise the outcome of opening and reading its
    lines. *)
Definition load_keywords (keywords_file : option (res (list pystr)))
    : res (list pystr) :=
  try_except
    (match keywords_file with
     | None => Ret []
     | Some file => lines ← file; Ret (read_keywords lines [])
     end)
    any_Exception (fun _ => Ret []).

(** Lines 231-237 of [save_article]: the title as a file name. *)
Definition safe_title (title : pystr) : pystr :=
  let safe_title := replace_char 47 95 title in
  let safe_title := replace_char 92 95 safe_title in
  let safe_title := replace_char 58 95 safe_title in
  let safe_title := replace_char 42 95 safe_title in
  let safe_title := replace_char 63 95 safe_title in
  let safe_title := replace_char 34 95 safe_title in
  let safe_title := replace_char 60 95 safe_title in
  let safe_title := replace_char 62 95 safe_title in
  let safe_title := replace_char 124 95 safe_title in
  if len safe_title >? 50 then slice_to safe_title 50 else safe_title.

(** The default of [wp_config.get('category', ...)] on line 354:
    U+9ED8 U+8BA4 U+5206 U+7C7B. *)
Definition default_category : pystr := [0x9ED8; 0x8BA4; 0x5206; 0x7C7B].

Section AutoPost.
Variable fs : filesystem.
Variable cfg : config.
(** [self.generator.generate_article(title=title, ...)] and
    [self.generator.generate_titles(keyword=keyword, n=...)]. *)
Variable article_of : pystr -> res pystr.
Variable titles_of : pystr -> Z -> res (list pystr).
(** [self.publisher] *)
Variable publisher : option publish_fn.

(** [create_output_directory] (lines 142-167) *)
Definition create_output_directory (keyword : pystr) : res pystr :=
  let base_path := save_path cfg in
  let output_dir :=
    if bool_decide (save_mode cfg = lit "keyword") then
      let folder_name := if nonempty keyword then keyword else lit "default" in
      path_join fs base_path folder_name
    else path_join fs base_path (today fs) in
  _ ← mkdir fs output_dir;
  Ret output_dir.

(** [save_article] (lines 210-251) *)
Definition save_article (keyword title content : pystr) (index : Z)
    : res bool :=
  try_except
    (output_dir ← create_output_directory keyword;
     let timestamp := now fs in
     let filename := safe_title title ++ lit "_" ++ timestamp ++ lit ".txt" in
     let filepath := path_join fs output_dir filename in
     _ ← write_file fs filepath content;
     Ret true)
    any_Exception (fun _ => Ret false).

(** [publish_to_wordpress] (lines 335-377); without a publisher the call
    on [None] raises. *)
Definition publish_to_wordpress (title content keyword : pystr)
    : res (option pystr) :=
  try_except
    (let wp_config := wordpress cfg in
     let category := dict_get wp_config "category" (VStr default_category) in
     let status := dict_get wp_config "status" (VStr (lit "draft")) in
     let tags := if nonempty keyword then Some [keyword] else None in
     post_id ←
       match publisher with
       | Some publish_post => publish_post title content category status tags
       | None => Raise AttributeError
       end;
     Ret (if truthy_str post_id then post_id else None))
    any_Exception (fun _ => Ret None).

(** [generate_and_save_article] (lines 253-333) *)
Definition generate_and_save_article (keyword title : pystr)
    (index total : Z) : res bool :=
  try_except
    (article_content ← article_of title;
     if negb (nonempty article_content) then Ret false
     else
       saved ← save_article keyword title article_content index;
       if saved : bool then
         _ ← match publisher with
             | Some _ =>
                 post_id ← publish_to_wordpress title article_content keyword;
                 Ret ()
             | None => Ret ()
             end;
         Ret true
       else Ret false)
    any_Exception (fun _ => Ret false).

(** The counters of [process_keywords] and the pauses it has made
    ([time.sleep]), latest last. *)
Record progress : Type :=
  { success_count : Z; article_index : Z; pauses : list Z }.

(** The inner loop of [process_keywords] (lines 414-430). *)
Fixpoint process_titles (keyword : pystr) (titles : list pystr)
    (total_articles : Z) (st : progress) : res progress :=
  match titles with
  | [] => Ret st
  | title :: rest =>
      let article_index := article_index st + 1 in
      ok ← generate_and_save_article keyword title article_index
             total_articles;
      let success_count :=
        if ok : bool then success_count st + 1 else success_count st in
      pauses ←
        (if article_index <? total_articles then
           let delay := delay_between_posts cfg in
           _ ← sleep fs delay;
           Ret (pauses st ++ [delay])
         else Ret (pauses st));
      process_titles keyword rest total_articles
        {| success_count := success_count; article_index := article_index;
           pauses := pauses |}
  end.

(** The outer loop (lines 393-430). *)
Fixpoint process_each (keywords : list pystr) (total_articles : Z)
    (st : progress) : res progress :=
  match keywords with
  | [] => Ret st
  | keyword :: rest =>
      titles ← titles_of keyword (title_per_keyword cfg);
      match titles with
      | [] => process_each rest total_articles st
      | _ =>
          st ← process_titles keyword titles total_articles st;
          process_each rest total_articles st
      end
  end.

(** [process_keywords] (lines 379-432): the number of articles generated
    and saved, and the pauses made on the way. *)
Definition process_keywords (keywords : list pystr) : res progress :=
  let total_articles := len keywords * title_per_keyword cfg in
  process_each keywords total_articles
    {| success_count := 0; article_index := 0; pauses := [] |}.

End AutoPost.

End AutoPost.

Import AutoPost.

(** ** Vocabulary of the further statements *)

Module MoreVocabulary.

(** What a line of the answer [content] becomes in the cleaning loops of
    lines 221-225 and 337-341: the line without its longest leading run of
    bullet characters, when something is left. *)
Definition cleaned_from (content kw : pystr) : Prop :=
  ∃ line run,
    line ∈ title_lines (strip content)
    ∧ line = run ++ kw
    ∧ Forall (fun c => c ∈ bullet_chars) run
    ∧ ∃ c t, kw = c :: t ∧ c ∉ bullet_chars.

(** The characters [save_article] replaces: slash, backslash, colon,
    asterisk, question mark, double quote, the angle brackets and the
    bar. *)
Definition illegal_chars : pystr := [47; 92; 58; 42; 63; 34; 60; 62; 124].

(** What [save_article] makes of one character of a title. *)
Definition sanitized (c : Z) : Z :=
  if bool_decide (c ∈ illegal_chars) then 95 else c.

(** What an image search returns for a request of [count] images: a list
    of at most [count] URLs, not empty when [count >= 1]. *)
Definition bounded_images (count : Z) (result : res (list pystr)) : Prop :=
  ∃ images, result = Ret images ∧ len images ≤ count
            ∧ (1 ≤ count → images ≠ []).

(** Attempt [a] is the first one from attempt [from] on whose answer,
    cleaned, passes the forbidden-word check: it has none of the words, and
    the cleaned answers of the attempts before it each had one. *)
Definition first_clean (lower : pystr → pystr) (L : list pystr)
    (client : api_client) (re_search_group : pystr → pystr → option pystr)
    (re_sub : pystr → pystr → pystr → pystr) (title : pystr)
    (from a : nat) : Prop :=
  (∃ content,
     chat_article client title a = Ret content
     ∧ _check_forbidden_words lower L
         (_clean_html_structure re_search_group re_sub (strip content))
       = false
     ∧ free_of lower L
         (_clean_html_structure re_search_group re_sub (strip content)))
  ∧ ∀ a', (from ≤ a' < a)%nat →
      ∃ c, chat_article client title a' = Ret c
           ∧ _check_forbidden_words lower L
               (_clean_html_structure re_search_group re_sub (strip c))
             = true.

(** No attempt of [generate_article] yields an article: every attempt
    within [max_retries] (none, if [max_retries <= 0]) answers with text
    that, cleaned, has a forbidden word, or the request of one attempt fails
    after such attempts. *)
Definition no_article (lower : pystr → pystr) (L : list pystr)
    (client : api_client) (re_search_group : pystr → pystr → option pystr)
    (re_sub : pystr → pystr → pystr → pystr) (title : pystr)
    (max_retries : Z) : Prop :=
  let forbidden a :=
    ∃ c, chat_article client title a = Ret c
         ∧ _check_forbidden_words lower L
             (_clean_html_structure re_search_group re_sub (strip c))
           = true in
  (∀ a, (a < Z.to_nat max_retries)%nat → forbidden a)
  ∨ (∃ a e, (a < Z.to_nat max_retries)%nat
            ∧ chat_article client title a = Raise e
            ∧ ∀ a', (a' < a)%nat → forbidden a').

End MoreVocabulary.

Import MoreVocabulary.

(** ** Further concrete inputs *)

Module MoreFixtures.

(** The shop's REST site when the category search finds [News]. *)
Definition news_rest_site : rest_site :=
  {| users_me := users_me shop_rest_site;
     categories_page := categories_page shop_rest_site;
     categories_search :=
       fun _ => Ret {| status_code := 200;
                       json := Ret [ {| cat_id := 5;
                                        cat_name := lit "News" |} ] |};
     tags_create := tags_create shop_rest_site;
     tags_search := tags_search shop_rest_site;
     posts_create := posts_create shop_rest_site |}.

Definition news_world : world :=
  {| rest_at := fun _ => news_rest_site;
     xmlrpc_installed := true;
     xmlrpc_at := fun _ => shop_xmlrpc_site;
     draw := 0 |}.

(** [api_method: rest], publishing switched on. *)
Definition rest_config : gmap string value :=
  <["enabled" := VBool true]>
    (<["api_method" := VStr (lit "rest")]> credentials).

(** A client whose every request times out. *)
Definition silent_client : api_client :=
  {| chat_image_keywords := fun _ _ => Raise Timeout;
     chat_image_prompts := fun _ _ => Raise Timeout;
     images_generate := fun _ => Raise Timeout;
     chat_article := fun _ _ => Raise Timeout;
     chat_seo := fun _ _ => Raise Timeout |}.

(** A client that answers the keyword and prompt requests with three
    numbered lines, draws every image at the same address, and writes a
    fenced article on the second attempt after a forbidden first one. *)
Definition sketch_client : api_client :=
  {| chat_image_keywords :=
       fun _ _ => Ret (lit "1. green leaves" ++ [10] ++ lit "- potted plant"
                       ++ [10] ++ lit "3. window light");
     chat_image_prompts :=
       fun _ _ => Ret (lit "1. A sunny room with plants" ++ [10]
                       ++ lit "2. A close view of a leaf");
     images_generate := fun _ => Ret [lit "https://images.example/1.png"];
     chat_article :=
       fun _ attempt =>
         match attempt with
         | O => Ret (lit "<p>The secret of plants</p>")
         | _ => Ret (lit "```html" ++ [10] ++ lit "<p>Water them weekly.</p>"
                     ++ [10] ++ lit "```")
         end;
     chat_seo :=
       fun _ _ => Ret (lit " How to keep indoor plants alive. ") |}.

(** No provider key is set. *)
Definition no_provider : provider :=
  {| api_key := None; photo_search := fun _ _ => Raise ConnectionError |}.

Definition keyless : providers :=
  {| unsplash := no_provider; pexels := no_provider; pixabay := no_provider |}.

(** Unsplash has a key; it knows a photo of leaves, nothing about pots,
    and fails on windows. *)
Definition stock_unsplash : provider :=
  {| api_key := Some (lit "key");
     photo_search :=
       fun query _ =>
         if bool_decide (query = lit "green leaves") then
           Ret {| status_code := 200;
                  json := Ret [lit "https://images.example/leaves.jpg"] |}
         else if bool_decide (query = lit "potted plant") then
           Ret {| status_code := 200; json := Ret [] |}
         else Raise Timeout |}.

Definition stock : providers :=
  {| unsplash := stock_unsplash; pexels := no_provider;
     pixabay := no_provider |}.

(** [time.sleep] where the time type counts nanoseconds in 64 bits: a
    negative length is a [ValueError], more than 9223372036 seconds an
    [OverflowError]. *)
Definition sleep_64 (delay : Z) : res unit :=
  if delay <? 0 then Raise ValueError
  else if 9223372036 <? delay then Raise OverflowError
  else Ret ().

(** A disk on which every directory can be made and every file written. *)
Definition disk : filesystem :=
  {| mkdir := fun _ => Ret ();
     write_file := fun _ _ => Ret ();
     path_join := fun base name => base ++ lit "/" ++ name;
     today := lit "2025-01-31";
     now := lit "20250131_093000";
     sleep := sleep_64 |}.

(** A disk that is full: directories exist, no file can be written. *)
Definition full_disk : filesystem :=
  {| mkdir := fun _ => Ret ();
     write_file := fun _ _ => Raise OSError;
     path_join := fun base name => base ++ lit "/" ++ name;
     today := lit "2025-01-31";
     now := lit "20250131_093000";
     sleep := sleep_64 |}.

(** Two titles per keyword, five seconds between posts, no WordPress
    section. *)
Definition daily_config : config :=
  {| save_path := lit "articles";
     save_mode := lit "keyword";
     title_per_keyword := 2;
     delay_between_posts := 5;
     wordpress := ∅ |}.

(** The same with a pause of [10**20] seconds. *)
Definition endless_config : config :=
  {| save_path := lit "articles";
     save_mode := lit "keyword";
     title_per_keyword := 2;
     delay_between_posts := 10 ^ 20;
     wordpress := ∅ |}.

(** A generator that writes one paragraph per title. *)
Definition essay_of (title : pystr) : res pystr :=
  Ret (lit "<p>" ++ title ++ lit "</p>").

End MoreFixtures.

Import MoreFixtures.

(** ** Facts about the runtime fragment *)

Section PyFacts.

Lemma lstrip_decompose (chars s : pystr) :
  ∃ run, s = run ++ lstrip chars s ∧ Forall (fun c => c ∈ chars) run.
Proof.
  induction s as [|c s IH]; simpl.
  - exists []. split; [reflexivity | constructor].
  - unfold char_in. case_bool_decide as Hc.
    + destruct IH as (run & Heq & Hrun).
      exists (c :: run). split; [simpl; congruence | by constructor].
    + exists []. split; [reflexivity | constructor].
Qed.

Lemma lstrip_head (chars s : pystr) (c : Z) (t : pystr) :
  lstrip chars s = c :: t → c ∉ chars.
Proof.
  induction s as [|d s IH]; simpl; [discriminate|].
  unfold char_in. case_bool_decide as Hd; [exact IH|].
  intros [= -> _]. exact Hd.
Qed.

Lemma endswith_rstrip (chars s : pystr) (c : Z) :
  c ∈ chars → endswith (rstrip chars s) [c] = false.
Proof.
  intros Hc. unfold endswith, rstrip. rewrite reverse_involutive. simpl.
  destruct (lstrip chars (reverse s)) as [|d t] eqn:E; [reflexivity|].
  apply lstrip_head in E. simpl. case_decide; [congruence | reflexivity].
Qed.

Lemma rstrip_decompose (chars s : pystr) :
  ∃ run, s = rstrip chars s ++ run ∧ Forall (fun c => c ∈ chars) run.
Proof.
  destruct (lstrip_decompose chars (reverse s)) as (run & Heq & Hrun).
  exists (reverse run). split.
  - unfold rstrip. rewrite <- reverse_app, <- Heq. by rewrite reverse_involutive.
  - by apply Forall_reverse.
Qed.

Lemma elem_of_slash (c : Z) : c ∈ lit "/" ↔ c = 47.
Proof. change (lit "/") with [47]. apply list_elem_of_singleton. Qed.

Lemma startswith_prefix (s p : pystr) :
  startswith s p = true ↔ p `prefix_of` s.
Proof.
  revert s. induction p as [|c p IH]; intros s; simpl.
  - split; [intros _; apply prefix_nil | reflexivity].
  - destruct s as [|d s].
    + split; [discriminate | intros H; by apply prefix_nil_inv in H].
    + case_decide as Hcd.
      * subst d. rewrite IH. split; [apply prefix_cons | apply prefix_cons_inv_2].
      * split; [discriminate | intros H; by apply prefix_cons_inv_1 in H].
Qed.

Lemma endswith_suffix (s p : pystr) :
  endswith s p = true ↔ p `suffix_of` s.
Proof.
  unfold endswith. rewrite startswith_prefix. symmetry. apply suffix_prefix_reverse.
Qed.

End PyFacts.

(** ** URL handling of the two adapters *)

(** The slice on line 76 removes twelve characters although the suffix it
    has just tested for has eleven: the character before the suffix is
    lost. *)
Example rest_base_url_at_endpoint :
  rest_base_url blog_endpoint = lit "https://yourblog.co".
Proof. reflexivity. Qed.

(** C3, as stated, fails: the XML-RPC adapter keeps the endpoint suffix of
    the URL it is given. *)
Lemma C3_xmlrpc_keeps_suffix :
  ∃ p, WordPressXMLRPCPublisher dead_world (VStr blog_endpoint)
         (VStr (lit "admin")) (VStr (lit "secret"))
         (VStr uncategorized) (VStr (lit "draft")) = Ret p
       ∧ endswith (x_url p) (lit "/xmlrpc.php") = true.
Proof. eexists. split; reflexivity. Qed.

(** C3, amended: the REST adapter's [base_url] never ends with a slash, and
    for a URL that does not end with the endpoint suffix it is the URL, with
    [https://] put in front when it has no scheme, less its trailing slashes;
    the XML-RPC adapter only puts [https://] in front of a URL without a
    scheme and keeps the rest, endpoint suffix and trailing slashes
    included. *)
Theorem C3_url_normalization (url : pystr) :
  endswith (rest_base_url url) (lit "/") = false
  ∧ (endswith url (lit "/xmlrpc.php") = false →
     ∃ slashes,
       (if has_scheme url then url else lit "https://" ++ url)
       = rest_base_url url ++ slashes
       ∧ Forall (fun c => c = 47) slashes)
  ∧ (∀ w username password category status p,
       WordPressXMLRPCPublisher w (VStr url) username password category status
       = Ret p →
       has_scheme (x_url p) = true
       ∧ url `suffix_of` x_url p
       ∧ (has_scheme url = true → x_url p = url)
       ∧ x_url p = (if has_scheme url then url else lit "https://" ++ url)).
Proof.
  split; [|split].
  - unfold rest_base_url. apply endswith_rstrip. by apply elem_of_slash.
  - intros Hsuf. unfold rest_base_url. rewrite Hsuf.
    destruct (has_scheme url); simpl.
    + destruct (rstrip_decompose (lit "/") url) as (run & Heq & Hrun).
      exists run. split; [exact Heq|].
      eapply Forall_impl; [exact Hrun|]. intros c. apply elem_of_slash.
    + destruct (rstrip_decompose (lit "/") (lit "https://" ++ url))
        as (run & Heq & Hrun).
      exists run. split; [exact Heq|].
      eapply Forall_impl; [exact Hrun|]. intros c. apply elem_of_slash.
  - intros w username password category status p.
    unfold WordPressXMLRPCPublisher.
    destruct (xmlrpc_installed w); simpl; [|discriminate].
    destruct (new_client _) as [[]|e]; simpl; [|discriminate].
    intros [= <-]. simpl.
    destruct (has_scheme url) eqn:Hs; simpl.
    + split; [exact Hs|]. split; [reflexivity|]. split; reflexivity.
    + split; [reflexivity|]. split; [by exists (lit "https://")|].
      split; [discriminate | reflexivity].
Qed.

Lemma C3_url_normalization_witness :
  endswith (lit "blog.example/") (lit "/xmlrpc.php") = false
  ∧ (∃ slashes,
       lit "https://blog.example/" = lit "https://blog.example" ++ slashes
       ∧ Forall (fun c => c = 47) slashes)
  ∧ ∃ p, WordPressXMLRPCPublisher dead_world (VStr (lit "blog.example/"))
           (VStr (lit "admin")) (VStr (lit "secret"))
           (VStr uncategorized) (VStr (lit "draft")) = Ret p
         ∧ x_url p = lit "https://blog.example/".
Proof.
  split; [reflexivity|]. split.
  - exact (proj1 (proj2 (C3_url_normalization (lit "blog.example/")))
             eq_refl).
  - eexists. split; [reflexivity|].
    exact (proj2 (proj2 (proj2
             (proj2 (proj2 (C3_url_normalization (lit "blog.example/")))
                dead_world _ _ _ _ _ eq_refl)))).
Defined.

(** ** Exceptions *)

Section Exceptions.
Context {A : Type}.

Lemma try_except_any (body : res A) (a : A) :
  ∃ r, try_except body any_Exception (fun _ => Ret a) = Ret r.
Proof. destruct body as [r|e]; simpl; eauto. Qed.

End Exceptions.

(** ** [test_connection] *)

Lemma xmlrpc_test_connection_total (w : world) (q : xmlrpc_publisher) :
  ∃ b, xmlrpc_test_connection w q = Ret b.
Proof. apply try_except_any. Qed.

(** C7: on either adapter [test_connection] answers [False] when the
    underlying call raises a transport exception or, for REST, returns a
    status other than 200; the XML-RPC one always returns a boolean. *)
Theorem C7_test_connection_false (w : world) :
  (∀ p e, users_me (rest_at w (api_url p)) = Raise e →
          is_RequestException e = true →
          rest_test_connection w p = Ret false)
  ∧ (∀ p response, users_me (rest_at w (api_url p)) = Ret response →
                   status_code response ≠ 200 →
                   rest_test_connection w p = Ret false)
  ∧ (∀ q e, get_terms_category (xmlrpc_at w (x_url q)) = Raise e →
            xmlrpc_test_connection w q = Ret false)
  ∧ (∀ q, ∃ b, xmlrpc_test_connection w q = Ret b).
Proof.
  repeat split.
  - intros p e Hcall He. unfold rest_test_connection.
    rewrite Hcall. simpl. by rewrite He.
  - intros p response Hcall Hstatus. unfold rest_test_connection.
    rewrite Hcall. simpl.
    destruct (Z.eqb_spec (status_code response) 200) as [|_]; [done|].
    by destruct (status_code response =? 401).
  - intros q e Hcall. unfold xmlrpc_test_connection. by rewrite Hcall.
  - intros q. apply xmlrpc_test_connection_total.
Qed.

Lemma C7_test_connection_false_witness :
  rest_test_connection dead_world blog_rest = Ret false
  ∧ rest_test_connection xmlrpc_world blog_rest = Ret false
  ∧ xmlrpc_test_connection dead_world blog_xmlrpc = Ret false.
Proof.
  pose (p := blog_rest). pose (q := blog_xmlrpc).
  destruct (C7_test_connection_false dead_world) as (Hraise & _ & Hrpc & _).
  destruct (C7_test_connection_false xmlrpc_world) as (_ & Hstatus & _).
  split; [|split].
  - apply (Hraise p ConnectionError); reflexivity.
  - apply (Hstatus p {| status_code := 401; json := Raise InvalidJSONError |});
      [reflexivity | simpl; lia].
  - apply (Hrpc q ProtocolError). reflexivity.
Defined.

(** ** [create_publisher] *)

Lemma create_publisher_total (w : world) (config : gmap string value) :
  ∃ r, create_publisher w config = Ret r.
Proof. apply try_except_any. Qed.

Lemma auto_try_rest_total w url username password category status :
  ∃ r, auto_try_rest w url username password category status = Ret r.
Proof. apply try_except_any. Qed.

Lemma auto_try_rest_ok w url username password category status p :
  WordPressRESTPublisher url username password category status = Ret p →
  rest_test_connection w p = Ret true →
  auto_try_rest w url username password category status = Ret (Some (REST p)).
Proof. intros Hctor Htest. unfold auto_try_rest. by rewrite Hctor; simpl; rewrite Htest. Qed.

Lemma auto_try_rest_fails w url username password category status :
  rest_attempt_fails w url username password category status →
  auto_try_rest w url username password category status = Ret None.
Proof.
  unfold rest_attempt_fails, auto_try_rest.
  destruct (WordPressRESTPublisher _ _ _ _ _) as [p|e]; simpl; [|done].
  destruct (rest_test_connection w p) as [[]|e]; simpl; done.
Qed.

Lemma auto_try_xmlrpc_ok w url username password category status q :
  WordPressXMLRPCPublisher w url username password category status = Ret q →
  xmlrpc_test_connection w q = Ret true →
  auto_try_xmlrpc w url username password category status
  = Ret (Some (XMLRPC q)).
Proof. intros Hctor Htest. unfold auto_try_xmlrpc. by rewrite Hctor; simpl; rewrite Htest. Qed.

Lemma auto_try_xmlrpc_fails w url username password category status :
  xmlrpc_attempt_fails w url username password category status →
  auto_try_xmlrpc w url username password category status = Ret None.
Proof.
  unfold xmlrpc_attempt_fails, auto_try_xmlrpc.
  destruct (WordPressXMLRPCPublisher _ _ _ _ _ _) as [q|e]; simpl; [|done].
  destruct (xmlrpc_test_connection w q) as [[]|e]; simpl; done.
Qed.

(** In [auto] mode, once the configuration is enabled and complete, the
    factory is the REST attempt followed, when that yields nothing, by the
    XML-RPC attempt. *)
Lemma create_publisher_auto w config url username password :
  truthy (dict_get config "enabled" (VBool false)) = true →
  eq_str (dict_get config "api_method" (VStr (lit "auto"))) (lit "auto")
  = true →
  config !! "url" = Some url →
  config !! "username" = Some username →
  config !! "password" = Some password →
  let category := dict_get config "category" (VStr uncategorized) in
  let status := dict_get config "status" (VStr (lit "draft")) in
  create_publisher w config
  = match auto_try_rest w url username password category status with
    | Ret (Some p) => Ret (Some p)
    | _ => match auto_try_xmlrpc w url username password category status with
           | Ret r => Ret r
           | Raise _ => Ret None
           end
    end.
Proof.
  intros Hen Hauto Hurl Huser Hpass category status.
  unfold create_publisher, dict_index.
  rewrite Hen, Hurl, Huser, Hpass. simpl. rewrite Hauto.
  fold category status.
  destruct (auto_try_rest_total w url username password category status)
    as [first Hfirst].
  rewrite Hfirst. simpl. destruct first as [p|]; [reflexivity|].
  by destruct (auto_try_xmlrpc w url username password category status).
Qed.

(** C1, as stated, fails: a configuration with [api_method: auto] that is
    not enabled gets no adapter, although the REST adapter for its URL would
    pass [test_connection]. *)
Lemma C1_disabled_config_gets_nothing :
  dict_get disabled_config "api_method" (VStr (lit "auto")) = VStr (lit "auto")
  ∧ (∃ p, WordPressRESTPublisher (VStr (lit "https://yourblog.com"))
            (VStr (lit "admin")) (VStr (lit "secret"))
            (VStr uncategorized) (VStr (lit "draft")) = Ret p
          ∧ rest_test_connection rest_world p = Ret true)
  ∧ create_publisher rest_world disabled_config = Ret None.
Proof.
  split; [reflexivity|]. split; [|reflexivity].
  eexists. split; reflexivity.
Qed.

(** C1, amended: for every enabled configuration that supplies [url],
    [username] and [password] and has [api_method] [auto] (or none),
    [create_publisher] returns the REST adapter when it is constructed and
    its [test_connection] returns true; when the REST attempt fails (its
    constructor raises, or [test_connection] returns false or raises) it
    returns the XML-RPC adapter when that one is constructed and its
    [test_connection] returns true; when both attempts fail it returns
    [None].  For every configuration whatsoever it returns and raises
    nothing. *)
Theorem C1_auto_failover (w : world) (config : gmap string value)
    (url username password : value) :
  truthy (dict_get config "enabled" (VBool false)) = true →
  eq_str (dict_get config "api_method" (VStr (lit "auto"))) (lit "auto")
  = true →
  config !! "url" = Some url →
  config !! "username" = Some username →
  config !! "password" = Some password →
  let category := dict_get config "category" (VStr uncategorized) in
  let status := dict_get config "status" (VStr (lit "draft")) in
  (∀ p, WordPressRESTPublisher url username password category status = Ret p →
        rest_test_connection w p = Ret true →
        create_publisher w config = Ret (Some (REST p)))
  ∧ (rest_attempt_fails w url username password category status →
     ∀ q, WordPressXMLRPCPublisher w url username password category status
          = Ret q →
          xmlrpc_test_connection w q = Ret true →
          create_publisher w config = Ret (Some (XMLRPC q)))
  ∧ (rest_attempt_fails w url username password category status →
     xmlrpc_attempt_fails w url username password category status →
     create_publisher w config = Ret None)
  ∧ (∀ w' config', ∃ r, create_publisher w' config' = Ret r).
Proof.
  intros Hen Hauto Hurl Huser Hpass category status.
  pose proof (create_publisher_auto w config url username password
                Hen Hauto Hurl Huser Hpass) as Hcp.
  cbv zeta in Hcp. fold category status in Hcp.
  repeat split.
  - intros p Hctor Htest.
    by rewrite Hcp, (auto_try_rest_ok _ _ _ _ _ _ _ Hctor Htest).
  - intros Hrest q Hctor Htest.
    by rewrite Hcp, (auto_try_rest_fails _ _ _ _ _ _ Hrest),
      (auto_try_xmlrpc_ok _ _ _ _ _ _ _ Hctor Htest).
  - intros Hrest Hrpc.
    by rewrite Hcp, (auto_try_rest_fails _ _ _ _ _ _ Hrest),
      (auto_try_xmlrpc_fails _ _ _ _ _ _ Hrpc).
  - intros w' config'. apply create_publisher_total.
Qed.

Lemma C1_auto_failover_witness :
  create_publisher xmlrpc_world enabled_config = Ret (Some (XMLRPC blog_xmlrpc))
  ∧ create_publisher dead_world enabled_config = Ret None.
Proof.
  pose (url := VStr (lit "https://yourblog.com")).
  pose (username := VStr (lit "admin")).
  pose (password := VStr (lit "secret")).
  destruct (C1_auto_failover xmlrpc_world enabled_config url username password
              eq_refl eq_refl eq_refl eq_refl eq_refl) as (_ & Hrpc & _).
  destruct (C1_auto_failover dead_world enabled_config url username password
              eq_refl eq_refl eq_refl eq_refl eq_refl) as (_ & _ & Hnone & _).
  split.
  - apply Hrpc; [vm_compute; discriminate | reflexivity | reflexivity].
  - apply Hnone; vm_compute; discriminate.
Defined.

(** ** Image acquisition in [mixed] mode *)

(** C9, as stated, fails: of three images one is searched for and two are
    generated, so the odd one goes to generation. *)
Lemma C9_three_images :
  image_requests true 3 (lit "mixed") = [SearchImages 1; GenerateImages 2]
  ∧ fst (mixed_counts 3) ≠ (3 + 1) / 2.
Proof. split; [reflexivity | vm_compute; discriminate]. Qed.

(** C9, amended: in [mixed] mode the count [k] is split into a search share
    and a generation share whose sum is [k]; the search share is
    [floor(k/2)] and the generation share [ceil(k/2)], so an odd remainder
    goes to generation.  A share of zero is not requested. *)
Theorem C9_mixed_split (k : Z) :
  let '(search_count, generate_count) := mixed_counts k in
  search_count + generate_count = k
  ∧ search_count = k / 2
  ∧ generate_count = (k + 1) / 2
  ∧ generate_count = search_count + k mod 2
  ∧ (0 < k →
     image_requests true k (lit "mixed")
     = (if k =? 1 then [] else [SearchImages search_count])
       ++ [GenerateImages generate_count]).
Proof.
  unfold image_requests, mixed_counts. cbv zeta.
  assert (Hceil : k - k / 2 = (k + 1) / 2).
  { pose proof (Z.div_mod k 2 ltac:(lia)) as Hk.
    pose proof (Z.mod_pos_bound k 2 ltac:(lia)) as Hm.
    assert (Hcase : k mod 2 = 0 ∨ k mod 2 = 1) by lia.
    destruct Hcase as [H0|H1].
    - replace (k + 1) with (1 + (k / 2) * 2) by lia.
      rewrite Z.div_add by lia. change (1 / 2) with 0. lia.
    - replace (k + 1) with (0 + (k / 2 + 1) * 2) by lia.
      rewrite Z.div_add by lia. change (0 / 2) with 0. lia. }
  split; [lia|]. split; [reflexivity|]. split; [exact Hceil|].
  split; [pose proof (Z.div_mod k 2 ltac:(lia)); lia|].
  intros Hk. simpl.
  destruct (Z.gtb_spec k 0) as [_|]; [|lia].
  assert (Hhalf : 0 ≤ k / 2) by (apply Z.div_pos; lia).
  destruct (Z.gtb_spec (k - k / 2) 0) as [_|Hg].
  2: { rewrite Hceil in Hg.
       assert (1 ≤ (k + 1) / 2) by (apply Z.div_le_lower_bound; lia). lia. }
  destruct (Z.eqb_spec k 1) as [->|Hk1]; [reflexivity|].
  destruct (Z.gtb_spec (k / 2) 0) as [_|Hs]; [reflexivity|].
  assert (1 ≤ k / 2) by (apply Z.div_le_lower_bound; lia). lia.
Qed.

Lemma C9_mixed_split_witness :
  image_requests true 5 (lit "mixed") = [SearchImages 2; GenerateImages 3].
Proof.
  exact (proj2 (proj2 (proj2 (proj2 (C9_mixed_split 5)))) eq_refl).
Defined.

(** ** [generate_titles] *)

Section Titles.
Variable lower : pystr → pystr.
Variable L : list pystr.
Variable llm : pystr → Z → nat → res pystr.
Variable keyword : pystr.
Variable n : Z.

Lemma check_forbidden_words_false (t : pystr) :
  _check_forbidden_words lower L t = false → free_of lower L t.
Proof.
  unfold _check_forbidden_words, free_of. destruct L as [|w ws] eqn:E.
  - constructor.
  - rewrite <- E. clear E. intros Hex. apply Forall_forall.
    intros word Hword. apply list_elem_of_In in Hword.
    destruct (contains (lower t) (lower word)) eqn:Hc; [|reflexivity].
    assert (existsb (fun word => contains (lower t) (lower word)) L = true)
      as Habs by (apply existsb_exists; eauto).
    congruence.
Qed.

Lemma clean_titles_Forall (P : pystr → Prop) (titles acc : list pystr) :
  Forall P acc →
  (∀ line t, line ∈ titles → passes lower L line t → P t) →
  Forall P (clean_titles lower L titles acc).
Proof.
  revert acc. induction titles as [|line titles IH]; intros acc Hacc HP; simpl.
  - exact Hacc.
  - assert (HP' : ∀ line' t, line' ∈ titles → passes lower L line' t → P t).
    { intros line' t Hin. apply HP. by right. }
    destruct (lstrip numbering_chars line) as [|c t] eqn:Hstrip.
    + by apply IH.
    + destruct (_check_forbidden_words lower L (c :: t)) eqn:Hcheck; simpl.
      * by apply IH.
      * apply IH; [|exact HP']. apply Forall_app. split; [exact Hacc|].
        constructor; [|constructor].
        apply (HP line); [by left|]. unfold passes.
        by rewrite Hstrip.
Qed.

Lemma slice_to_Forall {A} (P : A → Prop) (l : list A) (k : Z) :
  Forall P l → Forall P (slice_to l k).
Proof. intros H. unfold slice_to. by apply Forall_take. Qed.

Lemma slice_to_length {A} (l : list A) (k : Z) :
  0 ≤ k → k ≤ len l → len (slice_to l k) = k.
Proof.
  intros H0 Hk. unfold slice_to, len in *.
  destruct (Z.ltb_spec k 0) as [|_]; [lia|].
  rewrite length_take. lia.
Qed.

Lemma retry_titles_Forall (P : pystr → Prop) :
  (∀ a content line t,
     llm keyword n a = Ret content →
     line ∈ title_lines (strip content) → passes lower L line t → P t) →
  ∀ remaining attempt cleaned titles,
    (∀ c, cleaned = Some c → Forall P c) →
    retry_titles lower L llm keyword n attempt remaining cleaned = Ret titles →
    Forall P titles.
Proof.
  intros HP. induction remaining as [|remaining IH];
    intros attempt cleaned titles Hcleaned; simpl.
  - destruct cleaned as [c|]; [|discriminate].
    intros [= <-]. by apply Hcleaned.
  - destruct (llm keyword n attempt) as [content|e] eqn:Hllm; simpl;
      [|discriminate].
    assert (Hc : Forall P
                   (clean_titles lower L (title_lines (strip content)) [])).
    { apply clean_titles_Forall; [constructor|].
      intros line t Hin Hpass. by apply (HP attempt content line t). }
    destruct (_ >=? n).
    + intros [= <-]. by apply slice_to_Forall.
    + apply IH. by intros c [= <-].
Qed.

Lemma retry_titles_length :
  0 ≤ n →
  ∀ remaining attempt cleaned titles,
    (∀ c, cleaned = Some c → len c ≤ n) →
    retry_titles lower L llm keyword n attempt remaining cleaned = Ret titles →
    len titles ≤ n.
Proof.
  intros Hn. induction remaining as [|remaining IH];
    intros attempt cleaned titles Hcleaned; simpl.
  - destruct cleaned as [c|]; [|discriminate].
    intros [= <-]. by apply Hcleaned.
  - destruct (llm keyword n attempt) as [content|e]; simpl; [|discriminate].
    destruct (Z.geb_spec
                (len (clean_titles lower L (title_lines (strip content)) []))
                n) as [Hge|Hlt].
    + intros [= <-]. rewrite slice_to_length; lia.
    + apply IH. intros c [= <-]. lia.
Qed.

Lemma retry_titles_S (attempt remaining : nat) (cleaned : option (list pystr)) :
  retry_titles lower L llm keyword n attempt (S remaining) cleaned
  = (content ← llm keyword n attempt;
     let c := clean_titles lower L (title_lines (strip content)) [] in
     if len c >=? n then Ret (slice_to c n)
     else retry_titles lower L llm keyword n (S attempt) remaining (Some c)).
Proof. reflexivity. Qed.

Lemma retry_titles_exhausted :
  ∀ remaining attempt cleaned,
    (∀ a, (attempt ≤ a < attempt + S remaining)%nat →
          ∃ c, attempt_titles lower L llm keyword n a = Ret c ∧ len c < n) →
    retry_titles lower L llm keyword n attempt (S remaining) cleaned
    = attempt_titles lower L llm keyword n (attempt + remaining).
Proof.
  induction remaining as [|remaining IH]; intros attempt cleaned Hall.
  - destruct (Hall attempt ltac:(lia)) as (c & Hc & Hlt).
    rewrite Nat.add_0_r. revert Hc. unfold attempt_titles. simpl.
    destruct (llm keyword n attempt) as [content|e]; simpl; [|discriminate].
    intros [= <-].
    destruct (Z.geb_spec
                (len (clean_titles lower L (title_lines (strip content)) []))
                n); [lia | reflexivity].
  - destruct (Hall attempt ltac:(lia)) as (c & Hc & Hlt).
    rewrite retry_titles_S. revert Hc. unfold attempt_titles at 1.
    destruct (llm keyword n attempt) as [content|e];
      cbn [mbind res_bind bind mret res_ret]; [|discriminate].
    intros [= <-].
    destruct (Z.geb_spec
                (len (clean_titles lower L (title_lines (strip content)) []))
                n); [lia|].
    rewrite IH.
    + f_equal. lia.
    + intros a Ha. apply Hall. lia.
Qed.

End Titles.

Lemma generate_titles_total lower L llm keyword n max_retries :
  ∃ titles, generate_titles lower L llm keyword n max_retries = Ret titles.
Proof. apply try_except_any. Qed.

(** The titles [generate_titles] returns all come out of the cleaning loop
    of some attempt. *)
Lemma generate_titles_Forall lower L llm keyword n max_retries titles
    (P : pystr → Prop) :
  (∀ a content line t,
     llm keyword n a = Ret content →
     line ∈ title_lines (strip content) → passes lower L line t → P t) →
  generate_titles lower L llm keyword n max_retries = Ret titles →
  Forall P titles.
Proof.
  intros HP. unfold generate_titles.
  destruct (retry_titles _ _ _ _ _ _ _ _) as [r|e] eqn:Hloop; simpl.
  - intros [= <-].
    eapply retry_titles_Forall; [exact HP| |exact Hloop]. discriminate.
  - intros [= <-]. constructor.
Qed.



(** C6, as stated, fails: the clean title of the first attempt is gone when
    the later attempts yield none. *)
Lemma C6_first_attempt_title_lost :
  attempt_titles ascii_lower [lit "secret"] stubborn_llm
    (lit "indoor plants") 2 0
  = Ret [lit "indoor plants for small rooms"]
  ∧ generate_titles ascii_lower [lit "secret"] stubborn_llm
      (lit "indoor plants") 2 3
    = Ret [].
Proof. split; reflexivity. Qed.

(** C6, amended: when every one of the [max_retries >= 1] attempts yields
    fewer than [n] clean titles, [generate_titles] returns the clean titles
    of the last attempt alone (fewer than [n], possibly none); those of the
    earlier attempts are dropped. *)
Theorem C6_exhaustion_returns_last_attempt (lower : pystr → pystr)
    (L : list pystr) (llm : pystr → Z → nat → res pystr) (keyword : pystr)
    (n max_retries : Z) :
  1 ≤ max_retries →
  (∀ a, (a < Z.to_nat max_retries)%nat →
        ∃ c, attempt_titles lower L llm keyword n a = Ret c ∧ len c < n) →
  ∃ c, attempt_titles lower L llm keyword n (Z.to_nat max_retries - 1) = Ret c
       ∧ len c < n
       ∧ generate_titles lower L llm keyword n max_retries = Ret c.
Proof.
  intros Hmax Hall.
  destruct (Z.to_nat max_retries) as [|m] eqn:Hm; [lia|].
  destruct (Hall m ltac:(lia)) as (c & Hc & Hlt).
  exists c. replace (S m - 1)%nat with m by lia.
  split; [exact Hc|]. split; [exact Hlt|].
  unfold generate_titles. rewrite Hm.
  rewrite retry_titles_exhausted.
  - simpl. by rewrite Hc.
  - intros a Ha. apply Hall. lia.
Qed.

Lemma C6_exhaustion_returns_last_attempt_witness :
  ∃ c, attempt_titles ascii_lower [lit "secret"] stubborn_llm
         (lit "indoor plants") 2 (Z.to_nat 3 - 1) = Ret c
       ∧ len c < 2
       ∧ generate_titles ascii_lower [lit "secret"] stubborn_llm
           (lit "indoor plants") 2 3 = Ret c.
Proof.
  apply C6_exhaustion_returns_last_attempt; [lia|].
  intros [|[|[|a]]] Ha; [| | |vm_compute in Ha; lia].
  - exists [lit "indoor plants for small rooms"]. split; [reflexivity | done].
  - exists []. split; [reflexivity | done].
  - exists []. split; [reflexivity | done].
Defined.

(** C10: every returned title is a line of some answer of the LLM without
    its longest leading run of digits, full stops, U+3001 and spaces; it is
    not empty and its first character is none of those.  Digits that open
    the intended text go with the numbering. *)
Theorem C10_leading_run_removed (lower : pystr → pystr) (L : list pystr)
    (llm : pystr → Z → nat → res pystr) (keyword : pystr)
    (n max_retries : Z) (titles : list pystr) :
  generate_titles lower L llm keyword n max_retries = Ret titles →
  Forall
    (fun t =>
       ∃ a content line run,
         llm keyword n a = Ret content
         ∧ line ∈ title_lines (strip content)
         ∧ line = run ++ t
         ∧ Forall (fun c => c ∈ numbering_chars) run
         ∧ ∃ c t', t = c :: t' ∧ c ∉ numbering_chars)
    titles.
Proof.
  apply generate_titles_Forall.
  intros a content line t Hllm Hline (Hstrip & Hne & _).
  exists a, content, line.
  destruct (lstrip_decompose numbering_chars line) as (run & Hrun & Hall).
  exists run. rewrite <- Hstrip in Hrun.
  repeat (split; [assumption|]).
  destruct t as [|c t']; [done|]. exists c, t'. split; [reflexivity|].
  symmetry in Hstrip. by apply lstrip_head in Hstrip.
Qed.

Lemma C10_leading_run_removed_witness :
  generate_titles ascii_lower [] steady_llm (lit "indoor plants") 2 3
  = Ret [lit "Watering indoor plants"; lit "indoor plants for small rooms"]
  ∧ Forall
      (fun t =>
         ∃ a content line run,
           steady_llm (lit "indoor plants") 2 a = Ret content
           ∧ line ∈ title_lines (strip content)
           ∧ line = run ++ t
           ∧ Forall (fun c => c ∈ numbering_chars) run
           ∧ ∃ c t', t = c :: t' ∧ c ∉ numbering_chars)
      [lit "Watering indoor plants"; lit "indoor plants for small rooms"].
Proof.
  split; [reflexivity|].
  apply (C10_leading_run_removed ascii_lower [] steady_llm
           (lit "indoor plants") 2 3).
  reflexivity.
Defined.

(** ** [_search_picsum] *)

Section Picsum.
Variable rnd : nat → nat.

Lemma randint_range (a b : Z) (r : nat) : a ≤ b → a ≤ randint a b r ≤ b.
Proof.
  intros Hab. unfold randint.
  pose proof (Z.mod_pos_bound (Z.of_nat r) (b - a + 1) ltac:(lia)). lia.
Qed.

Lemma lit_inj (s t : string) : lit s = lit t → s = t.
Proof.
  assert (Hinv : ∀ u, string_of_list_ascii
                        (List.map (fun z => ascii_of_nat (Z.to_nat z)) (lit u))
                      = u).
  { intros u. unfold lit. rewrite List.map_map.
    rewrite (List.map_ext _ (fun a => a)), List.map_id.
    - apply string_of_list_ascii_of_string.
    - intros a. rewrite Nat2Z.id. apply ascii_nat_embedding. }
  intros H. rewrite <- (Hinv s), <- (Hinv t). by rewrite H.
Qed.

Lemma str_of_int_inj (i j : Z) : str_of_int i = str_of_int j → i = j.
Proof.
  unfold str_of_int. intros H. apply lit_inj in H.
  assert (Hnil : ∀ z, Z.to_int z ≠ Decimal.Pos Decimal.Nil
                      ∧ Z.to_int z ≠ Decimal.Neg Decimal.Nil).
  { intros z. split; intros Hz; pose proof (f_equal Z.of_int Hz) as Hz';
      rewrite DecimalZ.of_to in Hz'; subst z; discriminate Hz. }
  apply (f_equal NilZero.int_of_string) in H.
  rewrite !NilZero.isi in H by apply Hnil.
  injection H as H. apply (f_equal Z.of_int) in H.
  by rewrite !DecimalZ.of_to in H.
Qed.

Lemma picsum_url_inj (i j : Z) : picsum_url i = picsum_url j → i = j.
Proof.
  unfold picsum_url. intros H. apply app_inv_head in H.
  apply app_inv_tail in H. by apply str_of_int_inj.
Qed.

Lemma placeholder_ids_bounded (ids : list Z) :
  NoDup ids → Forall placeholder_id ids → (length ids ≤ 1000)%nat.
Proof.
  intros Hnd Hall.
  change 1000%nat with (Z.to_nat 1000). rewrite <- (length_seqZ 1 1000).
  apply submseteq_length, NoDup_submseteq; [exact Hnd|].
  intros x Hx. rewrite Forall_forall in Hall. apply Hall in Hx.
  unfold placeholder_id in Hx. apply elem_of_seqZ. lia.
Qed.

Lemma unused_id_exists (ids : list Z) :
  NoDup ids → Forall placeholder_id ids → (length ids < 1000)%nat →
  ∃ img_id, placeholder_id img_id ∧ img_id ∉ ids.
Proof.
  intros Hnd Hall Hlen.
  destruct (decide (Forall (fun x => x ∈ ids) (seqZ 1 1000))) as [Hfull|Hnot].
  - exfalso.
    assert (length (seqZ 1 1000) ≤ length ids)%nat as Hle.
    { apply submseteq_length, NoDup_submseteq; [apply NoDup_seqZ|].
      by apply Forall_forall. }
    rewrite length_seqZ in Hle. lia.
  - apply not_Forall_Exists in Hnot; [|apply _].
    apply Exists_exists in Hnot. destruct Hnot as (x & Hx & Hfresh).
    exists x. split; [|exact Hfresh].
    apply elem_of_seqZ in Hx. unfold placeholder_id. lia.
Qed.

Lemma draw_unused_spec (used_ids : gset Z) (fuel pos pos' : nat) (img_id : Z) :
  draw_unused rnd used_ids pos fuel = Some (img_id, pos') →
  placeholder_id img_id ∧ img_id ∉ used_ids.
Proof.
  revert pos. induction fuel as [|fuel IH]; intros pos; simpl; [discriminate|].
  case_decide as Hin; [apply IH|].
  intros [= <- _]. split; [|exact Hin]. by apply randint_range.
Qed.

Lemma draw_unused_mono (used_ids : gset Z) (fuel fuel' pos : nat) r :
  draw_unused rnd used_ids pos fuel = Some r → (fuel ≤ fuel')%nat →
  draw_unused rnd used_ids pos fuel' = Some r.
Proof.
  revert fuel' pos. induction fuel as [|fuel IH]; intros fuel' pos; simpl;
    [discriminate|].
  intros Hrun Hle. destruct fuel' as [|fuel']; [lia|]. simpl.
  case_decide; [|exact Hrun]. apply IH; [exact Hrun | lia].
Qed.

Lemma draw_unused_reaches (used_ids : gset Z) (d pos : nat) :
  randint 1 1000 (rnd (pos + d)) ∉ used_ids →
  ∃ r, draw_unused rnd used_ids pos (S d) = Some r.
Proof.
  revert pos. induction d as [|d IH]; intros pos Hfresh.
  - rewrite Nat.add_0_r in Hfresh. simpl. rewrite decide_False by done. eauto.
  - change (draw_unused rnd used_ids pos (S (S d)))
      with (let img_id := randint 1 1000 (rnd pos) in
            if decide (img_id ∈ used_ids)
            then draw_unused rnd used_ids (S pos) (S d)
            else Some (img_id, S pos)).
    cbv zeta. case_decide; [|eauto].
    apply IH. by replace (S pos + d)%nat with (pos + S d)%nat by lia.
Qed.

Lemma picsum_loop_mono (fuel fuel' : nat) :
  (fuel ≤ fuel')%nat →
  ∀ count used_ids images pos result,
    picsum_loop rnd count used_ids images pos fuel = Some result →
    picsum_loop rnd count used_ids images pos fuel' = Some result.
Proof.
  intros Hle. induction count as [|count IH];
    intros used_ids images pos result; simpl; [done|].
  destruct (draw_unused rnd used_ids pos fuel) as [[img_id pos']|] eqn:Hdraw;
    [|discriminate].
  rewrite (draw_unused_mono _ _ _ _ _ Hdraw Hle). apply IH.
Qed.

(** The loop keeps [used_ids] equal to the identifiers of the images made
    so far, all of them distinct placeholders. *)
Lemma picsum_loop_spec (fuel : nat) :
  ∀ count ids pos result,
    NoDup ids → Forall placeholder_id ids →
    picsum_loop rnd count (list_to_set ids) (picsum_url <$> reverse ids)
      pos fuel = Some result →
    ∃ ids', result = picsum_url <$> reverse ids'
            ∧ length ids' = (length ids + count)%nat
            ∧ NoDup ids' ∧ Forall placeholder_id ids'.
Proof.
  induction count as [|count IH]; intros ids pos result Hnd Hall; simpl.
  - intros [= <-]. exists ids. by rewrite Nat.add_0_r.
  - destruct (draw_unused rnd (list_to_set ids) pos fuel)
      as [[img_id pos']|] eqn:Hdraw; [|discriminate].
    apply draw_unused_spec in Hdraw. destruct Hdraw as [Hid Hfresh].
    rewrite elem_of_list_to_set in Hfresh.
    intros Hrun.
    destruct (IH (img_id :: ids) pos' result) as (ids' & -> & Hlen & Hnd' & Hall').
    + by constructor.
    + by constructor.
    + by rewrite reverse_cons, fmap_app.
    + exists ids'. repeat split; try done. simpl in Hlen. lia.
Qed.

Lemma picsum_loop_terminates :
  fair rnd →
  ∀ count ids images pos,
    NoDup ids → Forall placeholder_id ids →
    (length ids + count ≤ 1000)%nat →
    ∃ fuel result,
      picsum_loop rnd count (list_to_set ids) images pos fuel = Some result.
Proof.
  intros Hfair. induction count as [|count IH];
    intros ids images pos Hnd Hall Hlen.
  - exists 0%nat, images. reflexivity.
  - destruct (unused_id_exists ids Hnd Hall ltac:(lia)) as (x & Hx & Hfresh).
    destruct (Hfair pos x Hx) as (m & Hm & Hdrawn).
    destruct (draw_unused_reaches (list_to_set ids) (m - pos) pos)
      as [[img_id pos'] Hdraw].
    { replace (pos + (m - pos))%nat with m by lia.
      rewrite Hdrawn. by rewrite elem_of_list_to_set. }
    pose proof (draw_unused_spec _ _ _ _ _ Hdraw) as [Hid Hnew].
    rewrite elem_of_list_to_set in Hnew.
    destruct (IH (img_id :: ids) (images ++ [picsum_url img_id]) pos')
      as (fuel & result & Hrun).
    + by constructor.
    + by constructor.
    + simpl. lia.
    + exists (Nat.max (S (m - pos)) fuel), result.
      remember (Nat.max (S (m - pos)) fuel) as budget eqn:Hbudget.
      assert (S (m - pos) ≤ budget ∧ fuel ≤ budget)%nat as [Hb1 Hb2] by lia.
      clear Hbudget. simpl.
      rewrite (draw_unused_mono _ _ budget _ _ Hdraw Hb1).
      apply (picsum_loop_mono fuel); [exact Hb2 | exact Hrun].
Qed.

End Picsum.

Lemma counting_rnd_fair : fair counting_rnd.
Proof.
  intros pos img_id [Hlo Hhi].
  exists (pos * 1000 + Z.to_nat (img_id - 1))%nat. split; [lia|].
  unfold randint, counting_rnd.
  replace (Z.of_nat (pos * 1000 + Z.to_nat (img_id - 1)))
    with ((img_id - 1) + Z.of_nat pos * 1000) by lia.
  change (1000 - 1 + 1) with 1000.
  rewrite Z.mod_add by lia. rewrite Z.mod_small by lia. lia.
Qed.

(** C8, as stated, fails: a request for 1001 images never returns, whatever
    the generator draws and however long it runs; there are only 1000
    identifiers to tell the images apart. *)
Lemma C8_no_result_for_1001 :
  ¬ ∃ rnd query fuel images,
      _search_picsum rnd query 1001 fuel = Some images.
Proof.
  intros (rnd & query & fuel & images & Hrun).
  unfold _search_picsum in Hrun.
  apply (picsum_loop_spec rnd fuel (Z.to_nat 1001) [] 0 images) in Hrun;
    [|constructor|constructor].
  destruct Hrun as (ids & _ & Hlen & Hnd & Hall).
  pose proof (placeholder_ids_bounded ids Hnd Hall) as Hbound.
  rewrite Hlen in Hbound. simpl length in Hbound. lia.
Qed.

(** C8, amended: for a count [k] from 0 to 1000, [_search_picsum] returns
    once the generator has produced an unused identifier for each image,
    which a fair generator does; and whenever it returns, for any count
    [k >= 0], the result is exactly [k] URLs, each the Picsum URL of an
    identifier from 1 to 1000, the [k] identifiers (and the URLs) pairwise
    distinct. *)
Theorem C8_picsum_placeholders (rnd : nat → nat) (query : pystr) (k : Z) :
  0 ≤ k →
  (∀ fuel images,
     _search_picsum rnd query k fuel = Some images →
     ∃ ids, images = picsum_url <$> ids
            ∧ len ids = k
            ∧ NoDup ids
            ∧ Forall placeholder_id ids
            ∧ NoDup images)
  ∧ (k ≤ 1000 → fair rnd →
     ∃ fuel images, _search_picsum rnd query k fuel = Some images).
Proof.
  intros Hk. split.
  - intros fuel images Hrun. unfold _search_picsum in Hrun.
    apply (picsum_loop_spec rnd fuel (Z.to_nat k) [] 0 images) in Hrun;
      [|constructor|constructor].
    destruct Hrun as (ids & -> & Hlen & Hnd & Hall).
    exists (reverse ids). split; [reflexivity|].
    assert (NoDup (reverse ids)) as Hnd' by (by rewrite reverse_Permutation).
    split; [unfold len; rewrite length_reverse, Hlen; simpl; lia|].
    split; [exact Hnd'|]. split; [by apply Forall_reverse|].
    apply NoDup_fmap_2; [|exact Hnd'].
    intros i j. apply picsum_url_inj.
  - intros Hmax Hfair. unfold _search_picsum.
    apply (picsum_loop_terminates rnd Hfair (Z.to_nat k) [] [] 0%nat);
      [constructor | constructor | simpl; lia].
Qed.

Lemma C8_picsum_placeholders_witness :
  0 ≤ 3 ∧ 3 ≤ 1000 ∧ fair counting_rnd
  ∧ ∃ fuel images, _search_picsum counting_rnd [] 3 fuel = Some images.
Proof.
  split; [lia|]. split; [lia|]. split; [exact counting_rnd_fair|].
  apply (C8_picsum_placeholders counting_rnd [] 3); [lia | lia |].
  exact counting_rnd_fair.
Defined.

(** ** Random choice among the categories *)

Section Choice.
Context {A : Type} (P : A → Prop) `{!∀ x, Decision (P x)}.

Lemma choice_elem (r : nat) (l : list A) (x : A) :
  choice r l = Ret x → x ∈ l.
Proof.
  unfold choice. destruct (l !! _) as [y|] eqn:Hy; [|discriminate].
  intros [= <-]. by eapply list_elem_of_lookup_2.
Qed.

Lemma choice_reach (l : list A) (x : A) :
  x ∈ l → ∃ r, choice r l = Ret x.
Proof.
  intros Hx. apply list_elem_of_lookup_1 in Hx. destruct Hx as [i Hi].
  exists i. unfold choice.
  rewrite Nat.mod_small by by eapply lookup_lt_Some. by rewrite Hi.
Qed.

(** The list the adapters choose from: the elements satisfying [P], or all
    of them when none does. *)
Lemma pool_elem (l : list A) (x : A) :
  x ∈ match filter P l with [] => l | _ => filter P l end →
  x ∈ l ∧ ((∃ y, y ∈ l ∧ P y) → P x).
Proof.
  destruct (filter P l) as [|y v] eqn:Hv.
  - intros Hx. split; [exact Hx|]. intros (z & Hz & HPz).
    assert (z ∈ filter P l) as Hin by by apply list_elem_of_filter.
    rewrite Hv in Hin. by apply elem_of_nil in Hin.
  - rewrite <- Hv. intros Hx. apply list_elem_of_filter in Hx.
    destruct Hx as [HPx Hx]. by split.
Qed.

Lemma pool_reach (l : list A) (x : A) :
  x ∈ l → P x → x ∈ match filter P l with [] => l | _ => filter P l end.
Proof.
  intros Hx HPx.
  assert (x ∈ filter P l) as Hin by by apply list_elem_of_filter.
  by destruct (filter P l).
Qed.

End Choice.

(** ** Tags of a REST post *)

Section RestTags.
Variable w : world.
Variable self : rest_publisher.

Lemma create_tag_total (name : pystr) : ∃ o, create_tag w self name = Ret o.
Proof. apply try_except_any. Qed.

Lemma collect_tag_ids_spec (tags : list pystr) (tag_ids : list Z) :
  collect_tag_ids w self tags tag_ids
  = Ret (tag_ids ++ omap (attached_tag_id w self) tags).
Proof.
  revert tag_ids. induction tags as [|name tags IH]; intros tag_ids; simpl.
  - by rewrite app_nil_r.
  - unfold attached_tag_id at 1.
    destruct (create_tag_total name) as [o Ho]. rewrite Ho. simpl.
    rewrite IH. destruct o as [z|]; simpl; [|reflexivity].
    destruct (z =? 0); simpl; [reflexivity|]. by rewrite <- app_assoc.
Qed.

Lemma rest_tags_step (tags : option (list pystr)) :
  match tags with
  | Some ((_ :: _) as tags) =>
      tag_ids ← collect_tag_ids w self tags [];
      Ret (match tag_ids with [] => None | _ => Some tag_ids end)
  | _ => Ret None
  end = Ret (tags_field w self tags).
Proof.
  destruct tags as [[|name tags]|]; try reflexivity.
  rewrite collect_tag_ids_spec, app_nil_l. reflexivity.
Qed.

Lemma rest_post_data_unfold (title content : pystr) (category status : value)
    (tags : option (list pystr)) (excerpt : value) :
  rest_post_data w self title content category status tags excerpt
  = (category_id ← rest_category_id w self category;
     Ret {| pd_title := title; pd_content := content;
            pd_status := py_or status (r_default_status self);
            pd_excerpt := if truthy excerpt then Some excerpt else None;
            pd_categories :=
              match category_id with
              | Some z => if truthy_id category_id then Some [z] else None
              | None => None
              end;
            pd_tags := tags_field w self tags |}).
Proof.
  unfold rest_post_data, rest_category_id. cbv zeta.
  rewrite rest_tags_step.
  destruct (if truthy (py_or category (r_default_category self))
            then rest_get_category_id w self
                   (py_or category (r_default_category self))
            else Ret None) as [found|e]; [|reflexivity].
  cbn [mbind res_bind bind].
  destruct (if negb (truthy_id found) then get_random_category_id w self
            else Ret found) as [category_id|e]; reflexivity.
Qed.

Lemma create_tag_unresolved (name : pystr) :
  tag_unresolved w self name → create_tag w self name = Ret None.
Proof.
  unfold tag_unresolved, create_tag. cbv zeta.
  intros [[e He]|[(response & Hr & H201 & H400)|(response & Hr & H400 & Hs)]].
  - by rewrite He.
  - rewrite Hr. cbn [mbind res_bind bind].
    by rewrite (proj2 (Z.eqb_neq _ _) H201), (proj2 (Z.eqb_neq _ _) H400).
  - rewrite Hr. cbn [mbind res_bind bind]. rewrite H400. cbn [Z.eqb Pos.eqb].
    destruct Hs as [[e He]|(found & Hf & Hcase)].
    + by rewrite He.
    + rewrite Hf. cbn [mbind res_bind bind].
      destruct Hcase as [H200|[[e He]|(tags & Hjson & Habsent)]].
      * by rewrite (proj2 (Z.eqb_neq _ _) H200).
      * rewrite He. by destruct (status_code found =? 200).
      * rewrite Hjson. destruct (status_code found =? 200); [|reflexivity].
        cbn [mbind res_bind bind try_except].
        destruct (List.find _ tags) as [t|] eqn:Hfind; [|reflexivity].
        apply find_some in Hfind. destruct Hfind as [Hin Heq].
        apply bool_decide_eq_true in Heq. apply list_elem_of_In in Hin.
        by destruct (Habsent t Hin).
Qed.

Lemma omap_skip (l1 l2 : list pystr) (name : pystr) :
  attached_tag_id w self name = None →
  omap (attached_tag_id w self) (l1 ++ name :: l2)
  = omap (attached_tag_id w self) (l1 ++ l2).
Proof. intros Hn. rewrite !omap_app. simpl. by rewrite Hn. Qed.

End RestTags.

(** ** The category a REST post gets *)

Section RestCategory.
Variable w : world.
Variable self : rest_publisher.

Lemma rest_get_all_categories_total :
  ∃ cats, rest_get_all_categories w self = Ret cats.
Proof. apply try_except_any. Qed.

Lemma rest_get_category_id_total (name : value) :
  ∃ o, rest_get_category_id w self name = Ret o.
Proof. apply try_except_any. Qed.

Lemma get_random_category_id_total :
  ∃ o, get_random_category_id w self = Ret o.
Proof. apply try_except_any. Qed.

Lemma rest_category_id_total (category : value) :
  ∃ o, rest_category_id w self category = Ret o.
Proof.
  unfold rest_category_id. cbv zeta.
  destruct (truthy _).
  - destruct (rest_get_category_id_total
                (py_or category (r_default_category self))) as [o ->].
    cbn [mbind res_bind bind].
    destruct (negb _); [apply get_random_category_id_total | eauto].
  - cbn [mbind res_bind bind]. simpl. apply get_random_category_id_total.
Qed.

Lemma rest_post_data_total (title content : pystr) (category status : value)
    (tags : option (list pystr)) (excerpt : value) :
  ∃ d, rest_post_data w self title content category status tags excerpt = Ret d
       ∧ pd_tags d = tags_field w self tags.
Proof.
  rewrite rest_post_data_unfold.
  destruct (rest_category_id_total category) as [o ->].
  eexists. split; reflexivity.
Qed.

End RestCategory.

(** C4: in a REST [publish_post], a tag whose creation is answered with 400
    and whose name the search then finds takes the identifier found; a tag
    that neither the creation nor the lookup resolves makes [create_tag]
    return [None]; such a tag is left out, and the request body, hence the
    outcome of the publish, is the one the other tags alone would give; the
    body is always built, with the identifiers of the resolved tags in the
    order requested. *)
Theorem C4_tag_resolution (w : world) (self : rest_publisher) :
  (∀ name response found tags,
     tags_create (rest_at w (api_url self)) name = Ret response →
     status_code response = 400 →
     tags_search (rest_at w (api_url self)) name = Ret found →
     status_code found = 200 →
     json found = Ret tags →
     (∃ t, t ∈ tags ∧ tag_name t = name) →
     ∃ t, t ∈ tags ∧ tag_name t = name
          ∧ create_tag w self name = Ret (Some (tag_id t)))
  ∧ (∀ name, tag_unresolved w self name → create_tag w self name = Ret None)
  ∧ (∀ title content category status excerpt before name after,
       create_tag w self name = Ret None →
       rest_post_data w self title content category status
         (Some (before ++ name :: after)) excerpt
       = rest_post_data w self title content category status
           (Some (before ++ after)) excerpt
       ∧ rest_publish_post w self title content category status
           (Some (before ++ name :: after)) excerpt
         = rest_publish_post w self title content category status
             (Some (before ++ after)) excerpt)
  ∧ (∀ title content category status excerpt tags,
       ∃ d, rest_post_data w self title content category status
              (Some tags) excerpt = Ret d
            ∧ pd_tags d
              = let tag_ids := omap (attached_tag_id w self) tags in
                match tag_ids with [] => None | _ => Some tag_ids end).
Proof.
  split; [|split; [apply create_tag_unresolved|split]].
  - intros name response found tags Hcreate Hstatus Hsearch Hfound Hjson
      (t & Ht & Hname).
    unfold create_tag. rewrite Hcreate. cbn [mbind res_bind bind].
    rewrite Hstatus. cbn [Z.eqb Pos.eqb]. rewrite Hsearch.
    cbn [mbind res_bind bind]. rewrite Hfound. cbn [Z.eqb Pos.eqb].
    rewrite Hjson. cbn [mbind res_bind bind].
    destruct (List.find _ tags) as [t'|] eqn:Hfind.
    + apply find_some in Hfind. destruct Hfind as [Hin Heq].
      apply bool_decide_eq_true in Heq. apply list_elem_of_In in Hin.
      exists t'. by repeat split.
    + exfalso. apply list_elem_of_In in Ht.
      pose proof (find_none _ _ Hfind t Ht) as Hno. simpl in Hno.
      by apply bool_decide_eq_false in Hno.
  - intros title content category status excerpt before name after Hnone.
    assert (rest_post_data w self title content category status
              (Some (before ++ name :: after)) excerpt
            = rest_post_data w self title content category status
                (Some (before ++ after)) excerpt) as Hdata.
    { rewrite !rest_post_data_unfold. unfold tags_field.
      rewrite omap_skip; [reflexivity|].
      unfold attached_tag_id. by rewrite Hnone. }
    split; [exact Hdata|]. unfold rest_publish_post. by rewrite Hdata.
  - intros title content category status excerpt tags.
    apply rest_post_data_total.
Qed.

Lemma C4_tag_resolution_witness :
  (∃ t, t ∈ [ {| tag_id := 11; tag_name := lit "python3" |};
              {| tag_id := 12; tag_name := lit "python" |} ]
        ∧ tag_name t = lit "python"
        ∧ create_tag shop_world blog_rest (lit "python")
          = Ret (Some (tag_id t)))
  ∧ rest_publish_post shop_world blog_rest (lit "Title") (lit "<p>Body</p>")
      VNone VNone (Some [lit "python"; lit "broken"; lit "rust"]) VNone
    = rest_publish_post shop_world blog_rest (lit "Title") (lit "<p>Body</p>")
        VNone VNone (Some [lit "python"; lit "rust"]) VNone.
Proof.
  destruct (C4_tag_resolution shop_world blog_rest)
    as (Hfound & Hnone & Hskip & _).
  split.
  - apply (Hfound (lit "python")
             {| status_code := 400; json := Raise InvalidJSONError |}
             {| status_code := 200;
                json := Ret [ {| tag_id := 11; tag_name := lit "python3" |};
                              {| tag_id := 12; tag_name := lit "python" |} ]
             |});
      try reflexivity.
    exists {| tag_id := 12; tag_name := lit "python" |}.
    split; [|reflexivity]. right. left.
  - apply (Hskip (lit "Title") (lit "<p>Body</p>") VNone VNone VNone
             [lit "python"] (lit "broken") [lit "rust"]).
    apply Hnone. right. left.
    exists {| status_code := 500; json := Raise InvalidJSONError |}.
    split; [reflexivity|]. simpl. lia.
Defined.

(** ** The random category fallback *)

Section RestFallback.
Variable w : world.
Variable self : rest_publisher.
Variable cats : list category.
Hypothesis Hcats : rest_get_all_categories w self = Ret cats.

Lemma get_random_category_id_spec :
  get_random_category_id w self
  = match cats with
    | [] => Ret None
    | _ =>
        match choice (draw w)
                (match filter (fun cat => cat_id cat ≠ 1) cats with
                 | [] => cats
                 | _ => filter (fun cat => cat_id cat ≠ 1) cats
                 end) with
        | Ret random_cat => Ret (Some (cat_id random_cat))
        | Raise _ => Ret None
        end
    end.
Proof.
  unfold get_random_category_id. rewrite Hcats. cbn [mbind res_bind bind].
  destruct cats as [|c cs]; [reflexivity|]. cbv zeta.
  by destruct (choice _ _).
Qed.

Lemma rest_category_id_fallback (category : value) :
  rest_lookup_fails w self category →
  rest_category_id w self category = get_random_category_id w self.
Proof.
  unfold rest_lookup_fails, rest_category_id. cbv zeta.
  intros [Hname|Hlookup].
  - by rewrite Hname.
  - rewrite Hlookup. by destruct (truthy _).
Qed.

Lemma get_random_category_id_elem (i : Z) :
  get_random_category_id w self = Ret (Some i) →
  ∃ c, c ∈ cats ∧ i = cat_id c
       ∧ ((∃ y, y ∈ cats ∧ cat_id y ≠ 1) → cat_id c ≠ 1).
Proof.
  rewrite get_random_category_id_spec.
  destruct cats as [|c0 cs] eqn:E; [discriminate|]. rewrite <- E.
  destruct (choice _ _) as [c|e] eqn:Hchoice; [|discriminate].
  intros [= <-]. apply choice_elem in Hchoice.
  apply (pool_elem (fun cat => cat_id cat ≠ 1)) in Hchoice.
  destruct Hchoice as [Hin Hvalid]. by exists c.
Qed.

End RestFallback.

Lemma get_random_category_id_reach w self cats c :
  rest_get_all_categories w self = Ret cats →
  c ∈ cats → cat_id c ≠ 1 →
  ∃ r, get_random_category_id (with_draw r w) self = Ret (Some (cat_id c)).
Proof.
  intros Hcats Hc Hid.
  destruct (choice_reach
              (match filter (fun cat => cat_id cat ≠ 1) cats with
               | [] => cats
               | _ => filter (fun cat => cat_id cat ≠ 1) cats
               end) c) as [r Hr].
  { by apply (pool_reach (fun cat => cat_id cat ≠ 1)). }
  exists r. rewrite (get_random_category_id_spec (with_draw r w) self cats Hcats).
  destruct cats as [|c0 cs] eqn:E; [by apply elem_of_nil in Hc|].
  rewrite <- E in *. simpl draw. by rewrite Hr.
Qed.

Section XmlrpcFallback.
Variable w : world.
Variable self : xmlrpc_publisher.
Variable cats : list term.
Hypothesis Hcats : xmlrpc_get_all_categories w self = Ret cats.

Lemma get_random_category_spec :
  get_random_category w self
  = match cats with
    | [] => Ret None
    | _ =>
        match choice (draw w)
                (match filter (fun cat => term_id cat ≠ 1) cats with
                 | [] => cats
                 | _ => filter (fun cat => term_id cat ≠ 1) cats
                 end) with
        | Ret random_cat =>
            Ret (Some (term_name random_cat, term_id random_cat))
        | Raise _ => Ret None
        end
    end.
Proof.
  unfold get_random_category. rewrite Hcats. cbn [mbind res_bind bind].
  destruct cats as [|c cs]; [reflexivity|]. cbv zeta.
  by destruct (choice _ _).
Qed.

Lemma get_random_category_elem (name : pystr) (i : Z) :
  get_random_category w self = Ret (Some (name, i)) →
  ∃ c, c ∈ cats ∧ name = term_name c ∧ i = term_id c
       ∧ ((∃ y, y ∈ cats ∧ term_id y ≠ 1) → term_id c ≠ 1).
Proof.
  rewrite get_random_category_spec.
  destruct cats as [|c0 cs] eqn:E; [discriminate|]. rewrite <- E.
  destruct (choice _ _) as [c|e] eqn:Hchoice; [|discriminate].
  intros [= <- <-]. apply choice_elem in Hchoice.
  apply (pool_elem (fun cat => term_id cat ≠ 1)) in Hchoice.
  destruct Hchoice as [Hin Hvalid]. by exists c.
Qed.

Lemma get_random_category_total :
  ∃ o, get_random_category w self = Ret o.
Proof. apply try_except_any. Qed.

Lemma xmlrpc_post_object_fallback (title content : pystr)
    (category status : value) (tags : option (list pystr)) (excerpt : value) :
  xmlrpc_lookup_fails w self category →
  xmlrpc_post_object w self title content category status tags excerpt
  = (random_cat ← get_random_category w self;
     let selected_category_name :=
       match random_cat with
       | Some (name, _) => VStr name
       | None => VNone
       end in
     Ret {| wp_title := title; wp_content := content;
            wp_post_status := py_or status (x_default_status self);
            wp_excerpt := if truthy excerpt then Some excerpt else None;
            wp_terms_category :=
              if truthy selected_category_name
              then Some [selected_category_name] else None;
            wp_terms_post_tag :=
              match tags with
              | Some ((_ :: _) as tags) => Some tags
              | _ => None
              end |}).
Proof.
  unfold xmlrpc_lookup_fails, xmlrpc_post_object. cbv zeta.
  intros [Hname|Hlookup].
  - rewrite Hname. cbn [mbind res_bind bind truthy negb].
    destruct get_random_category_total as [o ->].
    cbn [mbind res_bind bind]. by destruct o as [[name i]|].
  - rewrite Hlookup. cbn [mbind res_bind bind truthy_id].
    replace (if truthy (py_or category (x_default_category self))
             then Ret VNone else Ret VNone) with (@Ret value VNone)
      by by destruct (truthy _).
    cbn [mbind res_bind bind truthy negb].
    destruct get_random_category_total as [o ->].
    cbn [mbind res_bind bind]. by destruct o as [[name i]|].
Qed.

End XmlrpcFallback.

Lemma get_random_category_reach w self cats c :
  xmlrpc_get_all_categories w self = Ret cats →
  c ∈ cats → term_id c ≠ 1 →
  ∃ r, get_random_category (with_draw r w) self
       = Ret (Some (term_name c, term_id c)).
Proof.
  intros Hcats Hc Hid.
  destruct (choice_reach
              (match filter (fun cat => term_id cat ≠ 1) cats with
               | [] => cats
               | _ => filter (fun cat => term_id cat ≠ 1) cats
               end) c) as [r Hr].
  { by apply (pool_reach (fun cat => term_id cat ≠ 1)). }
  exists r. rewrite (get_random_category_spec (with_draw r w) self cats Hcats).
  destruct cats as [|c0 cs] eqn:E; [by apply elem_of_nil in Hc|].
  rewrite <- E in *. simpl draw. by rewrite Hr.
Qed.

(** A name that no category of the answer carries is not found. *)
Lemma rest_absent_name_not_found w self name response found :
  categories_search (rest_at w (api_url self)) name = Ret response →
  json response = Ret found →
  (∀ c, c ∈ found → eq_str name (cat_name c) = false) →
  rest_get_category_id w self name = Ret None.
Proof.
  intros Hsearch Hjson Habsent. unfold rest_get_category_id.
  rewrite Hsearch. cbn [mbind res_bind bind].
  destruct (status_code response =? 200); [|reflexivity].
  rewrite Hjson. cbn [mbind res_bind bind].
  destruct (List.find _ found) as [c|] eqn:Hfind; [|reflexivity].
  apply find_some in Hfind. destruct Hfind as [Hin Heq].
  apply list_elem_of_In in Hin. by rewrite (Habsent c Hin) in Heq.
Qed.

Lemma xmlrpc_absent_name_not_found w self name cats :
  xmlrpc_get_all_categories w self = Ret cats →
  (∀ c, c ∈ cats → eq_str name (term_name c) = false) →
  xmlrpc_get_category_id w self name = Ret None.
Proof.
  unfold xmlrpc_get_all_categories, xmlrpc_get_category_id.
  destruct (get_terms_category _) as [terms|e]; simpl; [|reflexivity].
  intros [= ->] Habsent.
  destruct (List.find _ cats) as [c|] eqn:Hfind; [|reflexivity].
  apply find_some in Hfind. destruct Hfind as [Hin Heq].
  apply list_elem_of_In in Hin. by rewrite (Habsent c Hin) in Heq.
Qed.

(** With the second draw, the shop's post goes to [Tips] on both adapters. *)
Example shop_rest_categories :
  pd_categories <$>
    rest_post_data shop_world blog_rest (lit "Title") (lit "<p>Body</p>")
      (VStr (lit "Gardening")) VNone None VNone
  = Ret (Some [7]).
Proof. reflexivity. Qed.

Example shop_xmlrpc_category :
  wp_terms_category <$>
    xmlrpc_post_object shop_world blog_xmlrpc (lit "Title")
      (lit "<p>Body</p>") (VStr (lit "Gardening")) VNone None VNone
  = Ret (Some [VStr (lit "Tips")]).
Proof. reflexivity. Qed.

(** C2: when the category lookup of [publish_post] yields nothing, the post
    gets a category drawn from the fetched ones.  On both adapters: the
    category attached is one of those fetched; it is not the reserved one
    (id 1) as soon as some fetched category is not reserved, so the reserved
    one is attached only when nothing else was fetched; and every fetched
    category that is not reserved is attached for some draw of the random
    number generator, provided it passes the truth test of line 262 (its
    identifier is not 0) or of line 450 (its name is not empty).  REST
    attaches the identifier, XML-RPC the name. *)
Theorem C2_random_category_fallback (w : world) :
  (∀ self title content category status tags excerpt cats,
     rest_get_all_categories w self = Ret cats →
     rest_lookup_fails w self category →
     (∃ d, rest_post_data w self title content category status tags excerpt
           = Ret d
           ∧ ∀ ids, pd_categories d = Some ids →
               ∃ c, c ∈ cats ∧ ids = [cat_id c]
                    ∧ ((∃ y, y ∈ cats ∧ cat_id y ≠ 1) → cat_id c ≠ 1)
                    ∧ (cat_id c = 1 → ∀ y, y ∈ cats → cat_id y = 1))
     ∧ (∀ c, c ∈ cats → cat_id c ≠ 1 → cat_id c ≠ 0 →
          ∃ r d, rest_post_data (with_draw r w) self title content category
                   status tags excerpt = Ret d
                 ∧ pd_categories d = Some [cat_id c]))
  ∧ (∀ self title content category status tags excerpt cats,
       xmlrpc_get_all_categories w self = Ret cats →
       xmlrpc_lookup_fails w self category →
       (∃ p, xmlrpc_post_object w self title content category status tags
               excerpt = Ret p
             ∧ ∀ names, wp_terms_category p = Some names →
                 ∃ c, c ∈ cats ∧ names = [VStr (term_name c)]
                      ∧ ((∃ y, y ∈ cats ∧ term_id y ≠ 1) → term_id c ≠ 1)
                      ∧ (term_id c = 1 → ∀ y, y ∈ cats → term_id y = 1))
       ∧ (∀ c, c ∈ cats → term_id c ≠ 1 → term_name c ≠ [] →
            ∃ r p, xmlrpc_post_object (with_draw r w) self title content
                     category status tags excerpt = Ret p
                   ∧ wp_terms_category p = Some [VStr (term_name c)])).
Proof.
  split.
  - intros self title content category status tags excerpt cats Hcats Hfails.
    split.
    + rewrite rest_post_data_unfold,
        (rest_category_id_fallback w self category Hfails).
      destruct (get_random_category_id_total w self) as [o Ho]. rewrite Ho.
      eexists. split; [reflexivity|]. simpl. intros ids Hids.
      destruct o as [i|]; [|discriminate].
      assert (ids = [i]) as ->
        by (destruct i; simpl in Hids; [discriminate|congruence..]).
      destruct (get_random_category_id_elem w self cats Hcats i Ho)
        as (c & Hc & -> & Hvalid).
      exists c. repeat split; try done.
      intros Hone y Hy. destruct (decide (cat_id y = 1)) as [|Hy1]; [done|].
      exfalso. apply Hvalid; eauto.
    + intros c Hc Hid Hnz.
      destruct (get_random_category_id_reach w self cats c Hcats Hc Hid)
        as [r Hr].
      exists r. rewrite rest_post_data_unfold.
      rewrite (rest_category_id_fallback (with_draw r w) self category Hfails).
      rewrite Hr. eexists. split; [reflexivity|]. simpl.
      by destruct (Z.eqb_spec (cat_id c) 0).
  - intros self title content category status tags excerpt cats Hcats Hfails.
    split.
    + rewrite (xmlrpc_post_object_fallback w self _ _ _ _ _ _ Hfails).
      destruct (get_random_category_total w self) as [o Ho]. rewrite Ho.
      eexists. split; [reflexivity|]. simpl. intros names Hnames.
      destruct o as [[name i]|]; [|discriminate].
      assert (names = [VStr name]) as ->
        by (destruct name; simpl in Hnames; [discriminate|congruence]).
      destruct (get_random_category_elem w self cats Hcats name i Ho)
        as (c & Hc & -> & -> & Hvalid).
      exists c. repeat split; try done.
      intros Hone y Hy. destruct (decide (term_id y = 1)) as [|Hy1]; [done|].
      exfalso. apply Hvalid; eauto.
    + intros c Hc Hid Hname.
      destruct (get_random_category_reach w self cats c Hcats Hc Hid)
        as [r Hr].
      exists r.
      rewrite (xmlrpc_post_object_fallback (with_draw r w) self _ _ _ _ _ _
                 Hfails).
      rewrite Hr. eexists. split; [reflexivity|]. simpl.
      by destruct (term_name c).
Qed.

Lemma C2_random_category_fallback_witness :
  (∃ d, rest_post_data shop_world blog_rest (lit "Title") (lit "<p>Body</p>")
          (VStr (lit "Gardening")) VNone None VNone = Ret d
        ∧ ∀ ids, pd_categories d = Some ids →
            ∃ c, c ∈ shop_categories ∧ ids = [cat_id c]
                 ∧ ((∃ y, y ∈ shop_categories ∧ cat_id y ≠ 1) → cat_id c ≠ 1)
                 ∧ (cat_id c = 1 → ∀ y, y ∈ shop_categories → cat_id y = 1))
  ∧ (∃ p, xmlrpc_post_object shop_world blog_xmlrpc (lit "Title")
            (lit "<p>Body</p>") (VStr (lit "Gardening")) VNone None VNone
          = Ret p
          ∧ ∀ names, wp_terms_category p = Some names →
              ∃ c, c ∈ shop_terms ∧ names = [VStr (term_name c)]
                   ∧ ((∃ y, y ∈ shop_terms ∧ term_id y ≠ 1) → term_id c ≠ 1)
                   ∧ (term_id c = 1 → ∀ y, y ∈ shop_terms → term_id y = 1)).
Proof.
  destruct (C2_random_category_fallback shop_world) as [Hrest Hrpc].
  split.
  - apply (Hrest blog_rest (lit "Title") (lit "<p>Body</p>")
             (VStr (lit "Gardening")) VNone None VNone shop_categories).
    + reflexivity.
    + right. simpl.
      apply (rest_absent_name_not_found shop_world blog_rest _
               {| status_code := 200; json := Ret [] |} []);
        [reflexivity | reflexivity |].
      intros c Hc. by apply elem_of_nil in Hc.
  - apply (Hrpc blog_xmlrpc (lit "Title") (lit "<p>Body</p>")
             (VStr (lit "Gardening")) VNone None VNone shop_terms).
    + reflexivity.
    + right. simpl.
      apply (xmlrpc_absent_name_not_found shop_world blog_xmlrpc _ shop_terms);
        [reflexivity|].
      intros c Hc. unfold shop_terms in Hc.
      repeat (apply elem_of_cons in Hc as [->|Hc]; [reflexivity|]).
      by apply elem_of_nil in Hc.
Defined.

(** * Further properties of the code *)

(** ** [publish_post] on the two adapters *)

Lemma xmlrpc_get_category_id_total w self name :
  ∃ o, xmlrpc_get_category_id w self name = Ret o.
Proof. apply try_except_any. Qed.

Lemma xmlrpc_post_object_total w self title content category status tags
    excerpt :
  ∃ post,
    xmlrpc_post_object w self title content category status tags excerpt
    = Ret post
    ∧ wp_terms_post_tag post
      = match tags with Some ((_ :: _) as tags) => Some tags | _ => None end.
Proof.
  unfold xmlrpc_post_object. cbv zeta.
  destruct (truthy (py_or category (x_default_category self))).
  - destruct (xmlrpc_get_category_id_total w self
                (py_or category (x_default_category self))) as [o ->].
    cbn [mbind res_bind bind].
    destruct (negb _).
    + destruct (get_random_category_total w self) as [r ->].
      cbn [mbind res_bind bind]. eexists. split; reflexivity.
    + cbn [mbind res_bind bind]. eexists. split; reflexivity.
  - cbn [mbind res_bind bind truthy negb].
    destruct (get_random_category_total w self) as [r ->].
    cbn [mbind res_bind bind]. eexists. split; reflexivity.
Qed.

(** X1: a REST [publish_post] never raises, and it returns a post id
    exactly when [POST /posts], sent the body built from the arguments, is
    answered with 201 and a readable body; the id is that body's [id] as a
    string.  Any other status, an unreadable body or an exception of the
    call gives [None]. *)
Theorem X1_rest_publish_outcome (w : world) (self : rest_publisher)
    (title content : pystr) (category status : value)
    (tags : option (list pystr)) (excerpt : value) :
  ∃ d result,
    rest_post_data w self title content category status tags excerpt = Ret d
    ∧ rest_publish_post w self title content category status tags excerpt
      = Ret result
    ∧ ∀ s, result = Some s ↔
           ∃ response p,
             posts_create (rest_at w (api_url self)) d = Ret response
             ∧ status_code response = 201
             ∧ json response = Ret p
             ∧ s = str_of_int (post_id p).
Proof.
  destruct (rest_post_data_total w self title content category status tags
              excerpt) as (d & Hd & _).
  exists d. unfold rest_publish_post. rewrite Hd. cbn [mbind res_bind bind].
  destruct (posts_create (rest_at w (api_url self)) d) as [response|e]
    eqn:Hpost; cbn [mbind res_bind bind try_except any_Exception].
  - destruct (Z.eqb_spec (status_code response) 201) as [H201|H201].
    + destruct (json response) as [p|e] eqn:Hjson;
        cbn [mbind res_bind bind try_except any_Exception].
      * eexists. split; [reflexivity|]. split; [reflexivity|].
        intros s. split.
        -- intros [= <-]. by exists response, p.
        -- intros (response' & p' & [= <-] & _ & Hj & ->).
           rewrite Hjson in Hj. by injection Hj as <-.
      * eexists. split; [reflexivity|]. split; [reflexivity|].
        intros s. split; [discriminate|].
        intros (response' & p' & [= <-] & _ & Hj & _). congruence.
    + eexists. split; [reflexivity|]. split; [reflexivity|].
      intros s. split; [discriminate|].
      intros (response' & p' & [= <-] & Hs & _). contradiction.
  - eexists. split; [reflexivity|]. split; [reflexivity|].
    intros s. split; [discriminate|].
    intros (response' & p' & Hr & _). discriminate.
Qed.

(** X2: a category that the lookup finds is the one the post gets, whatever
    the random number generator would draw: REST attaches the identifier
    found (the reserved one included), XML-RPC the name that was asked
    for. *)
Theorem X2_found_category_is_used (w : world) (title content : pystr)
    (category status : value) (tags : option (list pystr)) (excerpt : value)
    (i : Z) (r : nat) :
  i ≠ 0 →
  (∀ self,
     truthy (py_or category (r_default_category self)) = true →
     rest_get_category_id w self (py_or category (r_default_category self))
     = Ret (Some i) →
     ∃ d, rest_post_data (with_draw r w) self title content category status
            tags excerpt = Ret d
          ∧ pd_categories d = Some [i])
  ∧ (∀ self,
       truthy (py_or category (x_default_category self)) = true →
       xmlrpc_get_category_id w self
         (py_or category (x_default_category self)) = Ret (Some i) →
       ∃ p, xmlrpc_post_object (with_draw r w) self title content category
              status tags excerpt = Ret p
            ∧ wp_terms_category p
              = Some [py_or category (x_default_category self)]).
Proof.
  intros Hi. assert (negb (i =? 0) = true) as Hnz
    by (apply negb_true_iff; by apply Z.eqb_neq).
  split.
  - intros self Hname Hfound. rewrite rest_post_data_unfold.
    unfold rest_category_id. cbv zeta. rewrite Hname.
    change (rest_get_category_id (with_draw r w) self)
      with (rest_get_category_id w self).
    rewrite Hfound. cbn [mbind res_bind bind truthy_id]. rewrite Hnz.
    cbn [negb mbind res_bind bind]. eexists. split; [reflexivity|].
    cbn [pd_categories truthy_id]. by rewrite Hnz.
  - intros self Hname Hfound. unfold xmlrpc_post_object. cbv zeta.
    rewrite Hname.
    change (xmlrpc_get_category_id (with_draw r w) self)
      with (xmlrpc_get_category_id w self).
    rewrite Hfound. cbn [mbind res_bind bind truthy_id]. rewrite Hnz, Hname.
    cbn [negb mbind res_bind bind]. eexists. split; [reflexivity|].
    cbn [wp_terms_category]. by rewrite Hname.
Qed.

Lemma X2_found_category_is_used_witness :
  (∃ d, rest_post_data (with_draw 7 news_world) blog_rest (lit "Title")
          (lit "<p>Body</p>") (VStr (lit "News")) VNone None VNone = Ret d
        ∧ pd_categories d = Some [5])
  ∧ (∃ p, xmlrpc_post_object (with_draw 7 news_world) blog_xmlrpc
            (lit "Title") (lit "<p>Body</p>") (VStr (lit "News")) VNone None
            VNone = Ret p
          ∧ wp_terms_category p = Some [VStr (lit "News")]).
Proof.
  destruct (X2_found_category_is_used news_world (lit "Title")
              (lit "<p>Body</p>") (VStr (lit "News")) VNone None VNone 5 7)
    as [Hrest Hrpc]; [lia|].
  split.
  - apply (Hrest blog_rest); reflexivity.
  - apply (Hrpc blog_xmlrpc); reflexivity.
Defined.

Lemma rest_get_all_categories_empty w self :
  (∃ e, categories_page (rest_at w (api_url self)) = Raise e)
  ∨ (∃ response,
       categories_page (rest_at w (api_url self)) = Ret response
       ∧ (status_code response ≠ 200
          ∨ (∃ e, json response = Raise e)
          ∨ json response = Ret [])) →
  rest_get_all_categories w self = Ret [].
Proof.
  unfold rest_get_all_categories.
  intros [[e ->]|(response & -> & Hcase)]; [reflexivity|].
  cbn [mbind res_bind bind].
  destruct Hcase as [Hs|[[e He]|He]].
  - by rewrite (proj2 (Z.eqb_neq _ _) Hs).
  - rewrite He. by destruct (_ =? _).
  - rewrite He. by destruct (_ =? _).
Qed.

(** X3: when no category can be fetched, the post is built without one
    instead of failing.  REST: the category list call raises, is not
    answered with 200 or has an unreadable or empty body, and the lookup by
    name finds nothing.  XML-RPC: the term list call raises or lists
    nothing, whatever category was asked for. *)
Theorem X3_no_category_available (w : world) (title content : pystr)
    (category status : value) (tags : option (list pystr)) (excerpt : value) :
  (∀ self,
     (∃ e, categories_page (rest_at w (api_url self)) = Raise e)
     ∨ (∃ response,
          categories_page (rest_at w (api_url self)) = Ret response
          ∧ (status_code response ≠ 200
             ∨ (∃ e, json response = Raise e)
             ∨ json response = Ret [])) →
     rest_lookup_fails w self category →
     ∃ d, rest_post_data w self title content category status tags excerpt
          = Ret d
          ∧ pd_categories d = None)
  ∧ (∀ self,
       (∃ e, get_terms_category (xmlrpc_at w (x_url self)) = Raise e)
       ∨ get_terms_category (xmlrpc_at w (x_url self)) = Ret [] →
       ∃ p, xmlrpc_post_object w self title content category status tags
              excerpt = Ret p
            ∧ wp_terms_category p = None).
Proof.
  split.
  - intros self Hpage Hfails.
    pose proof (rest_get_all_categories_empty w self Hpage) as Hcats.
    rewrite rest_post_data_unfold,
      (rest_category_id_fallback w self category Hfails),
      (get_random_category_id_spec w self [] Hcats).
    eexists. split; reflexivity.
  - intros self Hterms.
    assert (xmlrpc_get_all_categories w self = Ret []) as Hcats.
    { unfold xmlrpc_get_all_categories. by destruct Hterms as [[e ->]| ->]. }
    assert (∀ name, xmlrpc_get_category_id w self name = Ret None) as Hnone.
    { intros name. unfold xmlrpc_get_category_id.
      by destruct Hterms as [[e ->]| ->]. }
    rewrite (xmlrpc_post_object_fallback w self title content category status
               tags excerpt (or_intror (Hnone _))),
      (get_random_category_spec w self [] Hcats).
    eexists. split; reflexivity.
Qed.

Lemma X3_no_category_available_witness :
  (∃ d, rest_post_data dead_world blog_rest (lit "Title") (lit "<p>Body</p>")
          (VStr (lit "News")) VNone None VNone = Ret d
        ∧ pd_categories d = None)
  ∧ (∃ p, xmlrpc_post_object dead_world blog_xmlrpc (lit "Title")
            (lit "<p>Body</p>") (VStr (lit "News")) VNone None VNone = Ret p
          ∧ wp_terms_category p = None).
Proof.
  destruct (X3_no_category_available dead_world (lit "Title")
              (lit "<p>Body</p>") (VStr (lit "News")) VNone None VNone)
    as [Hrest Hrpc].
  split.
  - apply (Hrest blog_rest).
    + left. exists ConnectionError. reflexivity.
    + right. reflexivity.
  - apply (Hrpc blog_xmlrpc). left. exists ProtocolError. reflexivity.
Defined.

(** X4: an XML-RPC [publish_post] never raises; it always builds the post,
    passing the requested tag names on unchanged (no tag is looked up or
    created), and returns an id exactly when the [NewPost] call returns one,
    as a string. *)
Theorem X4_xmlrpc_publish_outcome (w : world) (self : xmlrpc_publisher)
    (title content : pystr) (category status : value)
    (tags : option (list pystr)) (excerpt : value) :
  ∃ p result,
    xmlrpc_post_object w self title content category status tags excerpt
    = Ret p
    ∧ wp_terms_post_tag p
      = match tags with Some ((_ :: _) as tags) => Some tags | _ => None end
    ∧ xmlrpc_publish_post w self title content category status tags excerpt
      = Ret result
    ∧ ∀ s, result = Some s ↔
           ∃ i, new_post (xmlrpc_at w (x_url self)) p = Ret i
                ∧ s = str_of_int i.
Proof.
  destruct (xmlrpc_post_object_total w self title content category status
              tags excerpt) as (p & Hp & Htags).
  exists p. unfold xmlrpc_publish_post. rewrite Hp.
  cbn [mbind res_bind bind].
  destruct (new_post (xmlrpc_at w (x_url self)) p) as [i|e] eqn:Hnew;
    cbn [mbind res_bind bind try_except any_Exception].
  - eexists. repeat split; try done.
    + intros [= <-]. by exists i.
    + intros (i' & [= <-] & ->). reflexivity.
  - eexists. repeat split; try done.
    intros (i' & Hi & _). discriminate.
Qed.

(** ** [create_publisher] with a forced protocol *)

(** X5: with [api_method] [rest] an enabled, complete configuration gets
    the REST adapter without any connectivity check, whatever the site
    answers; with [xmlrpc] it gets the XML-RPC adapter when the library is
    installed and the client can be constructed, and [None] otherwise; with
    any other method than [auto], [rest] and [xmlrpc] it gets [None]. *)
Theorem X5_forced_protocol (w : world) (config : gmap string value)
    (url username password : value) :
  truthy (dict_get config "enabled" (VBool false)) = true →
  config !! "url" = Some url →
  config !! "username" = Some username →
  config !! "password" = Some password →
  let api_method := dict_get config "api_method" (VStr (lit "auto")) in
  let category := dict_get config "category" (VStr uncategorized) in
  let status := dict_get config "status" (VStr (lit "draft")) in
  (eq_str api_method (lit "rest") = true →
   ∀ u, url = VStr u →
     ∃ p, create_publisher w config = Ret (Some (REST p))
          ∧ base_url p = rest_base_url u
          ∧ api_url p = rest_base_url u ++ lit "/wp-json/wp/v2")
  ∧ (eq_str api_method (lit "xmlrpc") = true →
     create_publisher w config
     = match WordPressXMLRPCPublisher w url username password category
               status with
       | Ret q => Ret (Some (XMLRPC q))
       | Raise _ => Ret None
       end)
  ∧ (eq_str api_method (lit "auto") = false →
     eq_str api_method (lit "rest") = false →
     eq_str api_method (lit "xmlrpc") = false →
     create_publisher w config = Ret None).
Proof.
  intros Hen Hurl Huser Hpass api_method category status.
  assert (∀ m, eq_str api_method (lit m) = true →
               ∀ m', lit m ≠ lit m' → eq_str api_method (lit m') = false)
    as Hother.
  { intros m Hm m' Hne. destruct api_method as [| | |s]; try discriminate.
    simpl in *. apply bool_decide_eq_true in Hm. subst s.
    by apply bool_decide_eq_false. }
  unfold create_publisher, dict_index.
  rewrite Hen, Hurl, Huser, Hpass. cbn [negb mbind res_bind bind].
  fold api_method category status.
  split; [|split].
  - intros Hrest u ->.
    rewrite (Hother "rest"%string Hrest "auto"%string) by discriminate.
    rewrite Hrest. eexists. split; [reflexivity|]. split; reflexivity.
  - intros Hrpc.
    rewrite (Hother "xmlrpc"%string Hrpc "auto"%string) by discriminate.
    rewrite (Hother "xmlrpc"%string Hrpc "rest"%string) by discriminate.
    rewrite Hrpc.
    by destruct (WordPressXMLRPCPublisher w url username password category
                   status).
  - intros -> -> ->. reflexivity.
Qed.

Lemma X5_forced_protocol_witness :
  ∃ p, create_publisher dead_world rest_config = Ret (Some (REST p))
       ∧ base_url p = rest_base_url (lit "https://yourblog.com")
       ∧ api_url p
         = rest_base_url (lit "https://yourblog.com") ++ lit "/wp-json/wp/v2".
Proof.
  apply (proj1 (X5_forced_protocol dead_world rest_config
                  (VStr (lit "https://yourblog.com")) (VStr (lit "admin"))
                  (VStr (lit "secret")) eq_refl eq_refl eq_refl eq_refl)
           eq_refl (lit "https://yourblog.com") eq_refl).
Defined.

(** ** The REST adapter's URL *)

Lemma rstrip_slash_id (url : pystr) :
  endswith url (lit "/") = false → rstrip (lit "/") url = url.
Proof.
  unfold endswith, rstrip. change (reverse (lit "/")) with [47].
  intros Hend. rewrite <- (reverse_involutive url) at 2. f_equal.
  destruct (reverse url) as [|d t]; [reflexivity|].
  simpl in Hend. simpl. unfold char_in.
  case_decide as Hd; [discriminate|].
  rewrite bool_decide_eq_false_2; [reflexivity|].
  intros Hin. apply elem_of_slash in Hin. congruence.
Qed.

(** X7: a URL that has a scheme, does not end with a slash and does not end
    with [/xmlrpc.php] is its own base URL, and the API root is that URL
    followed by [/wp-json/wp/v2]. *)
Theorem X7_normal_url_is_kept (url : pystr) :
  has_scheme url = true →
  endswith url (lit "/") = false →
  endswith url (lit "/xmlrpc.php") = false →
  rest_base_url url = url
  ∧ ∀ username password category status,
      api_url <$> WordPressRESTPublisher (VStr url) username password
                    category status
      = Ret (url ++ lit "/wp-json/wp/v2").
Proof.
  intros Hscheme Hslash Hsuffix.
  assert (rest_base_url url = url) as Hbase.
  { unfold rest_base_url. rewrite Hsuffix, Hscheme. simpl negb. cbv iota.
    by apply rstrip_slash_id. }
  split; [exact Hbase|].
  intros username password category status.
  unfold WordPressRESTPublisher. by rewrite Hbase.
Qed.

Lemma X7_normal_url_is_kept_witness :
  rest_base_url (lit "https://yourblog.com") = lit "https://yourblog.com".
Proof.
  apply (X7_normal_url_is_kept (lit "https://yourblog.com")); reflexivity.
Defined.

(** ** More facts about the runtime fragment *)

Section PyMoreFacts.

Lemma slice_to_le {A} (l : list A) (k : Z) : 0 ≤ k → len (slice_to l k) ≤ k.
Proof.
  intros Hk. unfold slice_to, len.
  destruct (Z.ltb_spec k 0) as [|_]; [lia|].
  rewrite length_take. lia.
Qed.

Lemma slice_to_prefix {A} (l : list A) (k : Z) : slice_to l k `prefix_of` l.
Proof. unfold slice_to. apply prefix_take. Qed.

Lemma lstrip_ws_head (s : pystr) (c : Z) (t : pystr) :
  lstrip_ws s = c :: t → isspace c = false.
Proof.
  induction s as [|d s IH]; simpl; [discriminate|].
  destruct (isspace d) eqn:Hd; [exact IH|]. by intros [= <- _].
Qed.

Lemma lstrip_ws_id (s : pystr) :
  match s with [] => True | c :: _ => isspace c = false end →
  lstrip_ws s = s.
Proof. destruct s as [|c s]; simpl; [done|]. by intros ->. Qed.

Lemma lstrip_ws_suffix (s : pystr) : lstrip_ws s `suffix_of` s.
Proof.
  induction s as [|c s IH]; simpl; [done|].
  destruct (isspace c); [by apply suffix_cons_r | done].
Qed.

Lemma lstrip_ws_idem (s : pystr) : lstrip_ws (lstrip_ws s) = lstrip_ws s.
Proof.
  apply lstrip_ws_id. destruct (lstrip_ws s) as [|c t] eqn:E; [done|].
  by apply lstrip_ws_head in E.
Qed.

(** What [strip] returns starts and ends with no white space: stripping it
    again changes nothing. *)
Lemma strip_idem (s : pystr) : strip (strip s) = strip s.
Proof.
  unfold strip.
  set (a := lstrip_ws s). set (b := lstrip_ws (reverse a)).
  assert (lstrip_ws (reverse b) = reverse b) as ->.
  { apply lstrip_ws_id. destruct (reverse b) as [|c t] eqn:E; [done|].
    destruct (lstrip_ws_suffix (reverse a)) as [k Hk]. fold b in Hk.
    apply (f_equal reverse) in Hk.
    rewrite reverse_involutive, reverse_app, E in Hk.
    apply (lstrip_ws_head s c (t ++ reverse k)). exact Hk. }
  rewrite reverse_involutive. unfold b. by rewrite lstrip_ws_idem.
Qed.

Lemma strip_elem (s : pystr) (c : Z) : c ∈ strip s → c ∈ s.
Proof.
  unfold strip. rewrite elem_of_reverse. intros Hc.
  destruct (lstrip_ws_suffix (reverse (lstrip_ws s))) as [k Hk].
  assert (c ∈ reverse (lstrip_ws s)) as Hin
    by (rewrite Hk; apply elem_of_app; by right).
  rewrite elem_of_reverse in Hin.
  destruct (lstrip_ws_suffix s) as [k' Hk'].
  rewrite Hk'. apply elem_of_app. by right.
Qed.

Lemma split_no_separator (sep : Z) (s piece : pystr) :
  piece ∈ split sep s → sep ∉ piece.
Proof.
  revert piece. induction s as [|c s IH]; intros piece; simpl.
  - intros Hp. apply list_elem_of_singleton in Hp. subst piece.
    apply not_elem_of_nil.
  - case_decide as Hc.
    + intros Hp. apply elem_of_cons in Hp as [->|Hp];
        [apply not_elem_of_nil | by apply IH].
    + destruct (split sep s) as [|p ps] eqn:E.
      * intros Hp. apply list_elem_of_singleton in Hp. subst piece.
        intros Hin. apply list_elem_of_singleton in Hin. congruence.
      * intros Hp. apply elem_of_cons in Hp as [->|Hp].
        -- intros Hin. apply elem_of_cons in Hin as [Heq|Hin];
             [congruence|]. by apply (IH p); [left|].
        -- apply IH. by right.
Qed.

End PyMoreFacts.

(** ** Keywords and prompts for images *)

Section ImageLines.
Variable client : api_client.

Lemma clean_lines_Forall (P : pystr → Prop) (lines acc : list pystr) :
  Forall P acc →
  (∀ line, line ∈ lines → lstrip bullet_chars line ≠ [] →
           P (lstrip bullet_chars line)) →
  Forall P (clean_lines lines acc).
Proof.
  revert acc. induction lines as [|line lines IH]; intros acc Hacc HP; simpl.
  - exact Hacc.
  - assert (HP' : ∀ line', line' ∈ lines →
                    lstrip bullet_chars line' ≠ [] →
                    P (lstrip bullet_chars line')).
    { intros line' Hin. apply HP. by right. }
    destruct (lstrip bullet_chars line) as [|c t] eqn:Hstrip.
    + by apply IH.
    + apply IH; [|exact HP']. apply Forall_app. split; [exact Hacc|].
      constructor; [|constructor]. rewrite <- Hstrip.
      apply HP; [by left|]. by rewrite Hstrip.
Qed.

Lemma clean_lines_cleaned (content : pystr) :
  Forall (cleaned_from content)
    (clean_lines (title_lines (strip content)) []).
Proof.
  apply clean_lines_Forall; [constructor|].
  intros line Hline Hne. exists line.
  destruct (lstrip_decompose bullet_chars line) as (run & Hrun & Hall).
  exists run. repeat (split; [assumption|]).
  destruct (lstrip bullet_chars line) as [|c t] eqn:E; [done|].
  exists c, t. split; [reflexivity|]. by apply lstrip_head in E.
Qed.

End ImageLines.

(** X8: when the LLM answers, [generate_image_keywords] returns at most
    [count] keywords (for [count >= 0]), each of them a line of the answer
    without its leading bullet characters, not empty and starting with none
    of them; when the request fails in any way it returns one keyword, the
    first 50 characters of the title, whatever [count] is. *)
Theorem X8_image_keywords (client : api_client) (title : pystr) (count : Z) :
  (∀ content,
     chat_image_keywords client title count = Ret content →
     ∃ keywords,
       generate_image_keywords client title count = Ret keywords
       ∧ Forall (cleaned_from content) keywords
       ∧ (0 ≤ count → len keywords ≤ count))
  ∧ (∀ e,
       chat_image_keywords client title count = Raise e →
       generate_image_keywords client title count = Ret [slice_to title 50]
       ∧ slice_to title 50 `prefix_of` title
       ∧ len (slice_to title 50) ≤ 50).
Proof.
  split.
  - intros content Hchat. unfold generate_image_keywords. rewrite Hchat.
    eexists. split; [reflexivity|]. split.
    + apply slice_to_Forall, clean_lines_cleaned.
    + apply slice_to_le.
  - intros e Hchat. unfold generate_image_keywords. rewrite Hchat.
    split; [reflexivity|]. split; [apply slice_to_prefix|].
    by apply slice_to_le.
Qed.

Lemma X8_image_keywords_witness :
  ∃ keywords,
    generate_image_keywords sketch_client (lit "Indoor plants") 2
    = Ret keywords
    ∧ Forall (cleaned_from (lit "1. green leaves" ++ [10]
                            ++ lit "- potted plant" ++ [10]
                            ++ lit "3. window light"))
        keywords
    ∧ (0 ≤ 2 → len keywords ≤ 2).
Proof.
  apply (proj1 (X8_image_keywords sketch_client (lit "Indoor plants") 2)).
  reflexivity.
Defined.

(** X9: [generate_image_prompts] behaves likewise: at most [count] cleaned,
    non-empty prompts when the LLM answers, and otherwise the single prompt
    [Illustration related to: ] followed by the title, cut to 100
    characters. *)
Theorem X9_image_prompts (client : api_client) (title : pystr) (count : Z) :
  (∀ content,
     chat_image_prompts client title count = Ret content →
     ∃ prompts,
       generate_image_prompts client title count = Ret prompts
       ∧ Forall (cleaned_from content) prompts
       ∧ (0 ≤ count → len prompts ≤ count))
  ∧ (∀ e,
       chat_image_prompts client title count = Raise e →
       ∃ prompt,
         generate_image_prompts client title count = Ret [prompt]
         ∧ prompt `prefix_of` lit "Illustration related to: " ++ title
         ∧ len prompt = Z.min 100 (25 + len title)).
Proof.
  split.
  - intros content Hchat. unfold generate_image_prompts. rewrite Hchat.
    eexists. split; [reflexivity|]. split.
    + apply slice_to_Forall, clean_lines_cleaned.
    + apply slice_to_le.
  - intros e Hchat. unfold generate_image_prompts. rewrite Hchat.
    eexists. split; [reflexivity|]. split; [apply slice_to_prefix|].
    unfold slice_to, len. change (100 <? 0) with false. cbv iota.
    rewrite length_take, length_app.
    change (length (lit "Illustration related to: ")) with 25%nat. lia.
Qed.

Lemma X9_image_prompts_witness :
  ∃ prompt,
    generate_image_prompts silent_client (lit "Indoor plants") 3
    = Ret [prompt]
    ∧ prompt `prefix_of` lit "Illustration related to: " ++ lit "Indoor plants"
    ∧ len prompt = Z.min 100 (25 + len (lit "Indoor plants")).
Proof.
  apply (proj2 (X9_image_prompts silent_client (lit "Indoor plants") 3)
           Timeout).
  reflexivity.
Defined.

(** ** Searching for images *)

Section ImageSearch.
Variable client : api_client.
Variable env : providers.
Variable rnd : nat → nat.

Lemma search_picsum_length (query : pystr) (count : Z) (fuel : nat)
    (images : list pystr) :
  0 ≤ count →
  _search_picsum rnd query count fuel = Some images → len images = count.
Proof.
  intros Hcount Hrun. unfold _search_picsum in Hrun.
  apply (picsum_loop_spec rnd fuel (Z.to_nat count) [] 0 images) in Hrun;
    [|constructor|constructor].
  destruct Hrun as (ids & -> & Hlen & _).
  unfold len. rewrite length_fmap, length_reverse, Hlen. simpl. lia.
Qed.

Lemma search_picsum_bounded (query : pystr) (count : Z) (fuel : nat)
    (result : res (list pystr)) :
  0 ≤ count →
  Ret <$> _search_picsum rnd query count fuel = Some result →
  bounded_images count result.
Proof.
  intros Hcount.
  destruct (_search_picsum rnd query count fuel) as [images|] eqn:Hrun;
    [|discriminate].
  intros [= <-]. apply search_picsum_length in Hrun; [|exact Hcount].
  exists images. split; [reflexivity|]. split; [lia|].
  intros H1 ->. unfold len in Hrun. simpl in Hrun. lia.
Qed.

Lemma smart_loop_spec (p : provider) (keywords images : list pystr) :
  ∃ found, smart_loop p keywords images = Ret (images ++ found)
           ∧ (length found ≤ length keywords)%nat.
Proof.
  revert images. induction keywords as [|keyword rest IH]; intros images.
  - exists []. by rewrite app_nil_r.
  - assert (∀ added, (length added ≤ 1)%nat →
              ∃ found, smart_loop p rest (images ++ added)
                       = Ret (images ++ found)
                       ∧ (length found ≤ S (length rest))%nat) as Hstep.
    { intros added Hadded. destruct (IH (images ++ added)) as (found & -> & Hf).
      exists (added ++ found). rewrite app_assoc. split; [reflexivity|].
      rewrite length_app. lia. }
    pose proof (Hstep [] ltac:(simpl; lia)) as Hsame.
    rewrite app_nil_r in Hsame.
    simpl. destruct (photo_search p keyword 1) as [response|e];
      cbn [mbind res_bind bind try_except any_Exception]; [|exact Hsame].
    destruct (status_code response =? 200);
      cbn [mbind res_bind bind try_except any_Exception]; [|exact Hsame].
    destruct (json response) as [[|url urls]|e];
      cbn [mbind res_bind bind try_except any_Exception]; try exact Hsame.
    apply Hstep. simpl. lia.
Qed.

Lemma smart_loop_skip (p : provider) (before after : list pystr)
    (keyword : pystr) (e : exn) (images : list pystr) :
  photo_search p keyword 1 = Raise e →
  smart_loop p (before ++ keyword :: after) images
  = smart_loop p (before ++ after) images.
Proof.
  intros Hraise. revert images.
  induction before as [|k before IH]; intros images.
  - simpl. by rewrite Hraise.
  - simpl.
    destruct (try_except _ any_Exception (fun _ => Ret images)) as [x|e'];
      cbn [mbind res_bind bind]; [apply IH | reflexivity].
Qed.

Lemma search_smart_bounded (p : provider) (keywords : list pystr)
    (count : Z) (fuel : nat) (result : res (list pystr)) :
  0 ≤ count →
  search_smart rnd p keywords count fuel = Some result →
  bounded_images count result.
Proof.
  intros Hcount. unfold search_smart.
  destruct (negb (truthy_str (api_key p)));
    [by apply search_picsum_bounded|].
  destruct (smart_loop_spec p (slice_to keywords count) [])
    as (found & -> & Hfound).
  rewrite app_nil_l.
  destruct found as [|url found]; [by apply search_picsum_bounded|].
  intros [= <-]. eexists. split; [reflexivity|]. split; [|done].
  pose proof (slice_to_le keywords count Hcount) as Hslice.
  unfold len in *. lia.
Qed.

Lemma search_plain_bounded (p : provider) (query : pystr) (count : Z)
    (fuel : nat) (result : res (list pystr)) :
  0 ≤ count →
  search_plain rnd p query count fuel = Some result →
  bounded_images count result.
Proof.
  intros Hcount. unfold search_plain.
  destruct (negb (truthy_str (api_key p)));
    [by apply search_picsum_bounded|].
  destruct (photo_search p query count) as [response|e];
    cbn [mbind res_bind bind]; [|by apply search_picsum_bounded].
  destruct (status_code response =? 200);
    [|by apply search_picsum_bounded].
  destruct (json response) as [data|e]; cbn [mbind res_bind bind];
    [|by apply search_picsum_bounded].
  destruct (slice_to data count) as [|url images] eqn:Hslice;
    [by apply search_picsum_bounded|].
  intros [= <-]. eexists. split; [reflexivity|]. split; [|done].
  rewrite <- Hslice. by apply slice_to_le.
Qed.

Lemma generate_image_keywords_total (title : pystr) (count : Z) :
  ∃ keywords, generate_image_keywords client title count = Ret keywords.
Proof. apply try_except_any. Qed.

Lemma search_images_bounded (query : pystr) (count : Z)
    (search_engine : pystr) (use_smart_keywords : bool) (fuel : nat)
    (result : res (list pystr)) :
  0 ≤ count →
  search_images client env rnd query count search_engine use_smart_keywords
    fuel = Some result →
  bounded_images count result.
Proof.
  intros Hcount. unfold search_images. cbv zeta.
  assert (∀ body : option (res (list pystr)),
            (∀ r, body = Some r → bounded_images count r) →
            match body with
            | Some (Raise _) => Ret <$> _search_picsum rnd query count fuel
            | other => other
            end = Some result → bounded_images count result) as Hguard.
  { intros [[images|e]|] Hbody; [| |discriminate].
    - intros [= <-]. by apply Hbody.
    - by apply search_picsum_bounded. }
  apply Hguard. clear Hguard result. intros result.
  assert (∃ search_queries,
            (if use_smart_keywords
                && negb (bool_decide (search_engine = lit "picsum"))
             then
               smart_keywords ← generate_image_keywords client query count;
               Ret (match smart_keywords with
                    | [] => [query]
                    | _ => smart_keywords
                    end)
             else Ret [query]) = Ret search_queries) as [queries ->].
  { destruct (_ && _); [|eauto].
    destruct (generate_image_keywords_total query count) as [kws ->].
    cbn [mbind res_bind bind]. eauto. }
  unfold _search_unsplash_smart, _search_pexels_smart, _search_pixabay_smart.
  repeat case_bool_decide;
    first [by apply search_picsum_bounded | by apply search_smart_bounded].
Qed.

End ImageSearch.

(** X10: a keyword search at a provider ([_search_unsplash_smart],
    [_search_pexels_smart], [_search_pixabay_smart]) asked for
    [count >= 0] images returns, when it returns, at most [count] URLs and
    at least one if [count >= 1]: one per keyword that has a hit, or the
    placeholders when no keyword has one; without a key it is the
    placeholder search; and a keyword whose request raises is passed over
    without affecting the others. *)
Theorem X10_keyword_search (rnd : nat → nat) (p : provider)
    (keywords : list pystr) (count : Z) (fuel : nat) :
  0 ≤ count →
  (∀ result, search_smart rnd p keywords count fuel = Some result →
             bounded_images count result)
  ∧ (truthy_str (api_key p) = false →
     search_smart rnd p keywords count fuel
     = Ret <$> _search_picsum rnd [] count fuel)
  ∧ (∀ before keyword after e,
       photo_search p keyword 1 = Raise e →
       smart_loop p (before ++ keyword :: after) []
       = smart_loop p (before ++ after) []).
Proof.
  intros Hcount. split; [|split].
  - intros result. by apply search_smart_bounded.
  - intros Hkey. unfold search_smart. by rewrite Hkey.
  - intros before keyword after e Hraise. by eapply smart_loop_skip.
Qed.

Lemma X10_keyword_search_witness :
  0 ≤ 3
  ∧ _search_unsplash_smart stock counting_rnd
      [lit "green leaves"; lit "potted plant"; lit "window light"] 3 5
    = Some (Ret [lit "https://images.example/leaves.jpg"])
  ∧ bounded_images 3 (Ret [lit "https://images.example/leaves.jpg"]).
Proof.
  split; [lia|]. split; [reflexivity|].
  apply (proj1 (X10_keyword_search counting_rnd stock_unsplash
                  [lit "green leaves"; lit "potted plant"; lit "window light"]
                  3 5 ltac:(lia))).
  reflexivity.
Defined.

(** X11: [search_images], asked for [count >= 0] images from any engine,
    with or without smart keywords, returns (when it returns) without
    raising, at most [count] URLs, and at least one if [count >= 1]; with
    the engine [picsum] it returns exactly [count]. *)
Theorem X11_search_images (client : api_client) (env : providers)
    (rnd : nat → nat) (query : pystr) (count : Z) (search_engine : pystr)
    (use_smart_keywords : bool) (fuel : nat) :
  0 ≤ count →
  (∀ result,
     search_images client env rnd query count search_engine
       use_smart_keywords fuel = Some result →
     bounded_images count result)
  ∧ (search_engine = lit "picsum" →
     ∀ result,
       search_images client env rnd query count search_engine
         use_smart_keywords fuel = Some result →
       ∃ images, result = Ret images ∧ len images = count).
Proof.
  intros Hcount. split.
  - intros result. by apply search_images_bounded.
  - intros -> result. unfold search_images. cbv zeta.
    rewrite bool_decide_eq_true_2 by reflexivity.
    rewrite andb_false_r. cbv iota.
    destruct (_search_picsum rnd query count fuel) as [images|] eqn:Hrun;
      [|discriminate].
    intros [= <-]. exists images. split; [reflexivity|].
    by eapply search_picsum_length.
Qed.

Lemma X11_search_images_witness :
  0 ≤ 2
  ∧ ∃ images,
      search_images silent_client keyless counting_rnd (lit "Indoor plants") 2
        (lit "unsplash") true 5 = Some (Ret images)
      ∧ len images ≤ 2.
Proof.
  split; [lia|].
  destruct (proj1 (X11_search_images silent_client keyless counting_rnd
                     (lit "Indoor plants") 2 (lit "unsplash") true 5
                     ltac:(lia))
              (Ret [picsum_url 1; picsum_url 2]) eq_refl)
    as (images & Heq & Hlen & _).
  exists images. split; [rewrite <- Heq; reflexivity | exact Hlen].
Defined.

(** ** Acquiring the images of an article *)

Section Acquire.
Variable client : api_client.
Variable env : providers.
Variable rnd : nat → nat.

Lemma generate_image_prompts_bound (title : pystr) (count : Z) :
  0 < count →
  ∃ prompts, generate_image_prompts client title count = Ret prompts
             ∧ len prompts ≤ count.
Proof.
  intros Hcount. unfold generate_image_prompts.
  destruct (chat_image_prompts client title count) as [content|e];
    cbn [mbind res_bind bind try_except any_Exception].
  - eexists. split; [reflexivity|]. apply slice_to_le. lia.
  - eexists. split; [reflexivity|]. unfold len. simpl. lia.
Qed.

Lemma generate_image_with_dalle_total (prompt model size quality style : pystr) :
  ∃ o, generate_image_with_dalle client prompt model size quality style
       = Ret o.
Proof. apply try_except_any. Qed.

Lemma generated_images_spec (model size quality style : pystr)
    (prompts image_urls : list pystr) :
  ∃ new, generated_images client prompts model size quality style image_urls
         = Ret (image_urls ++ new)
         ∧ (length new ≤ length prompts)%nat.
Proof.
  revert image_urls. induction prompts as [|prompt rest IH]; intros image_urls.
  - exists []. by rewrite app_nil_r.
  - simpl.
    destruct (generate_image_with_dalle_total prompt model size quality style)
      as [o ->].
    cbn [mbind res_bind bind]. destruct (truthy_str o).
    + destruct (IH (image_urls ++ [default [] o])) as (new & -> & Hnew).
      exists (default [] o :: new). rewrite <- app_assoc.
      split; [reflexivity | simpl; lia].
    + destruct (IH image_urls) as (new & -> & Hnew).
      exists new. split; [reflexivity | lia].
Qed.

Lemma acquire_images_bounded (title : pystr) (image_count : Z)
    (fetch_real_images : bool) (image_search_engine image_mode : pystr)
    (model size quality style : pystr) (fuel : nat)
    (result : res (list pystr)) :
  acquire_images client env rnd title image_count fetch_real_images
    image_search_engine image_mode model size quality style fuel
  = Some result →
  ∃ images, result = Ret images
            ∧ len images ≤ Z.max image_count 0
            ∧ (fetch_real_images = false → images = []).
Proof.
  unfold acquire_images.
  assert (∃ images, @Ret (list pystr) [] = Ret images
                    ∧ len images ≤ Z.max image_count 0
                    ∧ (fetch_real_images = false → images = [])) as Hnone.
  { exists []. unfold len. simpl. split; [done|]. split; [lia | done]. }
  destruct fetch_real_images; simpl andb; [|by intros [= <-]].
  destruct (Z.gtb_spec image_count 0) as [Hpos|_]; [|by intros [= <-]].
  case_bool_decide.
  { intros Hrun.
    apply search_images_bounded in Hrun; [|lia].
    destruct Hrun as (images & -> & Hlen & _).
    exists images. split; [reflexivity|]. split; [lia | discriminate]. }
  case_bool_decide.
  { destruct (generate_image_prompts_bound title image_count Hpos)
      as (prompts & -> & Hp).
    cbn [mbind res_bind bind].
    destruct (generated_images_spec model size quality style prompts [])
      as (new & -> & Hnew).
    intros [= <-]. eexists. split; [reflexivity|].
    split; [|discriminate]. unfold len in *. simpl. lia. }
  case_bool_decide; [|by intros [= <-]].
  cbv zeta.
  assert (0 ≤ image_count / 2) as Hhalf by (apply Z.div_pos; lia).
  assert (image_count / 2 < image_count) as Hlt
    by (apply Z.div_lt_upper_bound; lia).
  assert ((∃ found,
             (if image_count / 2 >? 0
              then search_images client env rnd title (image_count / 2)
                     image_search_engine true fuel
              else Some (Ret [])) = Some (Ret found)
             ∧ len found ≤ image_count / 2)
          ∨ (if image_count / 2 >? 0
             then search_images client env rnd title (image_count / 2)
                    image_search_engine true fuel
             else Some (Ret [])) = None) as [(found & Hf & Hfound)|Hf].
  { destruct (image_count / 2 >? 0).
    - destruct (search_images _ _ _ _ _ _ _ _) as [r|] eqn:Hrun; [|by right].
      apply search_images_bounded in Hrun; [|lia].
      destruct Hrun as (found & -> & Hlen & _). left. by exists found.
    - left. exists []. split; [reflexivity|]. unfold len. simpl. lia. }
  2: { rewrite Hf. discriminate. }
  rewrite Hf. cbn [mbind res_bind bind].
  destruct (Z.gtb_spec (image_count - image_count / 2) 0) as [_|Hg]; [|lia].
  destruct (generate_image_prompts_bound title
              (image_count - image_count / 2) ltac:(lia))
    as (prompts & -> & Hp).
  cbn [mbind res_bind bind].
  destruct (generated_images_spec model size quality style prompts found)
    as (new & -> & Hnew).
  intros [= <-]. eexists. split; [reflexivity|]. split; [|discriminate].
  unfold len in *. rewrite length_app. lia.
Qed.

End Acquire.

(** X12: the images acquired for an article (lines 660-705 of
    [generate_article]) never outnumber [image_count], in the [search], the
    [generate] and the [mixed] mode, and no request raises; nothing is
    acquired when [fetch_real_images] is off or [image_count] is not
    positive. *)
Theorem X12_acquired_images (client : api_client) (env : providers)
    (rnd : nat → nat) (title : pystr) (image_count : Z)
    (fetch_real_images : bool) (image_search_engine image_mode : pystr)
    (model size quality style : pystr) (fuel : nat)
    (result : res (list pystr)) :
  acquire_images client env rnd title image_count fetch_real_images
    image_search_engine image_mode model size quality style fuel
  = Some result →
  ∃ images, result = Ret images
            ∧ len images ≤ Z.max image_count 0
            ∧ (fetch_real_images = false → images = []).
Proof. apply acquire_images_bounded. Qed.

Lemma X12_acquired_images_witness :
  ∃ images,
    acquire_images sketch_client stock counting_rnd (lit "Indoor plants") 3
      true (lit "unsplash") (lit "mixed") (lit "dall-e-3") (lit "1024x1024")
      (lit "standard") (lit "natural") 5
    = Some (Ret images)
    ∧ len images ≤ Z.max 3 0.
Proof.
  destruct (X12_acquired_images sketch_client stock counting_rnd
              (lit "Indoor plants") 3 true (lit "unsplash") (lit "mixed")
              (lit "dall-e-3") (lit "1024x1024") (lit "standard")
              (lit "natural") 5
              (Ret [lit "https://images.example/leaves.jpg";
                    lit "https://images.example/1.png";
                    lit "https://images.example/1.png"]) eq_refl)
    as (images & Heq & Hlen & _).
  exists images. split; [rewrite <- Heq; reflexivity | exact Hlen].
Defined.

(** ** Articles *)

Lemma slice_from_app {A} (l1 l2 : list A) :
  slice_from (l1 ++ l2) (len l1) = l2.
Proof.
  unfold slice_from, len. rewrite length_app.
  destruct (Z.ltb_spec (Z.of_nat (length l1)) 0) as [|_]; [lia|].
  replace (Z.to_nat _) with (length l1) by lia. by rewrite drop_app_length.
Qed.

Lemma slice_to_drop_tail {A} (l1 l2 : list A) :
  l2 ≠ [] → slice_to (l1 ++ l2) (- len l2) = l1.
Proof.
  intros Hl2. unfold slice_to, len. rewrite length_app.
  assert (0 < length l2)%nat by (destruct l2; [done | simpl; lia]).
  destruct (Z.ltb_spec (- Z.of_nat (length l2)) 0) as [_|]; [|lia].
  replace (Z.to_nat _) with (length l1) by lia. by rewrite take_app_length.
Qed.

(** X13: [_clean_html_structure] returns text without white space at
    either end; text that shows no document markup and no code fence comes
    back stripped and otherwise unchanged, without the regular expressions
    being consulted; and of an answer without document markup that is
    wrapped in a [```html] ... [```] fence it returns the stripped
    inside. *)
Theorem X13_clean_html_structure
    (re_search_group : pystr → pystr → option pystr)
    (re_sub : pystr → pystr → pystr → pystr) (content : pystr) :
  strip (_clean_html_structure re_search_group re_sub content)
  = _clean_html_structure re_search_group re_sub content
  ∧ (contains content (lit "<!DOCTYPE") = false →
     contains content (lit "<html") = false →
     (startswith content (lit "```html") = false →
      endswith content (lit "```") = false →
      _clean_html_structure re_search_group re_sub content = strip content)
     ∧ (∀ inside,
          content = lit "```html" ++ inside ++ lit "```" →
          _clean_html_structure re_search_group re_sub content
          = strip inside)).
Proof.
  split; [apply strip_idem|].
  intros Hdoctype Hhtml. unfold _clean_html_structure.
  rewrite Hdoctype, Hhtml. cbn [orb]. cbv zeta. split.
  - by intros -> ->.
  - intros inside ->.
    assert (startswith (lit "```html" ++ inside ++ lit "```") (lit "```html")
            = true) as ->
      by (apply startswith_prefix; by apply prefix_app_r).
    assert (slice_from (lit "```html" ++ inside ++ lit "```") 7
            = inside ++ lit "```") as ->
      by apply (slice_from_app (lit "```html")).
    assert (endswith (inside ++ lit "```") (lit "```") = true) as ->
      by (apply endswith_suffix; by apply suffix_app_r).
    assert (slice_to (inside ++ lit "```") (-3) = inside) as ->
      by exact (slice_to_drop_tail inside (lit "```") ltac:(discriminate)).
    reflexivity.
Qed.

Lemma X13_clean_html_structure_witness :
  _clean_html_structure (fun _ _ => None) (fun _ _ s => s)
    (lit "```html" ++ ([10] ++ lit "<p>Water them weekly.</p>" ++ [10])
     ++ lit "```")
  = lit "<p>Water them weekly.</p>".
Proof.
  apply (proj2 (proj2 (X13_clean_html_structure (fun _ _ => None)
                         (fun _ _ s => s)
                         (lit "```html"
                          ++ ([10] ++ lit "<p>Water them weekly.</p>" ++ [10])
                          ++ lit "```")) eq_refl eq_refl)
           ([10] ++ lit "<p>Water them weekly.</p>" ++ [10])).
  reflexivity.
Defined.

Section ArticleFacts.
Variable lower : pystr → pystr.
Variable L : list pystr.
Variable client : api_client.
Variable re_search_group : pystr → pystr → option pystr.
Variable re_sub : pystr → pystr → pystr → pystr.
Variable re_finditer : pystr → pystr → list (pystr * pystr).
Variable title : pystr.
Variable fetch_real_images : bool.
Variable image_urls : list pystr.

Lemma retry_article_S (attempt remaining : nat) :
  retry_article lower L client re_search_group re_sub re_finditer title
    fetch_real_images image_urls attempt (S remaining)
  = (content ← chat_article client title attempt;
     let text := _clean_html_structure re_search_group re_sub (strip content)
     in
     if _check_forbidden_words lower L text then
       retry_article lower L client re_search_group re_sub re_finditer title
         fetch_real_images image_urls (S attempt) remaining
     else
       Ret (if fetch_real_images && nonempty image_urls
            then _replace_image_placeholders re_finditer text image_urls
            else text)).
Proof. reflexivity. Qed.

Lemma retry_article_found (remaining attempt : nat) (article : pystr) :
  retry_article lower L client re_search_group re_sub re_finditer title
    fetch_real_images image_urls attempt remaining = Ret article →
  article ≠ [] →
  ∃ a content,
    (attempt ≤ a < attempt + remaining)%nat
    ∧ chat_article client title a = Ret content
    ∧ first_clean lower L client re_search_group re_sub title attempt a
    ∧ article
      = if fetch_real_images && nonempty image_urls
        then _replace_image_placeholders re_finditer
               (_clean_html_structure re_search_group re_sub (strip content))
               image_urls
        else _clean_html_structure re_search_group re_sub (strip content).
Proof.
  revert attempt. induction remaining as [|remaining IH]; intros attempt.
  - simpl. by intros [= <-].
  - rewrite retry_article_S.
    destruct (chat_article client title attempt) as [content|e] eqn:Hchat;
      cbn [mbind res_bind bind]; [|discriminate].
    cbv zeta.
    destruct (_check_forbidden_words lower L _) eqn:Hcheck.
    + intros Hrun Hne.
      destruct (IH (S attempt) Hrun Hne)
        as (a & content' & Ha & Hchat' & (Hclean & Hbefore) & Harticle).
      exists a, content'. split; [lia|]. split; [exact Hchat'|].
      split; [|exact Harticle]. split; [exact Hclean|].
      intros a' Ha'. destruct (decide (a' = attempt)) as [->|Hne'].
      * exists content. by split.
      * apply Hbefore. lia.
    + intros [= <-] Hne. exists attempt, content.
      split; [lia|]. split; [exact Hchat|]. split; [|reflexivity].
      split.
      * exists content. split; [exact Hchat|].
        split; [exact Hcheck | by apply check_forbidden_words_false].
      * intros a' Ha'. lia.
Qed.

Lemma retry_article_exhausted (remaining attempt : nat) :
  (∀ a, (attempt ≤ a < attempt + remaining)%nat →
        ∃ c, chat_article client title a = Ret c
             ∧ _check_forbidden_words lower L
                 (_clean_html_structure re_search_group re_sub (strip c))
               = true) →
  retry_article lower L client re_search_group re_sub re_finditer title
    fetch_real_images image_urls attempt remaining = Ret [].
Proof.
  revert attempt. induction remaining as [|remaining IH]; intros attempt Hall.
  - reflexivity.
  - rewrite retry_article_S.
    destruct (Hall attempt ltac:(lia)) as (c & -> & Hcheck).
    cbn [mbind res_bind bind]. cbv zeta. rewrite Hcheck.
    apply IH. intros a Ha. apply Hall. lia.
Qed.

Lemma retry_article_error (remaining attempt a : nat) (e : exn) :
  (attempt ≤ a < attempt + remaining)%nat →
  chat_article client title a = Raise e →
  (∀ a', (attempt ≤ a' < a)%nat →
         ∃ c, chat_article client title a' = Ret c
              ∧ _check_forbidden_words lower L
                  (_clean_html_structure re_search_group re_sub (strip c))
                = true) →
  retry_article lower L client re_search_group re_sub re_finditer title
    fetch_real_images image_urls attempt remaining = Raise e.
Proof.
  revert attempt. induction remaining as [|remaining IH];
    intros attempt Ha Hraise Hbefore; [lia|].
  rewrite retry_article_S.
  destruct (decide (a = attempt)) as [->|Hne].
  - by rewrite Hraise.
  - destruct (Hbefore attempt ltac:(lia)) as (c & -> & Hcheck).
    cbn [mbind res_bind bind]. cbv zeta. rewrite Hcheck.
    apply IH; [lia | exact Hraise |]. intros a' Ha'. apply Hbefore. lia.
Qed.

End ArticleFacts.



Section ArticleReturns.
Variable lower : pystr → pystr.
Variable L : list pystr.
Variable client : api_client.
Variable re_search_group : pystr → pystr → option pystr.
Variable re_sub : pystr → pystr → pystr → pystr.
Variable re_finditer : pystr → pystr → list (pystr * pystr).
Variable env : providers.
Variable rnd : nat → nat.

Lemma search_picsum_terminates (query : pystr) (count : Z) :
  fair rnd → count ≤ 1000 →
  ∃ fuel images, _search_picsum rnd query count fuel = Some images.
Proof.
  intros Hfair Hmax. unfold _search_picsum.
  apply (picsum_loop_terminates rnd Hfair (Z.to_nat count) [] [] 0%nat);
    [constructor | constructor | simpl; lia].
Qed.

(** The placeholder search is all that can keep a search from returning. *)
Lemma search_smart_returns (p : provider) (keywords : list pystr)
    (count : Z) (fuel : nat) (images : list pystr) :
  _search_picsum rnd [] count fuel = Some images →
  ∃ result, search_smart rnd p keywords count fuel = Some result.
Proof.
  intros Hrun. unfold search_smart. rewrite Hrun.
  destruct (negb _); [simpl; eauto|].
  destruct (smart_loop _ _ _) as [[|url found]|e]; simpl; eauto.
Qed.

Lemma search_images_returns (query : pystr) (count : Z)
    (search_engine : pystr) (use_smart_keywords : bool) (fuel : nat)
    (images : list pystr) :
  _search_picsum rnd [] count fuel = Some images →
  ∃ result,
    search_images client env rnd query count search_engine
      use_smart_keywords fuel = Some result.
Proof.
  intros Hrun.
  assert (_search_picsum rnd query count fuel = Some images) as Hquery
    by exact Hrun.
  unfold search_images. cbv zeta.
  match goal with
  | |- ∃ result, match ?body with _ => _ end = Some result =>
      assert (∃ r, body = Some r) as [r ->]
  end.
  { match goal with
    | |- ∃ r, match ?queries with _ => _ end = Some r =>
        destruct queries as [search_queries|e]; [|eauto]
    end.
    unfold _search_unsplash_smart, _search_pexels_smart,
      _search_pixabay_smart.
    repeat case_bool_decide;
      first [ by eapply search_smart_returns
            | rewrite Hquery; simpl; eauto ]. }
  destruct r as [found|e]; [eauto|]. rewrite Hquery. simpl. eauto.
Qed.

Lemma acquire_images_returns (title : pystr) (image_count : Z)
    (fetch_real_images : bool) (image_search_engine image_mode : pystr)
    (model size quality style : pystr) :
  fair rnd → image_count ≤ 1000 →
  ∃ fuel result,
    acquire_images client env rnd title image_count fetch_real_images
      image_search_engine image_mode model size quality style fuel
    = Some result.
Proof.
  intros Hfair Hmax. unfold acquire_images.
  destruct (fetch_real_images && (image_count >? 0)); [|exists 0%nat; eauto].
  case_bool_decide.
  { destruct (search_picsum_terminates [] image_count Hfair Hmax)
      as (fuel & images & Hrun).
    exists fuel. by eapply search_images_returns. }
  case_bool_decide; [exists 0%nat; eauto|].
  case_bool_decide; [|exists 0%nat; eauto].
  cbv zeta. destruct (image_count / 2 >? 0); [|exists 0%nat; eauto].
  assert (image_count / 2 ≤ 1000) as Hhalf
    by (apply Z.div_le_upper_bound; lia).
  destruct (search_picsum_terminates [] (image_count / 2) Hfair Hhalf)
    as (fuel & images & Hrun).
  exists fuel.
  destruct (search_images_returns title (image_count / 2)
              image_search_engine true fuel images Hrun) as [found ->].
  eauto.
Qed.

Lemma acquire_images_no_search (title : pystr) (image_count : Z)
    (fetch_real_images : bool) (image_search_engine image_mode : pystr)
    (model size quality style : pystr) (fuel : nat) :
  fetch_real_images = false
  ∨ (image_mode ≠ lit "search" ∧ image_mode ≠ lit "mixed") →
  ∃ result,
    acquire_images client env rnd title image_count fetch_real_images
      image_search_engine image_mode model size quality style fuel
    = Some result.
Proof.
  intros Hcase. unfold acquire_images.
  destruct Hcase as [->|[Hsearch Hmixed]]; [simpl; eauto|].
  destruct (fetch_real_images && (image_count >? 0)); [|eauto].
  rewrite (bool_decide_eq_false_2 _ Hsearch).
  case_bool_decide; [eauto|].
  rewrite (bool_decide_eq_false_2 _ Hmixed). eauto.
Qed.

(** Once the images are there, [generate_article] returns a string. *)
Lemma generate_article_outcome (title : pystr) (image_count : Z)
    (fetch_real_images : bool) (image_search_engine image_mode : pystr)
    (model size quality style : pystr) (max_retries : Z) (fuel : nat)
    (images : res (list pystr)) :
  acquire_images client env rnd title image_count fetch_real_images
    image_search_engine image_mode model size quality style fuel
  = Some images →
  ∃ article,
    generate_article lower L client re_search_group re_sub re_finditer env
      rnd title image_count fetch_real_images image_search_engine image_mode
      model size quality style max_retries fuel = Some (Ret article)
    ∧ (no_article lower L client re_search_group re_sub title max_retries →
       article = []).
Proof.
  intros Hacq. unfold generate_article. rewrite Hacq.
  apply acquire_images_bounded in Hacq.
  destruct Hacq as (image_urls & -> & _).
  unfold generate_article_with. cbn [mbind res_bind bind].
  destruct (try_except_any
              (retry_article lower L client re_search_group re_sub
                 re_finditer title fetch_real_images image_urls 0
                 (Z.to_nat max_retries)) []) as [article Harticle].
  exists article. split; [by rewrite Harticle|].
  intros [Hall|(a & e & Ha & Hraise & Hbefore)].
  - rewrite retry_article_exhausted in Harticle.
    + by injection Harticle.
    + intros a Ha. apply Hall. lia.
  - rewrite (retry_article_error _ _ _ _ _ _ _ _ _ _ _ a e) in Harticle;
      [by injection Harticle | lia | exact Hraise |].
    intros a' Ha'. apply Hbefore. lia.
Qed.

End ArticleReturns.

(** X15: [generate_article] never raises.  It returns once its images are
    acquired, and only the placeholder search can hold that up: it returns
    whatever the random generator does when [fetch_real_images] is off or
    the image mode is neither [search] nor [mixed], and, for
    [image_count <= 1000], after enough draws of a fair random generator.
    What it returns is the empty string when every attempt within
    [max_retries] (none, if [max_retries <= 0]) yields text with a
    forbidden word, and when the request of an attempt fails after such
    attempts: a failed request is not retried. *)
Theorem X15_article_failure (lower : pystr → pystr)
    (L : list pystr) (client : api_client)
    (re_search_group : pystr → pystr → option pystr)
    (re_sub : pystr → pystr → pystr → pystr)
    (re_finditer : pystr → pystr → list (pystr * pystr))
    (env : providers) (rnd : nat → nat) (title : pystr) (image_count : Z)
    (fetch_real_images : bool) (image_search_engine image_mode : pystr)
    (model size quality style : pystr) (max_retries : Z) :
  let returned fuel article :=
    generate_article lower L client re_search_group re_sub re_finditer env
      rnd title image_count fetch_real_images image_search_engine image_mode
      model size quality style max_retries fuel = Some (Ret article)
    ∧ (no_article lower L client re_search_group re_sub title max_retries →
       article = []) in
  (∀ fuel result,
     generate_article lower L client re_search_group re_sub re_finditer env
       rnd title image_count fetch_real_images image_search_engine
       image_mode model size quality style max_retries fuel = Some result →
     ∃ article, result = Ret article ∧ returned fuel article)
  ∧ (fetch_real_images = false
     ∨ (image_mode ≠ lit "search" ∧ image_mode ≠ lit "mixed") →
     ∀ fuel, ∃ article, returned fuel article)
  ∧ (fair rnd → image_count ≤ 1000 → ∃ fuel article, returned fuel article).
Proof.
  cbv zeta. split; [|split].
  - intros fuel result Hrun.
    destruct (acquire_images client env rnd title image_count
                fetch_real_images image_search_engine image_mode model size
                quality style fuel) as [images|] eqn:Hacq.
    + destruct (generate_article_outcome lower L client re_search_group
                  re_sub re_finditer env rnd title image_count
                  fetch_real_images image_search_engine image_mode model
                  size quality style max_retries fuel images Hacq)
        as (article & Harticle & Hempty).
      exists article. rewrite Harticle in Hrun.
      split; [by injection Hrun|]. by split.
    + unfold generate_article in Hrun. rewrite Hacq in Hrun. discriminate.
  - intros Hcase fuel.
    destruct (acquire_images_no_search client env rnd title image_count
                fetch_real_images image_search_engine image_mode model size
                quality style fuel Hcase) as [images Hacq].
    by eapply generate_article_outcome.
  - intros Hfair Hmax.
    destruct (acquire_images_returns client env rnd title image_count
                fetch_real_images image_search_engine image_mode model size
                quality style Hfair Hmax) as (fuel & images & Hacq).
    exists fuel. by eapply generate_article_outcome.
Qed.

Lemma X15_article_failure_witness :
  fair counting_rnd ∧ 3 ≤ 1000
  ∧ (∃ fuel article,
       generate_article ascii_lower [lit "secret"] sketch_client
         (fun _ _ => None) (fun _ _ s => s) (fun _ _ => []) keyless
         counting_rnd (lit "Indoor plants") 3 true (lit "unsplash")
         (lit "search") (lit "dall-e-3") (lit "1024x1024")
         (lit "standard") (lit "natural") 1 fuel
       = Some (Ret article))
  ∧ generate_article ascii_lower [lit "secret"] sketch_client
      (fun _ _ => None) (fun _ _ s => s) (fun _ _ => []) keyless
      counting_rnd (lit "Indoor plants") 3 false (lit "unsplash")
      (lit "search") (lit "dall-e-3") (lit "1024x1024") (lit "standard")
      (lit "natural") 1 0
    = Some (Ret []).
Proof.
  split; [exact counting_rnd_fair|]. split; [lia|]. split.
  - destruct (proj2 (proj2
                (X15_article_failure ascii_lower [lit "secret"]
                   sketch_client (fun _ _ => None) (fun _ _ s => s)
                   (fun _ _ => []) keyless counting_rnd
                   (lit "Indoor plants") 3 true (lit "unsplash")
                   (lit "search") (lit "dall-e-3") (lit "1024x1024")
                   (lit "standard") (lit "natural") 1))
                counting_rnd_fair ltac:(lia))
      as (fuel & article & Hrun & _).
    exists fuel, article. exact Hrun.
  - destruct (proj1 (proj2
                (X15_article_failure ascii_lower [lit "secret"]
                   sketch_client (fun _ _ => None) (fun _ _ s => s)
                   (fun _ _ => []) keyless counting_rnd
                   (lit "Indoor plants") 3 false (lit "unsplash")
                   (lit "search") (lit "dall-e-3") (lit "1024x1024")
                   (lit "standard") (lit "natural") 1))
                (or_introl eq_refl) 0%nat)
      as (article & Hrun & Hempty).
    rewrite Hrun. f_equal. f_equal. apply Hempty. left.
    intros [|a] Ha; [|vm_compute in Ha; lia].
    exists (lit "<p>The secret of plants</p>"). split; reflexivity.
Defined.


(** ** [src/autopost.py] *)

Lemma sanitized_chain (f : Z → Z → Z) (c : Z) :
  (∀ old x, f old x = if decide (x = old) then 95 else x) →
  f 124 (f 62 (f 60 (f 34 (f 63 (f 42 (f 58 (f 92 (f 47 c))))))))
  = sanitized c.
Proof.
  intros Hf. unfold sanitized.
  assert (∀ old x, x ≠ old → f old x = x) as Hkeep
    by (intros old x Hx; by rewrite Hf, decide_False).
  assert (∀ old, f old old = 95) as Hhit
    by (intros old; by rewrite Hf, decide_True).
  destruct (decide (c ∈ illegal_chars)) as [Hin|Hout].
  - rewrite bool_decide_eq_true_2 by exact Hin. unfold illegal_chars in Hin.
    repeat (apply elem_of_cons in Hin as [->|Hin];
            [repeat
               match goal with
               | |- context [f ?old ?x] =>
                   lazymatch x with
                   | context [f _ _] => fail
                   | _ => first [rewrite (Hhit old)
                                | rewrite (Hkeep old x) by discriminate]
                   end
               end;
             reflexivity|]).
    by apply elem_of_nil in Hin.
  - rewrite bool_decide_eq_false_2 by exact Hout.
    assert (∀ old, old ∈ illegal_chars → f old c = c) as Hsame.
    { intros old Hold. apply Hkeep. by intros ->. }
    unfold illegal_chars in Hsame.
    rewrite (Hsame 47), (Hsame 92), (Hsame 58), (Hsame 42), (Hsame 63),
      (Hsame 34), (Hsame 60), (Hsame 62), (Hsame 124);
      [reflexivity|..]; apply list_elem_of_In; simpl; tauto.
Qed.

Lemma sanitized_legal (c : Z) : sanitized c ∉ illegal_chars.
Proof.
  unfold sanitized. case_bool_decide as Hc; [|exact Hc].
  unfold illegal_chars. intros Hin.
  repeat (apply elem_of_cons in Hin as [Hin|Hin]; [discriminate|]).
  by apply elem_of_nil in Hin.
Qed.

Lemma sanitized_id (c : Z) : c ∉ illegal_chars → sanitized c = c.
Proof. intros Hc. unfold sanitized. by rewrite bool_decide_eq_false_2. Qed.

Lemma map_chain (f : Z → Z → Z) (s : list Z) :
  List.map (f 124) (List.map (f 62) (List.map (f 60) (List.map (f 34)
    (List.map (f 63) (List.map (f 42) (List.map (f 58) (List.map (f 92)
      (List.map (f 47) s))))))))
  = List.map
      (fun c => f 124 (f 62 (f 60 (f 34 (f 63 (f 42 (f 58 (f 92 (f 47 c)))))))))
      s.
Proof. by rewrite !List.map_map. Qed.

Lemma replace_chain (s : pystr) :
  replace_char 124 95 (replace_char 62 95 (replace_char 60 95
    (replace_char 34 95 (replace_char 63 95 (replace_char 42 95
      (replace_char 58 95 (replace_char 92 95 (replace_char 47 95 s))))))))
  = sanitized <$> s.
Proof.
  exact (eq_trans
           (map_chain (fun old x => if decide (x = old) then 95 else x) s)
           (List.map_ext _ sanitized
              (fun c => sanitized_chain _ c (fun _ _ => eq_refl)) s)).
Qed.

Lemma safe_title_take (title : pystr) :
  safe_title title = take 50 (sanitized <$> title).
Proof.
  unfold safe_title. cbv zeta. rewrite replace_chain.
  destruct (Z.gtb_spec (len (sanitized <$> title)) 50) as [Hlong|Hshort].
  - unfold slice_to. change (50 <? 0) with false. cbv iota.
    f_equal. unfold len in *. lia.
  - rewrite take_ge; [reflexivity|]. unfold len in Hshort. lia.
Qed.

(** X17: the file name [save_article] derives from a title is the title
    with each of the nine characters that are illegal in file names
    replaced by an underscore, cut to 50 characters: it contains none of
    them, has [min(len(title), 50)] characters, is unchanged by a second
    pass, and is the title itself when that is legal and short enough. *)
Theorem X17_safe_title (title : pystr) :
  safe_title title = take 50 (sanitized <$> title)
  ∧ Forall (fun c => c ∉ illegal_chars) (safe_title title)
  ∧ len (safe_title title) = Z.min (len title) 50
  ∧ safe_title (safe_title title) = safe_title title
  ∧ (Forall (fun c => c ∉ illegal_chars) title → len title ≤ 50 →
     safe_title title = title).
Proof.
  assert (Forall (fun c => c ∉ illegal_chars) (safe_title title)) as Hlegal.
  { rewrite safe_title_take. apply Forall_take, Forall_fmap, Forall_forall.
    intros c _. apply sanitized_legal. }
  assert (∀ t, Forall (fun c => c ∉ illegal_chars) t → sanitized <$> t = t)
    as Hid.
  { intros t Ht. induction Ht as [|c t Hc _ IH]; [reflexivity|].
    simpl. f_equal; [by apply sanitized_id | exact IH]. }
  split; [apply safe_title_take|]. split; [exact Hlegal|]. split; [|split].
  - rewrite safe_title_take. unfold len.
    rewrite length_take, length_fmap. lia.
  - rewrite (safe_title_take (safe_title title)), (Hid _ Hlegal).
    rewrite safe_title_take, take_take. f_equal.
  - intros Htitle Hlen. rewrite safe_title_take, (Hid _ Htitle).
    apply take_ge. unfold len in Hlen. lia.
Qed.

Lemma X17_safe_title_witness :
  safe_title (lit "Plants: a guide") = lit "Plants_ a guide"
  ∧ safe_title (lit "Watering plants") = lit "Watering plants".
Proof.
  split; [reflexivity|].
  apply (proj2 (proj2 (proj2 (proj2 (X17_safe_title (lit "Watering plants")))))).
  - unfold illegal_chars. apply Forall_forall. intros c Hc Hin.
    vm_compute in Hc.
    repeat (apply elem_of_cons in Hin as [->|Hin];
            [repeat (apply elem_of_cons in Hc as [Hc|Hc]; [discriminate|]);
             by apply elem_of_nil in Hc|]).
    by apply elem_of_nil in Hin.
  - vm_compute. discriminate.
Defined.

Lemma keywords_in_line_good (line : pystr) :
  Forall (fun kw => kw ≠ [] ∧ (124 ∉ kw) ∧ strip kw = kw)
    (keywords_in_line line).
Proof.
  apply Forall_forall. intros kw Hkw. unfold keywords_in_line in Hkw.
  apply list_elem_of_In, filter_In in Hkw. destruct Hkw as [Hin Hne].
  apply in_map_iff in Hin. destruct Hin as (piece & <- & Hpiece).
  apply list_elem_of_In in Hpiece. split; [|split].
  - by destruct (strip piece).
  - intros Hbar. apply strip_elem in Hbar.
    by apply (split_no_separator 124 line piece).
  - apply strip_idem.
Qed.

Lemma read_keywords_spec (lines all_keywords : list pystr) :
  read_keywords lines all_keywords
  = all_keywords
    ++ flat_map (fun line => keywords_in_line (strip line)) lines.
Proof.
  revert all_keywords. induction lines as [|line lines IH];
    intros all_keywords; simpl.
  - by rewrite app_nil_r.
  - destruct (strip line) as [|c t] eqn:E.
    + rewrite IH. reflexivity.
    + rewrite IH, <- app_assoc. reflexivity.
Qed.

(** X18: every keyword [load_keywords] returns is non-empty, has no white
    space at either end and contains no [|]; the keywords are those of the
    lines in order, each line split at [|], blank pieces and blank lines
    dropped; a missing or unreadable file gives no keyword and no
    exception. *)
Theorem X18_load_keywords (keywords_file : option (res (list pystr))) :
  ∃ keywords,
    load_keywords keywords_file = Ret keywords
    ∧ Forall (fun kw => kw ≠ [] ∧ (124 ∉ kw) ∧ strip kw = kw) keywords
    ∧ (∀ lines, keywords_file = Some (Ret lines) →
         keywords
         = flat_map (fun line => keywords_in_line (strip line)) lines)
    ∧ (keywords_file = None ∨ (∃ e, keywords_file = Some (Raise e)) →
       keywords = []).
Proof.
  unfold load_keywords. destruct keywords_file as [[lines|e]|];
    cbn [mbind res_bind bind try_except any_Exception].
  - eexists. split; [reflexivity|]. rewrite read_keywords_spec, app_nil_l.
    split; [|split].
    + apply Forall_forall. intros kw Hkw.
      apply list_elem_of_In, in_flat_map in Hkw.
      destruct Hkw as (line & _ & Hkw). apply list_elem_of_In in Hkw.
      pose proof (keywords_in_line_good (strip line)) as Hgood.
      rewrite Forall_forall in Hgood. by apply Hgood.
    + by intros ? [= <-].
    + intros [Hnone|[e He]]; discriminate.
  - exists []. split; [reflexivity|]. split; [constructor|].
    split; [discriminate | done].
  - exists []. split; [reflexivity|]. split; [constructor|].
    split; [discriminate | done].
Qed.

Lemma X18_load_keywords_witness :
  load_keywords (Some (Ret [lit "indoor plants | garden"; lit "  ";
                            lit " soil |"]))
  = Ret [lit "indoor plants"; lit "garden"; lit "soil"].
Proof.
  destruct (X18_load_keywords
              (Some (Ret [lit "indoor plants | garden"; lit "  ";
                          lit " soil |"])))
    as (keywords & Hrun & _ & Hlines & _).
  rewrite Hrun. f_equal. exact (Hlines _ eq_refl).
Defined.

Section AutoPostFacts.
Variable fs : filesystem.
Variable cfg : config.
Variable article_of : pystr → res pystr.
Variable publisher : option publish_fn.

Lemma save_article_total (keyword title content : pystr) (index : Z) :
  ∃ b, save_article fs cfg keyword title content index = Ret b.
Proof. apply try_except_any. Qed.

Lemma save_article_true (keyword title content : pystr) (index : Z) :
  save_article fs cfg keyword title content index = Ret true
  ↔ ∃ dir,
      create_output_directory fs cfg keyword = Ret dir
      ∧ write_file fs
          (path_join fs dir
             (safe_title title ++ lit "_" ++ now fs ++ lit ".txt"))
          content
        = Ret ().
Proof.
  unfold save_article.
  destruct (create_output_directory fs cfg keyword) as [dir|e] eqn:Hdir;
    cbn [mbind res_bind bind try_except any_Exception].
  - destruct (write_file fs _ content) as [[]|e] eqn:Hwrite;
      cbn [mbind res_bind bind try_except any_Exception].
    + split; [|reflexivity]. intros _. exists dir. by rewrite Hwrite.
    + split; [discriminate|]. intros (dir' & [= <-] & Hw).
      rewrite Hwrite in Hw. discriminate.
  - split; [discriminate|]. intros (dir' & Hd & _). discriminate.
Qed.

Lemma publish_to_wordpress_total (title content keyword : pystr) :
  ∃ post_id, publish_to_wordpress cfg publisher title content keyword
             = Ret post_id.
Proof. apply try_except_any. Qed.

Lemma generate_and_save_article_total (keyword title : pystr)
    (index total : Z) :
  ∃ b, generate_and_save_article fs cfg article_of publisher keyword title
         index total = Ret b.
Proof. apply try_except_any. Qed.

End AutoPostFacts.



Section Progress.
Variable fs : filesystem.
Variable cfg : config.
Variable article_of : pystr → res pystr.
Variable titles_of : pystr → Z → res (list pystr).
Variable publisher : option publish_fn.
Variable total_articles : Z.

(** What holds of the counters between two articles, when the pause can be
    made. *)
Lemma process_titles_spec (keyword : pystr) (titles : list pystr)
    (st : progress) :
  sleep fs (delay_between_posts cfg) = Ret () →
  0 ≤ success_count st ≤ article_index st →
  Forall (fun d => d = delay_between_posts cfg) (pauses st) →
  len (pauses st) = Z.max 0 (Z.min (article_index st) (total_articles - 1)) →
  ∃ st',
    process_titles fs cfg article_of publisher keyword titles total_articles
      st = Ret st'
    ∧ 0 ≤ success_count st' ≤ article_index st'
    ∧ Forall (fun d => d = delay_between_posts cfg) (pauses st')
    ∧ len (pauses st')
      = Z.max 0 (Z.min (article_index st') (total_articles - 1))
    ∧ article_index st' = article_index st + len titles.
Proof.
  intros Hsleep. revert st. induction titles as [|title titles IH];
    intros st Hcount Hdelay Hpauses.
  - exists st. unfold len. simpl. repeat split; try done; lia.
  - cbn [process_titles].
    destruct (generate_and_save_article_total fs cfg article_of publisher
                keyword title (article_index st + 1) total_articles)
      as [ok Hok].
    rewrite Hok. cbn [mbind res_bind bind]. cbv zeta. rewrite Hsleep.
    assert (∃ ps,
              (if article_index st + 1 <? total_articles
               then _ ← Ret ();
                    Ret (pauses st ++ [delay_between_posts cfg])
               else Ret (pauses st)) = Ret ps
              ∧ Forall (fun d => d = delay_between_posts cfg) ps
              ∧ len ps
                = Z.max 0 (Z.min (article_index st + 1)
                             (total_articles - 1)))
      as (ps & -> & Hps & Hlen).
    { destruct (Z.ltb_spec (article_index st + 1) total_articles).
      - eexists. split; [reflexivity|]. split.
        + apply Forall_app. split; [exact Hdelay|]. by constructor.
        + unfold len in *. rewrite length_app. simpl. lia.
      - exists (pauses st). split; [reflexivity|].
        split; [exact Hdelay | lia]. }
    cbn [mbind res_bind bind].
    match goal with
    | |- ∃ st', process_titles _ _ _ _ _ _ _ ?s = _ ∧ _ =>
        destruct (IH s) as (st' & Hrun & Hc & Hd & Hp & Hi)
    end.
    + cbn [success_count article_index]. destruct ok; lia.
    + exact Hps.
    + exact Hlen.
    + exists st'. split; [exact Hrun|]. split; [exact Hc|].
      split; [exact Hd|]. split; [exact Hp|].
      rewrite Hi. cbn [article_index]. unfold len. simpl. lia.
Qed.

(** A pause that cannot be made ends the loop with its exception. *)
Lemma process_titles_sleep_raises (keyword title : pystr)
    (titles : list pystr) (st : progress) (e : exn) :
  sleep fs (delay_between_posts cfg) = Raise e →
  article_index st + 1 < total_articles →
  process_titles fs cfg article_of publisher keyword (title :: titles)
    total_articles st = Raise e.
Proof.
  intros Hsleep Hlt. cbn [process_titles].
  destruct (generate_and_save_article_total fs cfg article_of publisher
              keyword title (article_index st + 1) total_articles)
    as [ok Hok].
  rewrite Hok. cbn [mbind res_bind bind]. cbv zeta.
  rewrite (proj2 (Z.ltb_lt _ _) Hlt), Hsleep. reflexivity.
Qed.

Hypothesis titles_bounded :
  ∀ keyword, ∃ titles,
    titles_of keyword (title_per_keyword cfg) = Ret titles
    ∧ len titles ≤ title_per_keyword cfg.

Lemma process_each_spec (keywords : list pystr) (st : progress) :
  sleep fs (delay_between_posts cfg) = Ret () →
  0 ≤ success_count st ≤ article_index st →
  Forall (fun d => d = delay_between_posts cfg) (pauses st) →
  len (pauses st) = Z.max 0 (Z.min (article_index st) (total_articles - 1)) →
  ∃ st',
    process_each fs cfg article_of titles_of publisher keywords
      total_articles st = Ret st'
    ∧ 0 ≤ success_count st' ≤ article_index st'
    ∧ Forall (fun d => d = delay_between_posts cfg) (pauses st')
    ∧ len (pauses st')
      = Z.max 0 (Z.min (article_index st') (total_articles - 1))
    ∧ article_index st'
      ≤ article_index st + len keywords * title_per_keyword cfg.
Proof.
  intros Hsleep. revert st. induction keywords as [|keyword keywords IH];
    intros st Hcount Hdelay Hpauses.
  - exists st. unfold len. simpl. repeat split; try done; lia.
  - cbn [process_each].
    destruct (titles_bounded keyword) as (titles & Htitles & Hlen).
    rewrite Htitles. cbn [mbind res_bind bind].
    assert (len (keyword :: keywords) = len keywords + 1) as Hcons
      by (unfold len; simpl; lia).
    assert (0 ≤ len titles) as Hpos by (unfold len; lia).
    destruct titles as [|title titles].
    + destruct (IH st Hcount Hdelay Hpauses)
        as (st' & Hrun & Hc & Hd & Hp & Hi).
      exists st'. split; [exact Hrun|]. split; [exact Hc|].
      split; [exact Hd|]. split; [exact Hp|]. rewrite Hcons. lia.
    + destruct (process_titles_spec keyword (title :: titles) st Hsleep
                  Hcount Hdelay Hpauses)
        as (st1 & Hrun1 & Hc1 & Hd1 & Hp1 & Hi1).
      rewrite Hrun1. cbn [mbind res_bind bind].
      destruct (IH st1 Hc1 Hd1 Hp1) as (st' & Hrun & Hc & Hd & Hp & Hi).
      exists st'. split; [exact Hrun|]. split; [exact Hc|].
      split; [exact Hd|]. split; [exact Hp|]. rewrite Hcons. lia.
Qed.

End Progress.

Lemma generate_titles_bounded lower L llm keyword n max_retries :
  0 ≤ n →
  ∃ titles,
    generate_titles lower L llm keyword n max_retries = Ret titles
    ∧ len titles ≤ n.
Proof.
  intros Hn.
  destruct (generate_titles_total lower L llm keyword n max_retries)
    as [titles Htitles].
  exists titles. split; [exact Htitles|].
  revert Htitles. unfold generate_titles.
  destruct (retry_titles _ _ _ _ _ _ _ _) as [r|e] eqn:Hloop; simpl.
  - intros [= <-].
    eapply retry_titles_length; [exact Hn| |exact Hloop]. discriminate.
  - intros [= <-]. exact Hn.
Qed.


